(** * Electric-vehicle ETL: loader and reporter

    A shallow embedding of [electric_vehicle_data_loader.py] and
    [electric_vehicle_analytics.py].  The Python runtime pieces the two
    classes lean on (text files read line by line, [int()], [csv.DictReader],
    [itertools.islice], the DuckDB connection, pandas [groupby] and
    [to_parquet]) are modelled first; the two classes follow, method by
    method, and then the properties. *)

From stdpp Require Import base tactics option list sorting gmap strings pretty.
From Stdlib Require Import ZArith Ascii Lia.

Local Open Scope Z_scope.

(** ** Python values and exceptions *)

(** A Python [str]: a sequence of Unicode code points.  The text of a
    file is the [str] that reading it gives. *)
Definition str : Type := list N.

(** [ord] of an ASCII character of the source. *)
Definition ord (c : ascii) : N := N.of_nat (nat_of_ascii c).

(** A string literal of the source (a column name, the text of an
    example) as the [str] it denotes.  Only used on ASCII literals, where
    the code points are the bytes. *)
Definition lit (s : string) : str := ord <$> String.list_ascii_of_string s.

(** What [_convert_value] hands to the database driver: [None], an [int]
    or a [str]. *)
Inductive value :=
  | VNone
  | VInt (z : Z)
  | VStr (s : str).

#[global] Instance value_eq_dec : EqDecision value.
Proof. solve_decision. Defined.

Inductive exn :=
  | FileNotFoundError
  | ValueError                       (* islice with a stop out of range *)
  | CsvError                         (* _csv.Error *)
  | ConversionException              (* duckdb: value out of range for the column *)
  | InvalidInputException            (* duckdb: wrong number of parameters *)
  | BinderException                  (* duckdb: no such column *)
  | TransactionException             (* duckdb: BEGIN inside / COMMIT outside a transaction *)
  | EngineFault (code : nat)         (* any other failure of the engine *)
  | OSError                          (* a directory or a report file cannot be written *)
  | AssertionError (csv_row_count db_row_count : Z).

#[global] Instance exn_eq_dec : EqDecision exn.
Proof. solve_decision. Defined.

(** The result of running a statement: it returns, it raises, or the
    iteration budget of a [while] loop is used up ([Diverge]; shown below
    never to happen for [load_data]). *)
Inductive outcome (A : Type) :=
  | Return (a : A)
  | Raise (e : exn)
  | Diverge.
Arguments Return {A} a.
Arguments Raise {A} e.
Arguments Diverge {A}.

#[global] Instance outcome_eq_dec {A} `{EqDecision A} : EqDecision (outcome A).
Proof. solve_decision. Defined.

#[global] Instance outcome_ret : MRet outcome := @Return.
#[global] Instance outcome_fmap : FMap outcome := λ A B f m,
  match m with
  | Return a => Return (f a)
  | Raise e => Raise e
  | Diverge => Diverge
  end.
#[global] Instance outcome_bind : MBind outcome := λ A B f m,
  match m with
  | Return a => f a
  | Raise e => Raise e
  | Diverge => Diverge
  end.

(** ** [int(str)]

    [int()] on a [str], base 10, as CPython 3.11 does it (Unicode 14.0).
    The text is first brought to ASCII
    ([_PyUnicode_TransformDecimalAndSpaceToASCII]): a code point below 127
    stays, any other white-space character becomes a space, any other
    decimal digit becomes the ASCII digit of its value, and anything else
    becomes a question mark.  The ASCII text is then read
    ([PyLong_FromString]): surrounding white space is stripped, one sign is
    allowed, digits may be grouped by single underscores, and more than
    4300 digits are refused.  [None] stands for the [ValueError] that
    [int()] raises. *)
Module Py.

(** [Py_UNICODE_ISSPACE], for the code points from 127 on. *)
Definition unicode_space : list N :=
  [ 0x85; 0xA0; 0x1680; 0x2000; 0x2001; 0x2002; 0x2003; 0x2004; 0x2005;
    0x2006; 0x2007; 0x2008; 0x2009; 0x200A; 0x2028; 0x2029; 0x202F; 0x205F;
    0x3000 ]%N.

Definition unicode_isspace (c : N) : bool := bool_decide (c ∈ unicode_space).

(** The decimal digits of Unicode come in runs of ten, from zero to nine:
    the code points of the zeros. *)
Definition decimal_zeros : list N :=
  [ 0x30; 0x660; 0x6F0; 0x7C0; 0x966; 0x9E6; 0xA66; 0xAE6; 0xB66; 0xBE6;
    0xC66; 0xCE6; 0xD66; 0xDE6; 0xE50; 0xED0; 0xF20; 0x1040; 0x1090; 0x17E0;
    0x1810; 0x1946; 0x19D0; 0x1A80; 0x1A90; 0x1B50; 0x1BB0; 0x1C40; 0x1C50;
    0xA620; 0xA8D0; 0xA900; 0xA9D0; 0xA9F0; 0xAA50; 0xABF0; 0xFF10; 0x104A0;
    0x10D30; 0x11066; 0x110F0; 0x11136; 0x111D0; 0x112F0; 0x11450; 0x114D0;
    0x11650; 0x116C0; 0x11730; 0x118E0; 0x11950; 0x11C50; 0x11D50; 0x11DA0;
    0x16A60; 0x16AC0; 0x16B50; 0x1D7CE; 0x1D7D8; 0x1D7E2; 0x1D7EC; 0x1D7F6;
    0x1E140; 0x1E2F0; 0x1E950; 0x1FBF0 ]%N.

Fixpoint decimal_in (zeros : list N) (c : N) : option N :=
  match zeros with
  | zero :: zeros' =>
      if ((zero <=? c) && (c <? zero + 10))%N then Some (c - zero)%N
      else decimal_in zeros' c
  | [] => None
  end.

(** [Py_UNICODE_TODECIMAL] *)
Definition unicode_todecimal (c : N) : option N := decimal_in decimal_zeros c.

(** One character of [_PyUnicode_TransformDecimalAndSpaceToASCII]. *)
Definition to_ascii (c : N) : N :=
  if (c <? 127)%N then c
  else if unicode_isspace c then ord " "
  else match unicode_todecimal c with
       | Some d => (ord "0" + d)%N
       | None => ord "?"
       end.

(** [Py_ISSPACE], on the ASCII text. *)
Definition isspace (c : N) : bool :=
  ((9 <=? c) && (c <=? 13) || (c =? 32))%N.

Definition digit_value (c : N) : option Z :=
  if ((48 <=? c) && (c <=? 57))%N then Some (Z.of_N c - 48) else None.

Fixpoint lstrip (s : str) : str :=
  match s with
  | c :: s' => if isspace c then lstrip s' else s
  | [] => []
  end.

Fixpoint all_space (s : str) : bool :=
  match s with
  | c :: s' => isspace c && all_space s'
  | [] => true
  end.

(** Scans digits and underscores; returns the value, the number of
    digits and the unread rest.  [prev_us]: the previous character was an
    underscore. *)
Fixpoint scan_digits (prev_us : bool) (acc : Z) (n : N) (s : str)
  : option (Z * N * str) :=
  match s with
  | c :: s' =>
      match digit_value c with
      | Some d => scan_digits false (10 * acc + d) (N.succ n) s'
      | None =>
          if (c =? ord "_")%N
          then (if prev_us then None else scan_digits true acc n s')
          else (if prev_us then None else Some (acc, n, s))
      end
  | [] => if prev_us then None else Some (acc, n, s)
  end.

Definition max_str_digits : N := 4300.

Definition int_unsigned (s : str) : option Z :=
  if bool_decide (head s = Some (ord "_")) then None
  else
    match scan_digits false 0 0 s with
    | Some (v, n, rest) =>
        if (n =? 0)%N then None
        else if (max_str_digits <? n)%N then None
        else if all_space rest then Some v else None
    | None => None
    end.

(** [PyLong_FromString] in base 10. *)
Definition int_ascii (s : str) : option Z :=
  match lstrip s with
  | c :: s' =>
      if (c =? ord "+")%N then int_unsigned s'
      else if (c =? ord "-")%N then Z.opp <$> int_unsigned s'
      else int_unsigned (c :: s')
  | [] => int_unsigned []
  end.

Definition int (s : str) : option Z := int_ascii (to_ascii <$> s).

End Py.

(** ** Text files

    A file is its decoded text.  Iterating over a text file yields its
    lines, each ending at ["\n"], ["\r\n"] or a lone ["\r"] (universal
    newlines).  Opened with [newline=''] (as [load_data] does) the line
    endings are kept as they are; opened with the default (as
    [validate_data_load] does) each is translated to ["\n"]. *)
Module TextFile.

Definition LF : N := 10.
Definition CR : N := 13.

Definition push (line : str) (c : N) : str := line ++ [c].

Fixpoint readlines_from (translate : bool) (cur : str) (s : str)
  : list str :=
  match s with
  | [] => if decide (cur = []) then [] else [cur]
  | c :: s' =>
      if (c =? LF)%N then push cur LF :: readlines_from translate [] s'
      else if (c =? CR)%N then
        match s' with
        | c' :: s'' =>
            if (c' =? LF)%N
            then (if translate then push cur LF else push (push cur CR) LF)
                   :: readlines_from translate [] s''
            else (if translate then push cur LF else push cur CR)
                   :: readlines_from translate [] s'
        | [] =>
            [if translate then push cur LF else push cur CR]
        end
      else readlines_from translate (push cur c) s'
  end.

(** [open(path, newline='')] then iterate. *)
Definition readlines_untranslated (text : str) : list str :=
  readlines_from false [] text.

(** [open(path, 'r')] then iterate. *)
Definition readlines (text : str) : list str :=
  readlines_from true [] text.

End TextFile.

(** ** Iterators

    A Python iterator over finitely many items is the list of items it
    yields and the way it ends: [StopIteration] ([failure = None]) or an
    exception raised when the item after the last one is asked for. *)
Record iterator (A : Type) := Iterator {
  items : list A;
  failure : option exn;
}.
Arguments Iterator {A} items failure.
Arguments items {A} _.
Arguments failure {A} _.

(** [sys.maxsize], on a 64-bit build of CPython. *)
Definition maxsize : Z := 2 ^ 63 - 1.

(** [itertools.islice(it, stop)], consumed on the spot by a list
    comprehension: the batch, and the iterator advanced past it.  A [stop]
    that is negative or above [sys.maxsize] is a [ValueError]; the
    exception ending [it] escapes as soon as fewer than [stop] items are
    left. *)
Definition islice {A} (it : iterator A) (stop : Z)
  : outcome (list A * iterator A) :=
  if (stop <? 0) || (maxsize <? stop) then Raise ValueError
  else
    let n := Z.to_nat stop in
    if (n <=? length (items it))%nat
    then Return (take n (items it), Iterator (drop n (items it)) (failure it))
    else match failure it with
         | Some e => Raise e
         | None => Return (items it, Iterator [] None)
         end.

(** ** The [csv] module

    [csv.reader] with the default (excel) dialect: comma delimiter, double-quote
    quote character, doubled quotes, no escape character, not strict.  The
    character automaton is the one of CPython's [_csv.c]; the three states
    that only an escape character can reach are left out. *)
Module Csv.
Import TextFile.

Inductive ParserState :=
  | START_RECORD
  | START_FIELD
  | IN_FIELD
  | IN_QUOTED_FIELD
  | QUOTE_IN_QUOTED_FIELD
  | EAT_CRNL.

#[global] Instance ParserState_eq_dec : EqDecision ParserState.
Proof. solve_decision. Defined.

Record Reader := mkReader {
  state : ParserState;
  fields : list str;
  field : str;
}.

Definition delimiter : N := ord ",".
Definition quotechar : N := 34.
Definition field_limit : N := 131072.

Definition is_newline (c : N) : bool := ((c =? LF) || (c =? CR))%N.

Definition parse_reset : Reader := mkReader START_RECORD [] [].

Definition set_state (st : ParserState) (r : Reader) : Reader :=
  mkReader st (fields r) (field r).

Definition parse_save_field (r : Reader) : Reader :=
  mkReader (state r) (fields r ++ [field r]) [].

Definition parse_add_char (r : Reader) (c : N) : outcome Reader :=
  if (field_limit <=? N.of_nat (length (field r)))%N then Raise CsvError
  else Return (mkReader (state r) (fields r) (push (field r) c)).

(** [case START_FIELD] of [parse_process_char]; [None] is the end-of-line
    signal. *)
Definition start_field (r : Reader) (c : option N) : outcome Reader :=
  match c with
  | None => Return (set_state START_RECORD (parse_save_field r))
  | Some ch =>
      if is_newline ch then Return (set_state EAT_CRNL (parse_save_field r))
      else if (ch =? quotechar)%N then Return (set_state IN_QUOTED_FIELD r)
      else if (ch =? delimiter)%N then Return (parse_save_field r)
      else set_state IN_FIELD <$> parse_add_char r ch
  end.

Definition parse_process_char (r : Reader) (c : option N) : outcome Reader :=
  match state r with
  | START_RECORD =>
      match c with
      | None => Return r
      | Some ch =>
          if is_newline ch then Return (set_state EAT_CRNL r)
          else start_field (set_state START_FIELD r) c
      end
  | START_FIELD => start_field r c
  | IN_FIELD =>
      match c with
      | None => Return (set_state START_RECORD (parse_save_field r))
      | Some ch =>
          if is_newline ch then Return (set_state EAT_CRNL (parse_save_field r))
          else if (ch =? delimiter)%N
          then Return (set_state START_FIELD (parse_save_field r))
          else parse_add_char r ch
      end
  | IN_QUOTED_FIELD =>
      match c with
      | None => Return r
      | Some ch =>
          if (ch =? quotechar)%N then Return (set_state QUOTE_IN_QUOTED_FIELD r)
          else parse_add_char r ch
      end
  | QUOTE_IN_QUOTED_FIELD =>
      match c with
      | None => Return (set_state START_RECORD (parse_save_field r))
      | Some ch =>
          if (ch =? quotechar)%N
          then set_state IN_QUOTED_FIELD <$> parse_add_char r ch
          else if (ch =? delimiter)%N
          then Return (set_state START_FIELD (parse_save_field r))
          else if is_newline ch
          then Return (set_state EAT_CRNL (parse_save_field r))
          else set_state IN_FIELD <$> parse_add_char r ch
      end
  | EAT_CRNL =>
      match c with
      | None => Return (set_state START_RECORD r)
      | Some ch => if is_newline ch then Return r else Raise CsvError
      end
  end.

Fixpoint parse_chars (r : Reader) (line : str) : outcome Reader :=
  match line with
  | [] => Return r
  | c :: line' => r' ← parse_process_char r (Some c); parse_chars r' line'
  end.

(** One turn of the [do ... while] of [Reader_iternext]: the characters of
    a line, then the end-of-line signal. *)
Definition parse_line (r : Reader) (line : str) : outcome Reader :=
  r' ← parse_chars r line; parse_process_char r' None.

(** The records [csv.reader] yields over the lines of a file.  A record is
    complete when a line leaves the automaton in [START_RECORD]; otherwise
    the next line continues it.  At the end of the input an open quoted
    field (or pending text) is flushed as a last record. *)
Fixpoint reader_from (r : Reader) (lines : list str)
  : iterator (list str) :=
  match lines with
  | [] =>
      if bool_decide (field r ≠ [] ∨ state r = IN_QUOTED_FIELD)
      then Iterator [fields (parse_save_field r)] None
      else Iterator [] None
  | line :: lines' =>
      match parse_line r line with
      | Return r' =>
          if decide (state r' = START_RECORD)
          then let rest := reader_from parse_reset lines' in
               Iterator (fields r' :: items rest) (failure rest)
          else reader_from r' lines'
      | Raise e => Iterator [] (Some e)
      | Diverge => Iterator [] None
      end
  end.

Definition reader (lines : list str) : iterator (list str) :=
  reader_from parse_reset lines.

(** A row of [DictReader]: [dict(zip(fieldnames, row))], then [None]
    under every field name the row is too short for.  A later duplicate of
    a field name wins, also when it is one of those set to [None].  The
    surplus of a long row sits under the key [None], which no column name
    ever asks for, and is left out. *)
Definition make_dict (fieldnames row : list str) : gmap str (option str) :=
  let d := foldl (λ d kv, <[kv.1 := Some kv.2]> d) ∅ (zip fieldnames row) in
  foldl (λ d key, <[key := None]> d) d (drop (length row) fieldnames).

(** [row.get(key)] *)
Definition get (row : gmap str (option str)) (key : str) : option str :=
  row !! key ≫= id.

(** [csv.DictReader]: the first record is the header, empty records
    (blank lines) are skipped. *)
Definition DictReader (lines : list str)
  : iterator (gmap str (option str)) :=
  let rd := reader lines in
  match items rd with
  | [] => Iterator [] (failure rd)
  | fieldnames :: rows =>
      Iterator (make_dict fieldnames <$> filter (λ row, row ≠ []) rows)
               (failure rd)
  end.

End Csv.

(** ** The database

    The DuckDB connection, as far as the two classes use it: one table
    [electric_vehicles], transactions, parameterised inserts and the
    aggregate queries of the reporter. *)
Module DuckDB.

(** A row of [electric_vehicles], column by column as [CREATE_TABLE_SQL]
    declares them; [None] is SQL [NULL]. *)
Record vehicle := mkVehicle {
  VIN : option str;
  County : option str;
  City : option str;
  State : option str;
  Postal_Code : option str;
  Model_Year : option Z;
  Make : option str;
  Model : option str;
  Electric_Vehicle_Type : option str;
  CAFV_Eligibility : option str;
  Electric_Range : option Z;
  Base_MSRP : option Z;
  Legislative_District : option str;
  DOL_Vehicle_ID : option Z;
  Vehicle_Location : option str;
  Electric_Utility : option str;
  Census_Tract : option str;
}.

#[global] Instance vehicle_eq_dec : EqDecision vehicle.
Proof. solve_decision. Defined.

Definition null_row : vehicle :=
  mkVehicle None None None None None None None None None None None None None None None None None.

(** Casting a bound parameter to the column type.  An integer outside
    the column's range is a conversion error.  (A string bound to an
    integer column would be parsed by the engine; [_convert_value] never
    produces one, and the model refuses it.) *)
Definition cast_varchar (v : value) : outcome (option str) :=
  match v with
  | VNone => Return None
  | VStr s => Return (Some s)
  | VInt z => Return (Some (lit (pretty z)))
  end.

Definition cast_int (bits : Z) (v : value) : outcome (option Z) :=
  match v with
  | VNone => Return None
  | VInt z =>
      if (- 2 ^ (bits - 1) <=? z) && (z <? 2 ^ (bits - 1))
      then Return (Some z) else Raise ConversionException
  | VStr _ => Raise ConversionException
  end.

Definition cast_integer := cast_int 32.
Definition cast_bigint := cast_int 64.

(** Assigning one column of a row under construction. *)
Definition set_column (col : string) (v : value) (r : vehicle) : outcome vehicle :=
  if String.eqb col "VIN" then
    x ← cast_varchar v; Return (mkVehicle x (County r) (City r) (State r) (Postal_Code r) (Model_Year r) (Make r) (Model r) (Electric_Vehicle_Type r) (CAFV_Eligibility r) (Electric_Range r) (Base_MSRP r) (Legislative_District r) (DOL_Vehicle_ID r) (Vehicle_Location r) (Electric_Utility r) (Census_Tract r))
  else if String.eqb col "County" then
    x ← cast_varchar v; Return (mkVehicle (VIN r) x (City r) (State r) (Postal_Code r) (Model_Year r) (Make r) (Model r) (Electric_Vehicle_Type r) (CAFV_Eligibility r) (Electric_Range r) (Base_MSRP r) (Legislative_District r) (DOL_Vehicle_ID r) (Vehicle_Location r) (Electric_Utility r) (Census_Tract r))
  else if String.eqb col "City" then
    x ← cast_varchar v; Return (mkVehicle (VIN r) (County r) x (State r) (Postal_Code r) (Model_Year r) (Make r) (Model r) (Electric_Vehicle_Type r) (CAFV_Eligibility r) (Electric_Range r) (Base_MSRP r) (Legislative_District r) (DOL_Vehicle_ID r) (Vehicle_Location r) (Electric_Utility r) (Census_Tract r))
  else if String.eqb col "State" then
    x ← cast_varchar v; Return (mkVehicle (VIN r) (County r) (City r) x (Postal_Code r) (Model_Year r) (Make r) (Model r) (Electric_Vehicle_Type r) (CAFV_Eligibility r) (Electric_Range r) (Base_MSRP r) (Legislative_District r) (DOL_Vehicle_ID r) (Vehicle_Location r) (Electric_Utility r) (Census_Tract r))
  else if String.eqb col "Postal_Code" then
    x ← cast_varchar v; Return (mkVehicle (VIN r) (County r) (City r) (State r) x (Model_Year r) (Make r) (Model r) (Electric_Vehicle_Type r) (CAFV_Eligibility r) (Electric_Range r) (Base_MSRP r) (Legislative_District r) (DOL_Vehicle_ID r) (Vehicle_Location r) (Electric_Utility r) (Census_Tract r))
  else if String.eqb col "Model_Year" then
    x ← cast_integer v; Return (mkVehicle (VIN r) (County r) (City r) (State r) (Postal_Code r) x (Make r) (Model r) (Electric_Vehicle_Type r) (CAFV_Eligibility r) (Electric_Range r) (Base_MSRP r) (Legislative_District r) (DOL_Vehicle_ID r) (Vehicle_Location r) (Electric_Utility r) (Census_Tract r))
  else if String.eqb col "Make" then
    x ← cast_varchar v; Return (mkVehicle (VIN r) (County r) (City r) (State r) (Postal_Code r) (Model_Year r) x (Model r) (Electric_Vehicle_Type r) (CAFV_Eligibility r) (Electric_Range r) (Base_MSRP r) (Legislative_District r) (DOL_Vehicle_ID r) (Vehicle_Location r) (Electric_Utility r) (Census_Tract r))
  else if String.eqb col "Model" then
    x ← cast_varchar v; Return (mkVehicle (VIN r) (County r) (City r) (State r) (Postal_Code r) (Model_Year r) (Make r) x (Electric_Vehicle_Type r) (CAFV_Eligibility r) (Electric_Range r) (Base_MSRP r) (Legislative_District r) (DOL_Vehicle_ID r) (Vehicle_Location r) (Electric_Utility r) (Census_Tract r))
  else if String.eqb col "Electric_Vehicle_Type" then
    x ← cast_varchar v; Return (mkVehicle (VIN r) (County r) (City r) (State r) (Postal_Code r) (Model_Year r) (Make r) (Model r) x (CAFV_Eligibility r) (Electric_Range r) (Base_MSRP r) (Legislative_District r) (DOL_Vehicle_ID r) (Vehicle_Location r) (Electric_Utility r) (Census_Tract r))
  else if String.eqb col "CAFV_Eligibility" then
    x ← cast_varchar v; Return (mkVehicle (VIN r) (County r) (City r) (State r) (Postal_Code r) (Model_Year r) (Make r) (Model r) (Electric_Vehicle_Type r) x (Electric_Range r) (Base_MSRP r) (Legislative_District r) (DOL_Vehicle_ID r) (Vehicle_Location r) (Electric_Utility r) (Census_Tract r))
  else if String.eqb col "Electric_Range" then
    x ← cast_integer v; Return (mkVehicle (VIN r) (County r) (City r) (State r) (Postal_Code r) (Model_Year r) (Make r) (Model r) (Electric_Vehicle_Type r) (CAFV_Eligibility r) x (Base_MSRP r) (Legislative_District r) (DOL_Vehicle_ID r) (Vehicle_Location r) (Electric_Utility r) (Census_Tract r))
  else if String.eqb col "Base_MSRP" then
    x ← cast_integer v; Return (mkVehicle (VIN r) (County r) (City r) (State r) (Postal_Code r) (Model_Year r) (Make r) (Model r) (Electric_Vehicle_Type r) (CAFV_Eligibility r) (Electric_Range r) x (Legislative_District r) (DOL_Vehicle_ID r) (Vehicle_Location r) (Electric_Utility r) (Census_Tract r))
  else if String.eqb col "Legislative_District" then
    x ← cast_varchar v; Return (mkVehicle (VIN r) (County r) (City r) (State r) (Postal_Code r) (Model_Year r) (Make r) (Model r) (Electric_Vehicle_Type r) (CAFV_Eligibility r) (Electric_Range r) (Base_MSRP r) x (DOL_Vehicle_ID r) (Vehicle_Location r) (Electric_Utility r) (Census_Tract r))
  else if String.eqb col "DOL_Vehicle_ID" then
    x ← cast_bigint v; Return (mkVehicle (VIN r) (County r) (City r) (State r) (Postal_Code r) (Model_Year r) (Make r) (Model r) (Electric_Vehicle_Type r) (CAFV_Eligibility r) (Electric_Range r) (Base_MSRP r) (Legislative_District r) x (Vehicle_Location r) (Electric_Utility r) (Census_Tract r))
  else if String.eqb col "Vehicle_Location" then
    x ← cast_varchar v; Return (mkVehicle (VIN r) (County r) (City r) (State r) (Postal_Code r) (Model_Year r) (Make r) (Model r) (Electric_Vehicle_Type r) (CAFV_Eligibility r) (Electric_Range r) (Base_MSRP r) (Legislative_District r) (DOL_Vehicle_ID r) x (Electric_Utility r) (Census_Tract r))
  else if String.eqb col "Electric_Utility" then
    x ← cast_varchar v; Return (mkVehicle (VIN r) (County r) (City r) (State r) (Postal_Code r) (Model_Year r) (Make r) (Model r) (Electric_Vehicle_Type r) (CAFV_Eligibility r) (Electric_Range r) (Base_MSRP r) (Legislative_District r) (DOL_Vehicle_ID r) (Vehicle_Location r) x (Census_Tract r))
  else if String.eqb col "Census_Tract" then
    x ← cast_varchar v; Return (mkVehicle (VIN r) (County r) (City r) (State r) (Postal_Code r) (Model_Year r) (Make r) (Model r) (Electric_Vehicle_Type r) (CAFV_Eligibility r) (Electric_Range r) (Base_MSRP r) (Legislative_District r) (DOL_Vehicle_ID r) (Vehicle_Location r) (Electric_Utility r) x)
  else Raise BinderException.

(** [INSERT INTO electric_vehicles (cols) VALUES (?, ..., ?)] for one
    parameter list: the i-th parameter goes to the i-th named column,
    columns not named stay [NULL]. *)
Fixpoint bind_columns (cols : list string) (params : list value) (r : vehicle)
  : outcome vehicle :=
  match cols, params with
  | [], [] => Return r
  | col :: cols', v :: params' =>
      r' ← set_column col v r; bind_columns cols' params' r'
  | _, _ => Raise InvalidInputException
  end.

Definition bind_row (cols : list string) (params : list value) : outcome vehicle :=
  bind_columns cols params null_row.

(** The connection: the committed table and, inside a transaction, the
    rows inserted since [BEGIN]. *)
Record connection := mkConnection {
  committed : list vehicle;
  transaction : option (list vehicle);
}.

#[global] Instance connection_eq_dec : EqDecision connection.
Proof. solve_decision. Defined.

(** What a query on this connection sees. *)
Definition visible (db : connection) : list vehicle :=
  committed db ++ default [] (transaction db).

Definition add_row (v : vehicle) (db : connection) : connection :=
  match transaction db with
  | Some pending => mkConnection (committed db) (Some (pending ++ [v]))
  | None => mkConnection (committed db ++ [v]) None
  end.

End DuckDB.

(** ** Statements

    Python statements act on the connection and may raise: a state and
    exception monad.  A raised exception keeps the state reached so far. *)
Definition M (A : Type) : Type :=
  DuckDB.connection → outcome A * DuckDB.connection.

Definition ret {A} (a : A) : M A := λ db, (Return a, db).
Definition raise {A} (e : exn) : M A := λ db, (Raise e, db).
Definition diverge {A} : M A := λ db, (Diverge, db).
Definition lift {A} (o : outcome A) : M A := λ db, (o, db).

Definition bind {A B} (m : M A) (k : A → M B) : M B := λ db,
  match m db with
  | (Return a, db') => k a db'
  | (Raise e, db') => (Raise e, db')
  | (Diverge, db') => (Diverge, db')
  end.

(** [try: body except Exception as e: handler e] *)
Definition try_except {A} (body : M A) (handler : exn → M A) : M A := λ db,
  match body db with
  | (Raise e, db') => handler e db'
  | r => r
  end.

Declare Scope stmt_scope.
Delimit Scope stmt_scope with stmt.
Notation "x <- m ;; k" := (bind m (λ x, k))
  (at level 100, m at next level, right associativity) : stmt_scope.
Notation "m ;; k" := (bind m (λ _, k))
  (at level 100, right associativity) : stmt_scope.
Local Open Scope stmt_scope.

(** [for x in xs: body x] *)
Fixpoint for_each {A} (body : A → M unit) (xs : list A) : M unit :=
  match xs with
  | [] => ret tt
  | x :: xs' => body x ;; for_each body xs'
  end.

Section Engine.
Import DuckDB.

(** Failures of the engine that the rows themselves do not explain (disk,
    memory, an injected fault): consulted for every row inserted, with the
    rows visible so far. *)
Variable engine_fault : list vehicle → vehicle → option exn.

Inductive statement :=
  | CREATE_TABLE_SQL
  | BEGIN_TRANSACTION
  | COMMIT
  | ROLLBACK.

(** [db_connection.execute(stmt)].  The table of the model always exists,
    so [CREATE TABLE IF NOT EXISTS] changes nothing. *)
Definition execute (stmt : statement) : M unit := λ db,
  match stmt with
  | CREATE_TABLE_SQL => (Return tt, db)
  | BEGIN_TRANSACTION =>
      match transaction db with
      | None => (Return tt, mkConnection (committed db) (Some []))
      | Some _ => (Raise TransactionException, db)
      end
  | COMMIT =>
      match transaction db with
      | Some pending => (Return tt, mkConnection (committed db ++ pending) None)
      | None => (Raise TransactionException, db)
      end
  | ROLLBACK =>
      match transaction db with
      | Some _ => (Return tt, mkConnection (committed db) None)
      | None => (Raise TransactionException, db)
      end
  end.

(** [execute("SELECT COUNT( * ) FROM electric_vehicles;").fetchone()[0]] *)
Definition select_count : M Z := λ db,
  (Return (Z.of_nat (length (visible db))), db).

Definition insert_row (cols : list string) (params : list value) : M unit := λ db,
  match bind_row cols params with
  | Return v =>
      match engine_fault (visible db) v with
      | Some e => (Raise e, db)
      | None => (Return tt, add_row v db)
      end
  | Raise e => (Raise e, db)
  | Diverge => (Diverge, db)
  end.

(** [db_connection.executemany(insert_query, batch)]: the statement is run
    once per parameter list, in order; an empty batch is refused. *)
Definition executemany (cols : list string) (batch : list (list value)) : M unit :=
  match batch with
  | [] => raise InvalidInputException
  | _ => for_each (insert_row cols) batch
  end.

End Engine.

(** ** [ElectricVehicleDataLoader] *)
Module DataLoader.
Section Loader.
Import DuckDB.

Variable engine_fault : list vehicle → vehicle → option exn.

(** A loader that [__init__] has built: [_validate_csv_path] found a file
    at [csv_path], and [csv_text] is what opening that path reads. *)
Record ElectricVehicleDataLoader := mkLoader {
  csv_text : str;
  batch_size : Z;
}.

Definition CSV_TO_DB_COLUMNS : list (string * string) :=
  [ ("VIN (1-10)", "VIN");
    ("County", "County");
    ("City", "City");
    ("State", "State");
    ("Postal Code", "Postal_Code");
    ("Model Year", "Model_Year");
    ("Make", "Make");
    ("Model", "Model");
    ("Electric Vehicle Type", "Electric_Vehicle_Type");
    ("Clean Alternative Fuel Vehicle (CAFV) Eligibility", "CAFV_Eligibility");
    ("Electric Range", "Electric_Range");
    ("Base MSRP", "Base_MSRP");
    ("Legislative District", "Legislative_District");
    ("DOL Vehicle ID", "DOL_Vehicle_ID");
    ("Vehicle Location", "Vehicle_Location");
    ("Electric Utility", "Electric_Utility");
    ("2020 Census Tract", "Census_Tract") ].

(** [_validate_csv_path], over the files present when the loader is
    built. *)
Definition _validate_csv_path (files : gmap string str) (csv_path : string)
  : outcome unit :=
  match files !! csv_path with
  | Some _ => Return tt
  | None => Raise FileNotFoundError
  end.

(** [__init__] *)
Definition init (files : gmap string str) (csv_path : string) (batch_size : Z)
  : outcome ElectricVehicleDataLoader :=
  _ ← _validate_csv_path files csv_path;
  match files !! csv_path with
  | Some text => Return (mkLoader text batch_size)
  | None => Raise FileNotFoundError
  end.

Definition create_table : M unit := execute CREATE_TABLE_SQL.

Definition converters : gmap string (str → option Z) :=
  list_to_map
    [ ("Model_Year", Py.int);
      ("Electric_Range", Py.int);
      ("Base_MSRP", Py.int);
      ("DOL_Vehicle_ID", Py.int) ].

(** [if not val] holds for [None] and for the empty string; the
    [try ... except (ValueError, TypeError)] turns a failed [int()] into
    [None]. *)
Definition _convert_value (col : string) (val : option str) : value :=
  match val with
  | None | Some [] => VNone
  | Some s =>
      match converters !! col with
      | Some converter =>
          match converter s with
          | Some z => VInt z
          | None => VNone
          end
      | None => VStr s
      end
  end.

(** [[self._convert_value(self.CSV_TO_DB_COLUMNS[csv_col], row.get(csv_col))
      for csv_col in self.CSV_TO_DB_COLUMNS]] *)
Definition convert_row (row : gmap str (option str)) : list value :=
  (λ '(csv_col, db_col), _convert_value db_col (Csv.get row (lit csv_col)))
    <$> CSV_TO_DB_COLUMNS.

Definition db_columns : list string := CSV_TO_DB_COLUMNS.*2.

(** The [while True] loop of [load_data]; [fuel] bounds the number of
    turns.  ([rows_processed] only feeds the log and is left out.) *)
Fixpoint load_batches (fuel : nat) (self : ElectricVehicleDataLoader)
    (reader : iterator (gmap str (option str))) : M unit :=
  match fuel with
  | O => diverge
  | S fuel' =>
      sliced <- lift (islice reader (batch_size self)) ;;
      let batch := convert_row <$> sliced.1 in
      match batch with
      | [] => ret tt
      | _ =>
          executemany engine_fault db_columns batch ;;
          load_batches fuel' self sliced.2
      end
  end.

(** The body of the [try] in [load_data], up to the [COMMIT]. *)
Definition insert_batches (self : ElectricVehicleDataLoader) : M unit :=
  let reader := Csv.DictReader (TextFile.readlines_untranslated (csv_text self)) in
  load_batches (S (length (items reader))) self reader.

Definition load_data (self : ElectricVehicleDataLoader) : M unit :=
  execute BEGIN_TRANSACTION ;;
  try_except
    (insert_batches self ;; execute COMMIT)
    (λ e, execute ROLLBACK ;; raise e).

Definition validate_data_load (self : ElectricVehicleDataLoader) : M unit :=
  let csv_row_count := Z.of_nat (length (TextFile.readlines (csv_text self))) - 1 in
  db_row_count <- select_count ;;
  if decide (db_row_count ≠ csv_row_count)
  then raise (AssertionError csv_row_count db_row_count)
  else ret tt.

Definition run (self : ElectricVehicleDataLoader) : M unit :=
  create_table ;;
  load_data self ;;
  validate_data_load self.

End Loader.
End DataLoader.

(** ** Query results and report files *)

(** A pandas [DataFrame]: column names and rows of cells. *)
Record DataFrame := mkDataFrame {
  columns : list string;
  data : list (list value);
}.

#[global] Instance DataFrame_eq_dec : EqDecision DataFrame.
Proof. solve_decision. Defined.

Definition of_str (o : option str) : value :=
  match o with Some s => VStr s | None => VNone end.
Definition of_int (o : option Z) : value :=
  match o with Some z => VInt z | None => VNone end.
Definition of_count (n : nat) : value := VInt (Z.of_nat n).

(** The output tree: paths are lists of components. *)
Record filesystem := mkFilesystem {
  dirs : gset (list string);
  files : gmap (list string) DataFrame;
}.

(** [Path.mkdir(parents=True, exist_ok=True)] *)
Definition mkdir (path : list string) (fs : filesystem) : filesystem :=
  mkFilesystem
    (dirs fs ∪ list_to_set ((λ n, take (S n) path) <$> seq 0 (length path)))
    (files fs).

(** [df.to_parquet(path, index=False)]: the file at [path] is created or
    overwritten.  Every call below writes into a directory made just
    before. *)
Definition to_parquet (df : DataFrame) (path : list string) (fs : filesystem)
  : filesystem :=
  mkFilesystem (dirs fs) (<[path := df]> (files fs)).

(** ** SQL, as far as the four queries go

    The engine leaves the order of groups, and of rows with equal sort keys,
    open; the model fixes one such order. *)
Module Sql.

(** [SELECT key, COUNT( * ) ... GROUP BY key]: one row per distinct key,
    [NULL] being a key like any other. *)
Definition count_by {A K} `{EqDecision K} (key : A → K) (k : K) (rows : list A)
  : nat :=
  length (filter (λ r, key r = k) rows).

Definition group_count {A K} `{EqDecision K} (key : A → K) (rows : list A)
  : list (K * nat) :=
  (λ k, (k, count_by key k rows)) <$> remove_dups (key <$> rows).

(** [ORDER BY f DESC] *)
Definition desc {A} (f : A → nat) : relation A := λ a b, (f b ≤ f a)%nat.

#[global] Instance desc_dec {A} (f : A → nat) : RelDecision (desc f).
Proof. intros a b. unfold desc. apply _. Defined.

Definition order_by_desc {A} (f : A → nat) (rows : list A) : list A :=
  merge_sort (desc f) rows.

(** [ROW_NUMBER() OVER (PARTITION BY partition ORDER BY f DESC)]: every
    row with its rank inside its partition, counted from 1. *)
Definition row_number_over {A P} `{EqDecision P}
    (partition : A → P) (f : A → nat) (rows : list A) : list (A * nat) :=
  p ← remove_dups (partition <$> rows);
  imap (λ i a, (a, S i)) (order_by_desc f (filter (λ a, partition a = p) rows)).

(** [QUALIFY ROW_NUMBER() OVER (...) = 1] *)
Definition qualify_row_number_1 {A P} `{EqDecision P}
    (partition : A → P) (f : A → nat) (rows : list A) : list A :=
  fst <$> filter (λ x, x.2 = 1%nat) (row_number_over partition f rows).

End Sql.

(** [df.groupby('Model_Year')], iterated: the groups in ascending order of
    the key, rows with a missing key dropped ([dropna=True]). *)
Definition groupby_Model_Year (df : list (option Z * nat))
  : list (Z * list (option Z * nat)) :=
  (λ year, (year, filter (λ row, row.1 = Some year) df))
    <$> merge_sort Z.le (remove_dups (omap fst df)).

(** ** [ElectricVehicleAnalytics] *)
Module Analytics.
Import DuckDB Sql.

Record ElectricVehicleAnalytics := mkAnalytics {
  output_dir : list string;
}.

(** [__init__] makes the output directory. *)
Definition init (output_dir : list string) (fs : filesystem)
  : ElectricVehicleAnalytics * filesystem :=
  (mkAnalytics output_dir, mkdir output_dir fs).

Definition count_cars_per_city (db : connection) : list (option str * nat) :=
  order_by_desc snd (group_count City (visible db)).

Definition top_3_most_popular_vehicles (db : connection)
  : list (option str * option str * nat) :=
  take 3 (order_by_desc snd (group_count (λ r, (Make r, Model r)) (visible db))).

Definition most_popular_vehicle_by_postal_code (db : connection)
  : list (option str * option str * option str * nat) :=
  qualify_row_number_1 (λ g, g.1.1.1) snd
    (group_count (λ r, (Postal_Code r, Make r, Model r)) (visible db)).

Definition count_cars_by_model_year (db : connection) : list (option Z * nat) :=
  order_by_desc snd (group_count Model_Year (visible db)).

(** [fetchdf()] for each result shape. *)
Definition df_city (rows : list (option str * nat)) : DataFrame :=
  mkDataFrame ["City"; "num_electric_cars"]
    ((λ '(city, n), [of_str city; of_count n]) <$> rows).

Definition df_vehicles (rows : list (option str * option str * nat)) : DataFrame :=
  mkDataFrame ["Make"; "Model"; "popularity"]
    ((λ '(make, model, n), [of_str make; of_str model; of_count n]) <$> rows).

Definition df_postal (rows : list (option str * option str * option str * nat))
  : DataFrame :=
  mkDataFrame ["Postal_Code"; "Make"; "Model"; "popularity"]
    ((λ '(postal, make, model, n),
        [of_str postal; of_str make; of_str model; of_count n]) <$> rows).

Definition df_model_year (rows : list (option Z * nat)) : DataFrame :=
  mkDataFrame ["Model_Year"; "num_cars"]
    ((λ '(year, n), [of_int year; of_count n]) <$> rows).

Definition year_dir (self : ElectricVehicleAnalytics) (year : Z) : list string :=
  output_dir self ++ ["model_year=" +:+ pretty year].

Definition year_file (self : ElectricVehicleAnalytics) (year : Z) : list string :=
  year_dir self year ++ ["electric_cars_" +:+ pretty year +:+ ".parquet"].

(** The body of the [for year, year_df in ...groupby('Model_Year')] loop. *)
Definition write_year (self : ElectricVehicleAnalytics) (fs : filesystem)
    (group : Z * list (option Z * nat)) : filesystem :=
  let '(year, year_df) := group in
  to_parquet (df_model_year year_df) (year_file self year)
    (mkdir (year_dir self year) fs).

Definition run (self : ElectricVehicleAnalytics) (db : connection)
    (fs : filesystem) : filesystem :=
  let df_city_counts := count_cars_per_city db in
  let fs := to_parquet (df_city df_city_counts)
              (output_dir self ++ ["electric_cars_per_city.parquet"]) fs in
  let df_top_vehicles := top_3_most_popular_vehicles db in
  let fs := to_parquet (df_vehicles df_top_vehicles)
              (output_dir self ++ ["top_3_most_popular_vehicles.parquet"]) fs in
  let df_popular_by_postal := most_popular_vehicle_by_postal_code db in
  let fs := to_parquet (df_postal df_popular_by_postal)
              (output_dir self ++ ["popular_vehicle_by_postal_code.parquet"]) fs in
  let df_cars_by_model_year := count_cars_by_model_year db in
  foldl (write_year self) fs (groupby_Model_Year df_cars_by_model_year).

End Analytics.

(** ** Vocabulary of the properties *)

Import DuckDB.

(** The data records of a CSV text: what [csv.DictReader] yields after the
    header. *)
Definition csv_records (text : str) : list (gmap str (option str)) :=
  items (Csv.DictReader (TextFile.readlines_untranslated text)).

(** The number of physical lines of a CSV text. *)
Definition csv_lines (text : str) : nat :=
  length (TextFile.readlines text).

Definition row_count (db : connection) : nat := length (visible db).

(** A text cell as the loader stores it: a missing or blank source value is
    [NULL], any other value is kept as it is. *)
Definition text (row : gmap str (option str)) (csv_col : string)
  : option str :=
  match Csv.get row (lit csv_col) with
  | Some s => if decide (s = []) then None else Some s
  | None => None
  end.

(** A text cell kept verbatim, blank or not. *)
Definition verbatim (row : gmap str (option str)) (csv_col : string)
  : option str :=
  Csv.get row (lit csv_col).

(** An integer cell: [NULL] when the source value is missing, blank or not
    a number, the parsed integer otherwise. *)
Definition number (row : gmap str (option str)) (csv_col : string)
  : option Z :=
  Csv.get row (lit csv_col) ≫= Py.int.

(** The table row expected for a CSV record, given how text cells are
    kept. *)
Definition stored_row_with
    (text : gmap str (option str) → string → option str)
    (row : gmap str (option str)) : vehicle :=
  {| VIN := text row "VIN (1-10)";
     County := text row "County";
     City := text row "City";
     State := text row "State";
     Postal_Code := text row "Postal Code";
     Model_Year := number row "Model Year";
     Make := text row "Make";
     Model := text row "Model";
     Electric_Vehicle_Type := text row "Electric Vehicle Type";
     CAFV_Eligibility := text row "Clean Alternative Fuel Vehicle (CAFV) Eligibility";
     Electric_Range := number row "Electric Range";
     Base_MSRP := number row "Base MSRP";
     Legislative_District := text row "Legislative District";
     DOL_Vehicle_ID := number row "DOL Vehicle ID";
     Vehicle_Location := text row "Vehicle Location";
     Electric_Utility := text row "Electric Utility";
     Census_Tract := text row "2020 Census Tract" |}.

Definition stored_row : gmap str (option str) → vehicle :=
  stored_row_with text.

Definition numeric_columns : list string :=
  ["Model_Year"; "Electric_Range"; "Base_MSRP"; "DOL_Vehicle_ID"].

Definition in_range (bits : Z) (x : option Z) : bool :=
  match x with
  | Some z => (- 2 ^ (bits - 1) <=? z) && (z <? 2 ^ (bits - 1))
  | None => true
  end.

(** A record of the CSV text runs over more than one physical line: some
    line ends inside a quoted field and is not the last one, so the line
    break belongs to the field. *)
Fixpoint embedded_newline_from (r : Csv.Reader) (lines : list str) : bool :=
  match lines with
  | [] => false
  | line :: lines' =>
      match Csv.parse_line r line with
      | Return r' =>
          if decide (Csv.state r' = Csv.START_RECORD)
          then embedded_newline_from Csv.parse_reset lines'
          else bool_decide (lines' ≠ []) || embedded_newline_from r' lines'
      | _ => false
      end
  end.

Definition embedded_newline (text : str) : bool :=
  embedded_newline_from Csv.parse_reset (TextFile.readlines_untranslated text).

(** Directory listings of the output tree. *)
Definition is_child (parent path : list string) : Prop :=
  length path = S (length parent) ∧ take (length parent) path = parent.

#[global] Instance is_child_dec parent path : Decision (is_child parent path).
Proof. unfold is_child. apply _. Defined.

Definition subdirectories (parent : list string) (fs : filesystem) : gset (list string) :=
  filter (is_child parent) (dirs fs).

Definition files_in (parent : list string) (fs : filesystem) : gset (list string) :=
  filter (is_child parent) (dom (files fs)).

(** The reporter built and run, as [main] does, over the tree [fs]. *)
Definition report_on (fs : filesystem) (output_dir : list string) (db : connection)
  : filesystem :=
  let '(self, fs') := Analytics.init output_dir fs in
  Analytics.run self db fs'.

(** The same over an empty tree: what the reporter itself produces. *)
Definition report (output_dir : list string) (db : connection) : filesystem :=
  report_on (mkFilesystem ∅ ∅) output_dir db.

(** The model years present in the table ([NULL] is not one). *)
Definition model_years (db : connection) : gset Z :=
  list_to_set (omap Model_Year (visible db)).

(** ** Sample inputs *)

Definition no_fault : list vehicle → vehicle → option exn := λ _ _, None.

Definition empty_db : connection := mkConnection [] None.

(** An engine that fails on the second row it is given. *)
Definition fault_on_second_row : list vehicle → vehicle → option exn :=
  λ rows _, if (length rows =? 1)%nat then Some (EngineFault 1) else None.

(** The fixture of [test_electric_vehicle_data_loader.py]. *)
Definition sample_csv : str := lit
"VIN (1-10),County,City,State,Postal Code,Model Year,Make,Model,Electric Vehicle Type,Clean Alternative Fuel Vehicle (CAFV) Eligibility,Electric Range,Base MSRP,Legislative District,DOL Vehicle ID,Vehicle Location,Electric Utility,2020 Census Tract
5YJ3E1EB4L,Yakima,Yakima,WA,98908,2020,TESLA,MODEL 3,Battery Electric Vehicle (BEV),Clean Alternative Fuel Vehicle Eligible,322,0,14,127175366,POINT (-120.56916 46.58514),PACIFICORP,53077000904
5YJ3E1EA7K,San Diego,San Diego,CA,92101,2019,TESLA,MODEL 3,Battery Electric Vehicle (BEV),Clean Alternative Fuel Vehicle Eligible,220,0,,266614659,POINT (-117.16171 32.71568),,06073005102
7JRBR0FL9M,Lane,Eugene,OR,97404,2021,VOLVO,S60,Plug-in Hybrid Electric Vehicle (PHEV),Not eligible due to low battery range,22,0,,144502018,POINT (-123.12802 44.09573),,41039002401
".

Definition sample_loader : DataLoader.ElectricVehicleDataLoader :=
  DataLoader.mkLoader sample_csv 5000.

(** The table after one run of the loader on the fixture, and after a
    second one. *)
Definition loaded_db : connection := Eval vm_compute in
  (DataLoader.load_data no_fault sample_loader empty_db).2.

Definition reloaded_db : connection := Eval vm_compute in
  (DataLoader.load_data no_fault sample_loader loaded_db).2.

(** A file whose second record has a model year too large for an
    [INTEGER] column. *)
Definition overflow_csv : str := lit
"VIN (1-10),Model Year
A,2020
B,99999999999
C,2021
".

(** A file whose only record has a quoted field running over two lines. *)
Definition multiline_csv : str :=
  lit "VIN (1-10),City
A," ++ [Csv.quotechar] ++ lit "Port
Angeles" ++ [Csv.quotechar] ++ lit "
".

(** A file that ends inside a quoted field: the line break is the last
    character of the field and of the file. *)
Definition open_quote_csv : str :=
  lit "VIN (1-10),City
A," ++ [Csv.quotechar] ++ lit "Port
".

Definition multiline_db : connection := Eval vm_compute in
  (DataLoader.load_data no_fault (DataLoader.mkLoader multiline_csv 5000) empty_db).2.

(** A table with one model year missing. *)
Definition null_year_db : connection :=
  mkConnection
    [ stored_row {[ lit "VIN (1-10)" := Some (lit "A"); lit "Model Year" := Some (lit "2020") ]};
      stored_row {[ lit "VIN (1-10)" := Some (lit "B"); lit "Model Year" := None ]};
      stored_row {[ lit "VIN (1-10)" := Some (lit "C"); lit "Model Year" := Some (lit "2021") ]} ]
    None.

(** ** Vocabulary of the further properties *)

(** The numeric cells of a record fit their columns: three [INTEGER]s and
    one [BIGINT]. *)
Definition fits (d : gmap str (option str)) : bool :=
  in_range 32 (number d "Model Year") && in_range 32 (number d "Electric Range")
  && in_range 32 (number d "Base MSRP") && in_range 64 (number d "DOL Vehicle ID").

(** The exception, if any, that ends the reading of a CSV text. *)
Definition csv_error (text : str) : option exn :=
  failure (Csv.DictReader (TextFile.readlines_untranslated text)).

(** The connection once the records of [text] are appended to the table. *)
Definition loaded (text : str) (db : connection) : connection :=
  mkConnection (committed db ++ (stored_row <$> csv_records text)) None.

(** The lines of a CSV text that end inside a quoted field and are
    followed by another line: the line break belongs to the field, and the
    record goes on with the next line. *)
Fixpoint continued_lines_from (r : Csv.Reader) (lines : list str) : nat :=
  match lines with
  | [] => 0
  | line :: lines' =>
      match Csv.parse_line r line with
      | Return r' =>
          if decide (Csv.state r' = Csv.START_RECORD)
          then continued_lines_from Csv.parse_reset lines'
          else ((if bool_decide (lines' ≠ []) then 1 else 0)
                + continued_lines_from r' lines')%nat
      | _ => 0%nat
      end
  end.

Definition continued_lines (text : str) : nat :=
  continued_lines_from Csv.parse_reset (TextFile.readlines_untranslated text).

(** The blank lines after the header line: the empty records that
    [csv.DictReader] skips. *)
Definition blank_lines (text : str) : nat :=
  length (filter (λ row, row = [])
            (tail (items (Csv.reader (TextFile.readlines_untranslated text))))).

(** ** [main.py] *)
Module Main.
Section Main.

(** Failures of the engine, as for the loader. *)
Variable engine_fault : list vehicle → vehicle → option exn.

(** Failures of the reporter: the output directory cannot be made, or a
    query or a write of [analytics.run()] raises.  Given the connection and
    the tree the reporter starts from, the exception and the tree that the
    failed run leaves; [None] when the reporter runs through. *)
Variable report_fault : connection → filesystem → option (exn * filesystem).

(** [os.path.dirname(__file__)]: the directory of [main.py]. *)
Variable script_dir : list string.

(** What [main] works on: the files it can read, by path; the rows
    committed in the database file [db/electric_vehicles.duckdb]; and the
    directories and report files. *)
Record world := mkWorld {
  inputs : gmap string str;
  database : list vehicle;
  tree : filesystem;
}.

Definition csv_path : string := "data/Electric_Vehicle_Population_Data.csv".

(** [main].  The connection that [duckdb.connect] opens sees the rows
    committed in the database file and has no transaction open; it is
    taken to open without error.  An exception of the loader or of the
    reporter ends [main] there: nothing catches it.  What an exception
    leaves in the database file is what was committed;
    [db_connection.close()] changes nothing there. *)
Definition main (w : world) : outcome unit * world :=
  let tree1 := mkdir (script_dir ++ ["db"]) (tree w) in
  let db_connection := mkConnection (database w) None in
  match DataLoader.init (inputs w) csv_path 5000 with
  | Return data_loader =>
      match DataLoader.run engine_fault data_loader db_connection with
      | (Return _, db) =>
          match report_fault db tree1 with
          | Some (e, tree') => (Raise e, mkWorld (inputs w) (committed db) tree')
          | None =>
              let '(analytics, tree2) :=
                Analytics.init ["analytics_output"] tree1 in
              (Return tt,
               mkWorld (inputs w) (committed db)
                 (Analytics.run analytics db tree2))
          end
      | (Raise e, db) => (Raise e, mkWorld (inputs w) (committed db) tree1)
      | (Diverge, db) => (Diverge, mkWorld (inputs w) (committed db) tree1)
      end
  | Raise e => (Raise e, mkWorld (inputs w) (database w) tree1)
  | Diverge => (Diverge, mkWorld (inputs w) (database w) tree1)
  end.

End Main.
End Main.

(** ** Further sample inputs *)

(** A reporter that never fails. *)
Definition no_report_fault : connection → filesystem → option (exn * filesystem) :=
  λ _ _, None.

(** A reporter that fails at its first report, with the output directory
    made. *)
Definition report_fault_at_start
  : connection → filesystem → option (exn * filesystem) :=
  λ _ fs, Some (OSError, mkdir ["analytics_output"] fs).

(** A connection on which the caller has left a transaction open. *)
Definition busy_db : connection := mkConnection [] (Some []).

(** A file with two of the columns, in another order than the table has
    them, and a blank line. *)
Definition swapped_csv : str := lit
"City,VIN (1-10)
Kent,A

Yelm,B
".

(** [main]'s input file holding the fixture, an empty database and an
    empty tree. *)
Definition sample_world : Main.world :=
  Main.mkWorld {[ Main.csv_path := sample_csv ]} [] (mkFilesystem ∅ ∅).

(** What a first [main] leaves of it, run from the directory [app]. *)
Definition sample_world_1 : Main.world :=
  (Main.main no_fault no_report_fault ["app"] sample_world).2.

(** * Properties *)

Local Open Scope stmt_scope.

(** ** [int()] and [_convert_value] on the cases of the unit tests *)

Example int_2021 : Py.int (lit "2021") = Some 2021.
Proof. reflexivity. Qed.

Example int_blank : Py.int (lit " ") = None.
Proof. reflexivity. Qed.

Example int_invalid : Py.int (lit "invalid") = None.
Proof. reflexivity. Qed.

Example int_padded : Py.int (lit " -1_000 ") = Some (-1000).
Proof. reflexivity. Qed.

Example int_float : Py.int (lit "12.5") = None.
Proof. reflexivity. Qed.

(** [int()] also takes the white space and the decimal digits of Unicode:
    a no-break space before the number, a next-line character after it,
    full-width digits.  A superscript two is a digit, but not a decimal
    one. *)
Example int_no_break_space : Py.int ([0xA0]%N ++ lit "2020") = Some 2020.
Proof. reflexivity. Qed.

Example int_next_line : Py.int (lit " 2020" ++ [0x85]%N) = Some 2020.
Proof. reflexivity. Qed.

Example int_fullwidth : Py.int [0xFF12; 0xFF10; 0xFF12; 0xFF10]%N = Some 2020.
Proof. reflexivity. Qed.

Example int_superscript : Py.int [0xB2]%N = None.
Proof. reflexivity. Qed.

Example convert_value_tests :
  DataLoader._convert_value "Model_Year" (Some (lit "2021")) = VInt 2021 ∧
  DataLoader._convert_value "Electric_Range" (Some (lit "300")) = VInt 300 ∧
  DataLoader._convert_value "Base_MSRP" (Some (lit "79999")) = VInt 79999 ∧
  DataLoader._convert_value "DOL_Vehicle_ID" (Some (lit "123456789")) = VInt 123456789 ∧
  DataLoader._convert_value "Model_Year" (Some (lit "invalid")) = VNone ∧
  DataLoader._convert_value "Make" (Some (lit "Tesla")) = VStr (lit "Tesla").
Proof. repeat split; reflexivity. Qed.

(** ** Statements *)

Lemma bind_unfold {A B} (m : M A) (k : A → M B) db :
  (x <- m ;; k x) db =
  match m db with
  | (Return a, db') => k a db'
  | (Raise e, db') => (Raise e, db')
  | (Diverge, db') => (Diverge, db')
  end.
Proof. reflexivity. Qed.

Lemma bind_ret_tt (m : M unit) db : (m ;; ret tt) db = m db.
Proof. rewrite bind_unfold. by destruct (m db) as [[[]| |] ?]. Qed.

Lemma for_each_app {A} (body : A → M unit) l1 l2 db :
  for_each body (l1 ++ l2) db = (for_each body l1 ;; for_each body l2) db.
Proof.
  revert db. induction l1 as [|x l1 IH]; intros db; simpl.
  - reflexivity.
  - rewrite !bind_unfold. destruct (body x db) as [[[]| |] db1]; try reflexivity.
    rewrite IH. reflexivity.
Qed.

(** ** Binding parameters to columns *)

Lemma set_column_total col v r : set_column col v r ≠ Diverge.
Proof.
  unfold set_column.
  repeat (case_match;
          [ destruct v; simpl; unfold cast_integer, cast_bigint, cast_int;
            simpl; try done; by case_match | ]).
  done.
Qed.

Lemma bind_columns_total cols params r : bind_columns cols params r ≠ Diverge.
Proof.
  revert params r. induction cols as [|c cols IH]; intros [|v params] r; try done.
  cbn [bind_columns]. pose proof (set_column_total c v r).
  destruct (set_column c v r); try done. apply IH.
Qed.

Lemma bind_columns_cons col cols v params r :
  bind_columns (col :: cols) (v :: params) r =
  set_column col v r ≫= bind_columns cols params.
Proof. reflexivity. Qed.

Lemma cast_varchar_of_str x : cast_varchar (of_str x) = Return x.
Proof. by destruct x. Qed.

Lemma cast_int_of_int bits x :
  cast_int bits (of_int x) =
  if in_range bits x then Return x else Raise ConversionException.
Proof. destruct x; simpl; [|done]. by case_match. Qed.

Ltac bind_text_column :=
  rewrite bind_columns_cons; unfold set_column;
  cbn [String.eqb Ascii.eqb Bool.eqb];
  rewrite cast_varchar_of_str;
  cbn [mbind outcome_bind VIN County City State Postal_Code Model_Year Make
       Model Electric_Vehicle_Type CAFV_Eligibility Electric_Range Base_MSRP
       Legislative_District DOL_Vehicle_ID Vehicle_Location Electric_Utility
       Census_Tract null_row].

Ltac bind_int_column :=
  rewrite bind_columns_cons; unfold set_column;
  cbn [String.eqb Ascii.eqb Bool.eqb];
  unfold cast_integer, cast_bigint; rewrite cast_int_of_int;
  match goal with
  | |- context [in_range ?b ?y] => destruct (in_range b y); [|discriminate]
  end;
  cbn [mbind outcome_bind VIN County City State Postal_Code Model_Year Make
       Model Electric_Vehicle_Type CAFV_Eligibility Electric_Range Base_MSRP
       Legislative_District DOL_Vehicle_ID Vehicle_Location Electric_Utility
       Census_Tract null_row].

(** When the seventeen parameters of the insert are bound without error,
    the row holds them column by column. *)
Lemma bind_row_values x1 x2 x3 x4 x5 y6 x7 x8 x9 x10 y11 y12 x13 y14 x15 x16 x17 v :
  bind_row DataLoader.db_columns
    [ of_str x1; of_str x2; of_str x3; of_str x4; of_str x5; of_int y6; of_str x7;
      of_str x8; of_str x9; of_str x10; of_int y11; of_int y12; of_str x13;
      of_int y14; of_str x15; of_str x16; of_str x17 ] = Return v →
  v = mkVehicle x1 x2 x3 x4 x5 y6 x7 x8 x9 x10 y11 y12 x13 y14 x15 x16 x17.
Proof.
  unfold bind_row, DataLoader.db_columns, DataLoader.CSV_TO_DB_COLUMNS.
  cbn [fmap list_fmap snd].
  do 5 bind_text_column. bind_int_column. do 4 bind_text_column.
  do 2 bind_int_column. bind_text_column. bind_int_column. do 3 bind_text_column.
  cbn. by intros [= <-].
Qed.

(** ** [_convert_value] *)

Lemma converters_lookup col :
  DataLoader.converters !! col =
  if bool_decide (col ∈ numeric_columns) then Some Py.int else None.
Proof.
  unfold DataLoader.converters, numeric_columns.
  cbn [list_to_map foldr curry fst snd].
  rewrite !lookup_insert, lookup_empty.
  case_bool_decide as Hin.
  - rewrite !elem_of_cons, elem_of_nil in Hin.
    destruct Hin as [->|[->|[->|[->|[]]]]]; by repeat case_decide.
  - repeat case_decide; try done; subst; destruct Hin;
      rewrite !elem_of_cons; tauto.
Qed.

Lemma convert_value_text col val :
  DataLoader.converters !! col = None →
  DataLoader._convert_value col val =
  of_str (match val with
          | Some s => if decide (s = []) then None else Some s
          | None => None
          end).
Proof.
  intros Hc. unfold DataLoader._convert_value. destruct val as [[|c s]|]; try done.
  by rewrite Hc.
Qed.

Lemma convert_value_number col val :
  DataLoader.converters !! col = Some Py.int →
  DataLoader._convert_value col val = of_int (val ≫= Py.int).
Proof.
  intros Hc. unfold DataLoader._convert_value. destruct val as [[|c s]|]; try done.
  rewrite Hc. simpl. by destruct (Py.int _).
Qed.

Lemma convert_row_eq d :
  DataLoader.convert_row d =
  [ of_str (text d "VIN (1-10)"); of_str (text d "County"); of_str (text d "City");
    of_str (text d "State"); of_str (text d "Postal Code");
    of_int (number d "Model Year");
    of_str (text d "Make"); of_str (text d "Model");
    of_str (text d "Electric Vehicle Type");
    of_str (text d "Clean Alternative Fuel Vehicle (CAFV) Eligibility");
    of_int (number d "Electric Range"); of_int (number d "Base MSRP");
    of_str (text d "Legislative District");
    of_int (number d "DOL Vehicle ID");
    of_str (text d "Vehicle Location"); of_str (text d "Electric Utility");
    of_str (text d "2020 Census Tract") ].
Proof.
  unfold DataLoader.convert_row, DataLoader.CSV_TO_DB_COLUMNS. cbn [fmap list_fmap].
  unfold text, number.
  repeat (apply (f_equal2 cons);
          [ first [ apply convert_value_text; rewrite converters_lookup; reflexivity
                  | apply convert_value_number; rewrite converters_lookup; reflexivity ] | ]).
  reflexivity.
Qed.

Lemma bind_convert_row d v :
  bind_row DataLoader.db_columns (DataLoader.convert_row d) = Return v →
  v = stored_row d.
Proof. rewrite convert_row_eq. apply bind_row_values. Qed.

(** ** The loader inside a transaction *)

Section LoaderFacts.
Import DataLoader.
Context (ef : list vehicle → vehicle → option exn).

(** Inside a transaction an insert touches only the pending rows. *)
Lemma insert_row_pending cols params db pending o db' :
  transaction db = Some pending →
  insert_row ef cols params db = (o, db') →
  committed db' = committed db ∧
  ((∃ v, o = Return tt ∧ bind_row cols params = Return v ∧
         transaction db' = Some (pending ++ [v])) ∨
   (∃ e, o = Raise e ∧ db' = db)).
Proof.
  intros Ht. unfold insert_row.
  pose proof (bind_columns_total cols params null_row) as Hd.
  unfold bind_row. destruct (bind_columns cols params null_row) as [v|e|]; [| |done].
  - destruct (ef _ v) as [e|]; intros [= <- <-].
    + split; [done|]. right. eauto.
    + unfold add_row. rewrite Ht. simpl. split; [done|]. left. eauto.
  - intros [= <- <-]. split; [done|]. right; eauto.
Qed.

Lemma for_each_insert cols batch db pending o db' :
  transaction db = Some pending →
  for_each (insert_row ef cols) batch db = (o, db') →
  committed db' = committed db ∧
  ((∃ vs, o = Return tt ∧ Forall2 (λ p v, bind_row cols p = Return v) batch vs ∧
          transaction db' = Some (pending ++ vs)) ∨
   (∃ e pending', o = Raise e ∧ transaction db' = Some pending')).
Proof.
  revert db pending. induction batch as [|p batch IH]; intros db pending Ht; simpl.
  - intros [= <- <-]. split; [done|]. left. exists [].
    rewrite app_nil_r. by repeat split.
  - rewrite bind_unfold. destruct (insert_row ef cols p db) as [o1 db1] eqn:E1.
    destruct (insert_row_pending _ _ _ _ _ _ Ht E1)
      as [Hc [(v & -> & Hv & Ht1)|(e & -> & ->)]].
    + intros E2.
      destruct (IH _ _ Ht1 E2) as [Hc2 [(vs & -> & Hvs & Ht2)|(e & p' & -> & Ht2)]].
      * split; [congruence|]. left. exists (v :: vs).
        rewrite <- app_assoc in Ht2. by repeat split; [constructor|].
      * split; [congruence|]. right. eauto.
    + intros [= <- <-]. split; [done|]. right. eauto.
Qed.

Lemma executemany_cons cols p batch :
  executemany ef cols (p :: batch) = for_each (insert_row ef cols) (p :: batch).
Proof. reflexivity. Qed.

Lemma islice_in_range {A} (it : iterator A) (b : Z) :
  0 ≤ b ≤ maxsize →
  islice it b =
  if (Z.to_nat b <=? length (items it))%nat
  then Return (take (Z.to_nat b) (items it),
               Iterator (drop (Z.to_nat b) (items it)) (failure it))
  else match failure it with
       | Some e => Raise e
       | None => Return (items it, Iterator [] None)
       end.
Proof.
  intros Hb. unfold islice.
  destruct (Z.ltb_spec b 0); [lia|].
  destruct (Z.ltb_spec maxsize b); [lia|]. reflexivity.
Qed.

Lemma islice_out_of_range {A} (it : iterator A) (b : Z) :
  b < 0 ∨ maxsize < b → islice it b = Raise ValueError.
Proof.
  intros Hb. unfold islice.
  destruct (Z.ltb_spec b 0); [done|].
  destruct (Z.ltb_spec maxsize b); [done|lia].
Qed.

Lemma islice_cases {A} (it : iterator A) (b : Z) :
  islice it b = Raise ValueError ∧ (b < 0 ∨ maxsize < b) ∨
  0 ≤ b ≤ maxsize ∧
  islice it b =
  if (Z.to_nat b <=? length (items it))%nat
  then Return (take (Z.to_nat b) (items it),
               Iterator (drop (Z.to_nat b) (items it)) (failure it))
  else match failure it with
       | Some e => Raise e
       | None => Return (items it, Iterator [] None)
       end.
Proof.
  destruct (decide (0 ≤ b ≤ maxsize)) as [Hb|Hb].
  - right. split; [done|]. by apply islice_in_range.
  - left. split; [apply islice_out_of_range|]; lia.
Qed.

Lemma islice_enough {A} (it : iterator A) (b : Z) :
  1 ≤ b ≤ maxsize → (Z.to_nat b ≤ length (items it))%nat →
  islice it b = Return (take (Z.to_nat b) (items it),
                        Iterator (drop (Z.to_nat b) (items it)) (failure it)) ∧
  take (Z.to_nat b) (items it) ≠ [].
Proof.
  intros Hb Hn. rewrite islice_in_range by lia.
  destruct (Nat.leb_spec (Z.to_nat b) (length (items it))); [|lia].
  split; [done|]. intros Hnil. apply (f_equal length) in Hnil.
  rewrite length_take in Hnil. simpl in Hnil. lia.
Qed.

Lemma islice_short {A} (it : iterator A) (b : Z) :
  1 ≤ b ≤ maxsize → (length (items it) < Z.to_nat b)%nat →
  islice it b = match failure it with
                | Some e => Raise e
                | None => Return (items it, Iterator [] None)
                end.
Proof.
  intros Hb Hn. rewrite islice_in_range by lia.
  destruct (Nat.leb_spec (Z.to_nat b) (length (items it))); [lia|done].
Qed.

(** With a reader that ends normally the loop inserts every row, batch
    after batch, whatever the batch size, and does not run out of turns. *)
Lemma load_batches_all fuel self it db :
  1 ≤ batch_size self ≤ maxsize → failure it = None → (length (items it) < fuel)%nat →
  load_batches ef fuel self it db =
  for_each (insert_row ef db_columns) (convert_row <$> items it) db.
Proof.
  intros Hb. revert it db.
  induction fuel as [|fuel IH]; intros it db Hf Hlen; [lia|].
  cbn [load_batches]. rewrite bind_unfold. unfold lift.
  destruct (Nat.le_gt_cases (Z.to_nat (batch_size self)) (length (items it))) as [Hn|Hn].
  - destruct (islice_enough it _ Hb Hn) as [-> Hne]. cbn [fst snd].
    pose proof (take_drop (Z.to_nat (batch_size self)) (items it)) as Htd.
    assert (length (drop (Z.to_nat (batch_size self)) (items it)) < fuel)%nat
      as Hdrop by (rewrite length_drop; lia).
    set (dr := drop _ _) in *.
    destruct (take _ (items it)) as [|d ds] eqn:Et; [done|].
    rewrite <- Htd, fmap_app, for_each_app.
    rewrite fmap_cons, executemany_cons.
    rewrite !bind_unfold.
    destruct (for_each _ _ db) as [[[]| |] db1]; try reflexivity.
    by apply IH.
  - rewrite (islice_short it _ Hb Hn), Hf. cbn [fst snd].
    destruct (items it) as [|d ds] eqn:Ei; [done|].
    rewrite fmap_cons, executemany_cons.
    destruct fuel as [|fuel]; [simpl in Hlen; lia|].
    rewrite <- (bind_ret_tt (for_each _ (_ :: _))).
    rewrite !bind_unfold.
    destruct (for_each _ _ db) as [[[]| |] db1]; try reflexivity.
    cbn [load_batches]. rewrite bind_unfold. unfold lift.
    rewrite islice_short by (simpl; lia). reflexivity.
Qed.

(** Inside a transaction the loop touches only the pending rows. *)
Lemma load_batches_pending fuel self it db pending o db' :
  transaction db = Some pending →
  load_batches ef fuel self it db = (o, db') →
  committed db' = committed db ∧ is_Some (transaction db').
Proof.
  revert it db pending. induction fuel as [|fuel IH]; intros it db pending Ht.
  - intros [= <- <-]. eauto.
  - cbn [load_batches]. rewrite bind_unfold. unfold lift.
    destruct (islice it (batch_size self)) as [[rows it']|e|];
      try (intros [= <- <-]; by eauto).
    cbn [fst snd]. destruct rows as [|d ds]; [intros [= <- <-]; by eauto|].
    rewrite fmap_cons, executemany_cons, bind_unfold.
    destruct (for_each _ _ db) as [o1 db1] eqn:E1.
    destruct (for_each_insert _ _ _ _ _ _ Ht E1)
      as [Hc [(vs & -> & _ & Ht1)|(e & p' & -> & Ht1)]].
    + intros E2. destruct (IH _ _ _ Ht1 E2) as [Hc2 ?]. split; [congruence|done].
    + intros [= <- <-]. eauto.
Qed.

(** A reader that ends in an exception makes the loop raise. *)
Lemma load_batches_failing fuel self it db pending e :
  1 ≤ batch_size self ≤ maxsize → failure it = Some e → (length (items it) < fuel)%nat →
  transaction db = Some pending →
  ∃ e' db', load_batches ef fuel self it db = (Raise e', db').
Proof.
  intros Hb. revert it db pending.
  induction fuel as [|fuel IH]; intros it db pending Hf Hlen Ht; [lia|].
  cbn [load_batches]. rewrite bind_unfold. unfold lift.
  destruct (Nat.le_gt_cases (Z.to_nat (batch_size self)) (length (items it))) as [Hn|Hn].
  - destruct (islice_enough it _ Hb Hn) as [-> Hne]. cbn [fst snd].
    destruct (take _ (items it)) as [|d ds] eqn:Et; [done|].
    rewrite fmap_cons, executemany_cons, bind_unfold.
    destruct (for_each _ _ db) as [o1 db1] eqn:E1.
    destruct (for_each_insert _ _ _ _ _ _ Ht E1)
      as [Hc [(vs & -> & _ & Ht1)|(e1 & p' & -> & Ht1)]].
    + eapply IH; [done| |done]. cbn [items]. rewrite length_drop. lia.
    + eauto.
  - rewrite (islice_short it _ Hb Hn), Hf. eauto.
Qed.

Lemma begin_ok db db0 :
  execute BEGIN_TRANSACTION db = (Return tt, db0) →
  transaction db = None ∧ db0 = mkConnection (committed db) (Some []).
Proof. simpl. destruct (transaction db); by intros [= <-]. Qed.

Lemma begin_fail db o db0 :
  execute BEGIN_TRANSACTION db = (o, db0) → o ≠ Return tt →
  o = Raise TransactionException ∧ db0 = db.
Proof. simpl. destruct (transaction db); intros [= <- <-]; done. Qed.

Lemma connection_eta db :
  transaction db = None → mkConnection (committed db) None = db.
Proof. destruct db as [c t]. simpl. by intros ->. Qed.

Lemma insert_batches_pending self db pending o db' :
  transaction db = Some pending →
  insert_batches ef self db = (o, db') →
  committed db' = committed db ∧ is_Some (transaction db').
Proof. apply load_batches_pending. Qed.

(** An exception in the body of the [try] undoes the transaction. *)
Lemma load_data_except self db db0 e db1 :
  execute BEGIN_TRANSACTION db = (Return tt, db0) →
  insert_batches ef self db0 = (Raise e, db1) →
  load_data ef self db = (Raise e, db).
Proof.
  intros Hb Hi. destruct (begin_ok _ _ Hb) as [Hnone ->].
  destruct (insert_batches_pending _ (mkConnection (committed db) (Some [])) []
              _ _ eq_refl Hi) as [Hc [p Hp]].
  unfold load_data. rewrite bind_unfold, Hb. unfold try_except.
  rewrite bind_unfold, Hi. rewrite bind_unfold. simpl. rewrite Hp. unfold raise.
  rewrite Hc. simpl. by rewrite connection_eta.
Qed.

(** With enough turns the loop returns or raises, whatever the batch
    size. *)
Lemma load_batches_terminates fuel self it db pending :
  (length (items it) < fuel)%nat → transaction db = Some pending →
  (load_batches ef fuel self it db).1 ≠ Diverge.
Proof.
  revert it db pending.
  induction fuel as [|fuel IH]; intros it db pending Hlen Ht; [lia|].
  cbn [load_batches]. rewrite bind_unfold. unfold lift.
  destruct (islice it (batch_size self)) as [[rows it']|e|] eqn:Es; [|done|].
  - cbn [fst snd]. destruct rows as [|d ds]; [done|].
    rewrite fmap_cons, executemany_cons, bind_unfold.
    destruct (for_each _ _ db) as [o1 db1] eqn:E1.
    destruct (for_each_insert _ _ _ _ _ _ Ht E1)
      as [Hc [(vs & -> & _ & Ht1)|(e1 & p' & -> & Ht1)]]; [|done].
    apply (IH _ _ (pending ++ vs)); [|done].
    destruct (islice_cases it (batch_size self)) as [[Hs _]|[_ Hs]];
      rewrite Hs in Es; [done|].
    destruct (Nat.leb_spec (Z.to_nat (batch_size self)) (length (items it)));
      [|destruct (failure it); [done|]]; injection Es as Hr <-; cbn [items].
    + apply (f_equal length) in Hr. rewrite length_take in Hr. simpl in Hr.
      rewrite length_drop. lia.
    + rewrite Hr in Hlen. simpl in *. lia.
  - destruct (islice_cases it (batch_size self)) as [[Hs _]|[_ Hs]];
      rewrite Hs in Es; [done|].
    destruct (Nat.leb_spec (Z.to_nat (batch_size self)) (length (items it)));
      [done|by destruct (failure it)].
Qed.

(** A batch size above [sys.maxsize] makes the first [islice] raise. *)
Lemma load_batches_too_large fuel self it db :
  maxsize < batch_size self →
  load_batches ef (S fuel) self it db = (Raise ValueError, db).
Proof.
  intros Hb. cbn [load_batches]. rewrite bind_unfold. unfold lift.
  rewrite islice_out_of_range by lia. reflexivity.
Qed.

Lemma load_data_too_large self db :
  maxsize < batch_size self → (load_data ef self db).1 ≠ Return tt.
Proof.
  intros Hb. unfold load_data. rewrite bind_unfold.
  destruct (execute BEGIN_TRANSACTION db) as [[[]|e|] db0] eqn:E0; [|done..].
  destruct (begin_ok _ _ E0) as [Hnone ->].
  unfold try_except. rewrite bind_unfold. unfold insert_batches.
  rewrite load_batches_too_large by done. rewrite bind_unfold. simpl. done.
Qed.

(** [load_data] returns or raises: the loop always ends. *)
Lemma load_data_terminates self db : (load_data ef self db).1 ≠ Diverge.
Proof.
  unfold load_data. rewrite bind_unfold.
  destruct (execute BEGIN_TRANSACTION db) as [o0 db0] eqn:E0.
  destruct (decide (o0 = Return tt)) as [->|Hne];
    [|by destruct (begin_fail _ _ _ E0 Hne) as [-> ->]].
  destruct (begin_ok _ _ E0) as [Hnone ->].
  unfold try_except. rewrite bind_unfold.
  destruct (insert_batches ef self _) as [o1 db1] eqn:E1.
  destruct (insert_batches_pending _ (mkConnection (committed db) (Some [])) []
              _ _ eq_refl E1) as [Hc [p Hp]].
  destruct o1 as [[]|e|].
  - simpl. by rewrite Hp.
  - rewrite bind_unfold. simpl. by rewrite Hp.
  - exfalso. unfold insert_batches in E1.
    eapply (load_batches_terminates _ self _ (mkConnection (committed db) (Some [])));
      [| |by rewrite E1]; [lia|done].
Qed.

(** What a load that returns has done. *)
Lemma load_data_success self db db' :
  1 ≤ batch_size self →
  load_data ef self db = (Return tt, db') →
  ∃ vs, transaction db = None ∧
        db' = mkConnection (committed db ++ vs) None ∧
        Forall2 (λ d v, bind_row db_columns (convert_row d) = Return v)
                (csv_records (csv_text self)) vs.
Proof.
  intros Hb.
  destruct (decide (batch_size self ≤ maxsize)) as [Hm|Hm]; last first.
  { intros Hl. destruct (load_data_too_large self db); [lia|by rewrite Hl]. }
  assert (1 ≤ batch_size self ≤ maxsize) as Hbm by done.
  unfold load_data. rewrite bind_unfold.
  destruct (execute BEGIN_TRANSACTION db) as [o0 db0] eqn:E0.
  destruct (decide (o0 = Return tt)) as [->|Hne];
    [|destruct (begin_fail _ _ _ E0 Hne) as [-> ->]; done].
  destruct (begin_ok _ _ E0) as [Hnone ->].
  unfold try_except. rewrite bind_unfold.
  destruct (insert_batches ef self _) as [o1 db1] eqn:E1.
  destruct (insert_batches_pending _ (mkConnection (committed db) (Some [])) []
              _ _ eq_refl E1) as [Hc [p Hp]].
  destruct o1 as [[]|e|]; [| |done].
  - unfold insert_batches in E1.
    set (it := Csv.DictReader _) in E1.
    destruct (failure it) as [e|] eqn:Ef.
    { destruct (load_batches_failing (S (length (items it))) self it
                  (mkConnection (committed db) (Some [])) [] e Hbm Ef)
        as (e' & db'' & E); [lia|done|]. rewrite E in E1. done. }
    rewrite load_batches_all in E1 by (done || lia).
    destruct (for_each_insert _ _ (mkConnection (committed db) (Some [])) []
                _ _ eq_refl E1)
      as [_ [(vs & _ & Hvs & Ht)|(e & p' & ? & _)]]; [|done].
    simpl. rewrite Hp. intros [= <-]. exists vs. split; [done|].
    rewrite Hc. simpl. rewrite Hp in Ht. injection Ht as ->. split; [done|].
    by apply Forall2_fmap_l in Hvs.
  - rewrite bind_unfold. simpl. rewrite Hp. done.
Qed.

Lemma bound_rows_stored (ds : list (gmap str (option str))) vs :
  Forall2 (λ d v, bind_row db_columns (convert_row d) = Return v) ds vs →
  vs = stored_row <$> ds.
Proof.
  induction 1 as [|d v ds vs Hv _ IH]; [done|].
  rewrite fmap_cons, <- IH. f_equal. by apply bind_convert_row.
Qed.

Lemma load_data_stored self db db' :
  1 ≤ batch_size self →
  load_data ef self db = (Return tt, db') →
  transaction db = None ∧
  db' = mkConnection (committed db ++ (stored_row <$> csv_records (csv_text self))) None.
Proof.
  intros Hb Hl. destruct (load_data_success _ _ _ Hb Hl) as (vs & Hn & -> & Hvs).
  split; [done|]. by rewrite (bound_rows_stored _ _ Hvs).
Qed.

(** The transaction with the loop replaced by one pass over all rows. *)
Lemma load_data_all_rows self db :
  1 ≤ batch_size self ≤ maxsize →
  failure (Csv.DictReader (TextFile.readlines_untranslated (csv_text self))) = None →
  load_data ef self db =
  (execute BEGIN_TRANSACTION ;;
   try_except
     (for_each (insert_row ef db_columns) (convert_row <$> csv_records (csv_text self)) ;;
      execute COMMIT)
     (λ e, execute ROLLBACK ;; raise e)) db.
Proof.
  intros Hb Hf. unfold load_data. rewrite !bind_unfold.
  destruct (execute BEGIN_TRANSACTION db) as [[[]|e|] db0]; try reflexivity.
  unfold try_except. rewrite !bind_unfold.
  unfold insert_batches. rewrite load_batches_all by (done || lia). reflexivity.
Qed.

Lemma load_data_reader_fails self db e :
  1 ≤ batch_size self ≤ maxsize →
  failure (Csv.DictReader (TextFile.readlines_untranslated (csv_text self))) = Some e →
  ∃ e', load_data ef self db = (Raise e', db).
Proof.
  intros Hb Hf.
  destruct (execute BEGIN_TRANSACTION db) as [o0 db0] eqn:E0.
  destruct (decide (o0 = Return tt)) as [->|Hne].
  - destruct (begin_ok _ _ E0) as [Hnone Hdb0].
    destruct (load_batches_failing
                (S (length (items (Csv.DictReader
                                     (TextFile.readlines_untranslated (csv_text self))))))
                self _ db0 [] e Hb Hf) as (e' & db1 & E); [lia|by subst|].
    exists e'. eapply load_data_except; done.
  - destruct (begin_fail _ _ _ E0 Hne) as [-> ->].
    exists TransactionException. unfold load_data. by rewrite bind_unfold, E0.
Qed.

Lemma validate_data_load_eq self db :
  validate_data_load self db =
  (if decide (Z.of_nat (row_count db) = Z.of_nat (csv_lines (csv_text self)) - 1)
   then Return tt
   else Raise (AssertionError (Z.of_nat (csv_lines (csv_text self)) - 1)
                              (Z.of_nat (row_count db))),
   db).
Proof.
  unfold validate_data_load, row_count, csv_lines. rewrite bind_unfold. simpl.
  repeat case_decide; done.
Qed.

Lemma run_after_load self db db' :
  load_data ef self db = (Return tt, db') →
  run ef self db = validate_data_load self db'.
Proof.
  intros Hl. unfold run, create_table. rewrite bind_unfold.
  change (execute CREATE_TABLE_SQL db) with (Return tt, db).
  cbv iota beta. rewrite bind_unfold. by rewrite Hl.
Qed.

Lemma load_data_commits self db db' :
  load_data ef self db = (Return tt, db') → transaction db' = None.
Proof.
  intros Hl. unfold load_data in Hl. rewrite bind_unfold in Hl.
  destruct (execute BEGIN_TRANSACTION db) as [[[]|e|] db1] eqn:E0; try done.
  destruct (begin_ok _ _ E0) as [Hnone ->].
  unfold try_except in Hl. rewrite bind_unfold in Hl.
  destruct (insert_batches ef self _) as [o1 db1] eqn:E1.
  destruct (insert_batches_pending _ (mkConnection (committed db) (Some [])) []
              _ _ eq_refl E1) as [Hc [p Hp]].
  destruct o1 as [[]|e|]; [| |done].
  - simpl in Hl. rewrite Hp in Hl. by injection Hl as <-.
  - rewrite bind_unfold in Hl. simpl in Hl. rewrite Hp in Hl. done.
Qed.

End LoaderFacts.

(** ** The loader: claims *)

Section LoaderClaims.
Import DataLoader.
Context (ef : list vehicle → vehicle → option exn).

(** C1.  An exception raised during the batched insertion phase of
    [load_data] (the body of the [try], entered once [BEGIN TRANSACTION]
    has succeeded) rolls the whole transaction back: [load_data] raises
    that same exception and leaves the connection exactly as it was
    before the call, with none of the rows of this load committed,
    whatever was inserted before the failure. *)
Theorem load_data_rolls_back self db db0 e db1 :
  execute BEGIN_TRANSACTION db = (Return tt, db0) →
  insert_batches ef self db0 = (Raise e, db1) →
  load_data ef self db = (Raise e, db).
Proof. apply load_data_except. Qed.

(** C2, as amended.  After a successful load with a batch size of at
    least 1 the table holds, after the rows it had, one row per CSV
    record, in order: each of the four numeric columns is [NULL] when
    the source value is missing, blank or not a number and the parsed
    integer otherwise ([number]); every other column holds the source
    value as it is, except that a missing or blank value is [NULL]
    ([text]). *)
Theorem load_data_stores_converted self db db' :
  1 ≤ batch_size self →
  load_data ef self db = (Return tt, db') →
  visible db' = visible db ++ (stored_row <$> csv_records (csv_text self)).
Proof.
  intros Hb Hl. destruct (load_data_stored ef _ _ _ Hb Hl) as [Hn ->].
  unfold visible. simpl. rewrite Hn. simpl. by rewrite !app_nil_r.
Qed.


(** C4.  [validate_data_load] raises [AssertionError] exactly when the
    table's row count differs from the number of lines of the CSV file
    minus one, and returns otherwise; either way it leaves the connection
    as it found it.  In [run] it comes after [load_data] has committed
    (no transaction is open any more), and what it returns or raises is
    the result of [run]: nothing is retried or corrected. *)
Theorem validate_data_load_detects self db :
  validate_data_load self db =
    (if decide (Z.of_nat (row_count db) = Z.of_nat (csv_lines (csv_text self)) - 1)
     then Return tt
     else Raise (AssertionError (Z.of_nat (csv_lines (csv_text self)) - 1)
                                (Z.of_nat (row_count db))),
     db) ∧
  (∀ db0, load_data ef self db0 = (Return tt, db) →
          transaction db = None ∧
          run ef self db0 = validate_data_load self db).
Proof.
  split; [apply validate_data_load_eq|].
  intros db0 Hl. split; [by eapply load_data_commits|by apply run_after_load].
Qed.

(** C5, as amended.  For the same CSV text and the same connection, two
    batch sizes between 1 and [sys.maxsize] leave the connection in the
    same state (the same rows in the same order) and agree on whether the
    load succeeds; and the load ends for both. *)
Theorem batch_size_no_effect text b1 b2 db :
  1 ≤ b1 ≤ maxsize → 1 ≤ b2 ≤ maxsize →
  (load_data ef (mkLoader text b1) db).2 = (load_data ef (mkLoader text b2) db).2 ∧
  ((load_data ef (mkLoader text b1) db).1 = Return tt ↔
   (load_data ef (mkLoader text b2) db).1 = Return tt) ∧
  (load_data ef (mkLoader text b1) db).1 ≠ Diverge ∧
  (load_data ef (mkLoader text b2) db).1 ≠ Diverge.
Proof.
  intros H1 H2.
  cut ((load_data ef (mkLoader text b1) db).2 = (load_data ef (mkLoader text b2) db).2 ∧
       ((load_data ef (mkLoader text b1) db).1 = Return tt ↔
        (load_data ef (mkLoader text b2) db).1 = Return tt)).
  { intros [? ?]. split; [done|]. split; [done|].
    split; apply load_data_terminates. }
  destruct (failure (Csv.DictReader (TextFile.readlines_untranslated text)))
    as [e|] eqn:Ef.
  - destruct (load_data_reader_fails ef (mkLoader text b1) db e H1 Ef) as [e1 ->].
    destruct (load_data_reader_fails ef (mkLoader text b2) db e H2 Ef) as [e2 ->].
    done.
  - rewrite (load_data_all_rows ef (mkLoader text b1)),
            (load_data_all_rows ef (mkLoader text b2)) by done.
    done.
Qed.

End LoaderClaims.

(** A failure in the middle of a batch: the second row of the first batch
    of two overflows its [INTEGER] column after the first row was
    inserted. *)
Lemma load_data_rolls_back_overflow :
  DataLoader.load_data no_fault (DataLoader.mkLoader overflow_csv 2) empty_db =
  (Raise ConversionException, empty_db).
Proof.
  apply (load_data_rolls_back no_fault (DataLoader.mkLoader overflow_csv 2) empty_db
           (mkConnection [] (Some [])) ConversionException
           (DataLoader.insert_batches no_fault (DataLoader.mkLoader overflow_csv 2)
              (mkConnection [] (Some []))).2).
  - reflexivity.
  - vm_compute. reflexivity.
Defined.

Example overflow_leaves_pending_row :
  (transaction
     (DataLoader.insert_batches no_fault (DataLoader.mkLoader overflow_csv 2)
        (mkConnection [] (Some []))).2) =
  Some [stored_row {[ lit "VIN (1-10)" := Some (lit "A"); lit "Model Year" := Some (lit "2020") ]}].
Proof. vm_compute. reflexivity. Qed.

(** An injected failure on the second row of the only batch: nothing of
    the load stays in the table. *)
Example load_data_rolls_back_fault :
  DataLoader.load_data fault_on_second_row sample_loader empty_db =
  (Raise (EngineFault 1), empty_db).
Proof. vm_compute. reflexivity. Qed.

(** Text columns are not kept verbatim on the fixture: the second record
    has a blank [Legislative District], and the stored row holds [NULL]
    there, not the blank string. *)
Lemma blank_text_not_verbatim :
  DataLoader.load_data no_fault sample_loader empty_db = (Return tt, loaded_db) ∧
  (λ row, Csv.get row (lit "Legislative District")) <$> csv_records sample_csv !! 1%nat =
    Some (Some []) ∧
  (Legislative_District <$> visible loaded_db !! 1%nat) = Some None ∧
  visible loaded_db ≠
    visible empty_db ++ (stored_row_with verbatim <$> csv_records sample_csv).
Proof.
  split; [vm_compute; reflexivity|]. split; [vm_compute; reflexivity|].
  split; [vm_compute; reflexivity|]. vm_compute. discriminate.
Qed.

Lemma load_data_stores_converted_sample :
  visible loaded_db = visible empty_db ++ (stored_row <$> csv_records sample_csv).
Proof.
  apply (load_data_stores_converted no_fault sample_loader empty_db loaded_db).
  - simpl. lia.
  - vm_compute. reflexivity.
Defined.

(** C3, at the failing input.  When the loader runs a second time on the
    same database, the load succeeds and the table holds six rows for the
    three data records of the CSV file: the row count after a successful
    load is not the data-row count. *)
Lemma reload_doubles_row_count :
  DataLoader.load_data no_fault sample_loader loaded_db = (Return tt, reloaded_db) ∧
  row_count reloaded_db = 6%nat ∧
  length (csv_records sample_csv) = 3%nat ∧
  row_count reloaded_db ≠ length (csv_records sample_csv).
Proof.
  split; [vm_compute; reflexivity|]. split; [vm_compute; reflexivity|].
  split; [vm_compute; reflexivity|]. vm_compute. discriminate.
Qed.


(** A batch size of 0 makes the loop stop at once: the load succeeds and
    inserts nothing. *)
Example batch_size_zero_loads_nothing :
  DataLoader.load_data no_fault (DataLoader.mkLoader sample_csv 0) empty_db =
  (Return tt, empty_db).
Proof. vm_compute. reflexivity. Qed.

(** A model year written after a no-break space is a number for [int()],
    and is stored as that number; one too large for the column makes the
    load fail. *)
Example unicode_blank_year_stored :
  Model_Year <$> visible
    (DataLoader.load_data no_fault
       (DataLoader.mkLoader (lit "Model Year
" ++ [0xA0]%N ++ lit "2020
") 5000) empty_db).2 = [Some 2020].
Proof. vm_compute. reflexivity. Qed.

Example unicode_blank_year_overflow :
  DataLoader.load_data no_fault
    (DataLoader.mkLoader (lit "Model Year
" ++ [0xA0]%N ++ lit "99999999999
") 5000) empty_db = (Raise ConversionException, empty_db).
Proof. vm_compute. reflexivity. Qed.

(** On the second run of the loader the six rows are committed, then the
    validation raises. *)
Lemma validate_after_reload :
  transaction reloaded_db = None ∧
  DataLoader.run no_fault sample_loader loaded_db =
  DataLoader.validate_data_load sample_loader reloaded_db.
Proof.
  apply (validate_data_load_detects no_fault sample_loader reloaded_db).
  vm_compute. reflexivity.
Defined.

Example run_after_reload :
  DataLoader.run no_fault sample_loader loaded_db =
  (Raise (AssertionError 3 6), reloaded_db).
Proof. vm_compute. reflexivity. Qed.

Example run_on_fixture :
  DataLoader.run no_fault sample_loader empty_db = (Return tt, loaded_db).
Proof. vm_compute. reflexivity. Qed.

Lemma batch_size_no_effect_sample :
  (DataLoader.load_data no_fault (DataLoader.mkLoader sample_csv 1) empty_db).2 =
  (DataLoader.load_data no_fault (DataLoader.mkLoader sample_csv 5000) empty_db).2 ∧
  ((DataLoader.load_data no_fault (DataLoader.mkLoader sample_csv 1) empty_db).1 = Return tt ↔
   (DataLoader.load_data no_fault (DataLoader.mkLoader sample_csv 5000) empty_db).1 = Return tt) ∧
  (DataLoader.load_data no_fault (DataLoader.mkLoader sample_csv 1) empty_db).1 ≠ Diverge ∧
  (DataLoader.load_data no_fault (DataLoader.mkLoader sample_csv 5000) empty_db).1 ≠ Diverge.
Proof.
  apply (batch_size_no_effect no_fault sample_csv 1 5000 empty_db);
    unfold maxsize; lia.
Defined.

(** A batch size above [sys.maxsize] is not like the others: [islice]
    refuses it, and the load that stores the three records of the fixture
    with a batch size of 1 raises [ValueError] and stores nothing with a
    batch size of [2 ** 63]. *)
Lemma batch_size_above_maxsize :
  1 ≤ 1 ∧ 1 ≤ 2 ^ 63 ∧
  DataLoader.load_data no_fault (DataLoader.mkLoader sample_csv 1) empty_db =
    (Return tt, loaded_db) ∧
  DataLoader.load_data no_fault (DataLoader.mkLoader sample_csv (2 ^ 63)) empty_db =
    (Raise ValueError, empty_db) ∧
  row_count loaded_db = 3%nat ∧ row_count empty_db = 0%nat.
Proof.
  split; [lia|]. split; [lia|]. split; [vm_compute; reflexivity|].
  split; [vm_compute; reflexivity|]. split; vm_compute; reflexivity.
Qed.

(** ** Lines and records *)

Section Lines.
Import TextFile Csv.

Lemma readlines_from_length cur text :
  length (readlines_from true cur text) = length (readlines_from false cur text).
Proof.
  revert cur. induction text as [|c text IH]; intros cur; simpl.
  - by case_decide.
  - destruct (c =? LF)%N; [simpl; by rewrite IH|].
    destruct (c =? CR)%N; [|apply IH].
    destruct text as [|c' text']; [done|].
    destruct (c' =? LF)%N eqn:E; simpl.
    + f_equal. specialize (IH []). simpl in IH. rewrite E in IH.
      simpl in IH. by injection IH.
    + f_equal. apply IH.
Qed.

(** Both ways of opening the file see the same number of lines. *)
Lemma readlines_length text :
  length (readlines text) = length (readlines_untranslated text).
Proof. apply readlines_from_length. Qed.

(** The reader yields at most one record per line. *)
Lemma reader_from_length r lines :
  lines ≠ [] → (length (items (reader_from r lines)) ≤ length lines)%nat.
Proof.
  revert r. induction lines as [|line lines IH]; intros r Hne; [done|].
  cbn [reader_from]. destruct (parse_line r line) as [r'|e|]; simpl; try lia.
  destruct lines as [|line' lines'].
  - case_decide; simpl; [lia|]. case_bool_decide; simpl; lia.
  - case_decide.
    + cbn [items]. simpl length.
      specialize (IH parse_reset ltac:(done)). simpl in IH. lia.
    + specialize (IH r' ltac:(done)). simpl in IH. simpl. lia.
Qed.

(** A record that runs over a line break costs a line. *)
Lemma embedded_newline_from_length r lines :
  embedded_newline_from r lines = true →
  (S (length (items (reader_from r lines))) ≤ length lines ∧ 2 ≤ length lines)%nat.
Proof.
  revert r. induction lines as [|line lines IH]; intros r; [done|].
  cbn [embedded_newline_from reader_from].
  destruct (parse_line r line) as [r'|e|]; try done.
  case_decide as Hst.
  - intros He. destruct (IH _ He). cbn [items]. simpl. lia.
  - intros [Hne|He]%orb_true_iff.
    + apply bool_decide_eq_true in Hne.
      pose proof (reader_from_length r' lines Hne).
      destruct lines; [done|]. simpl in *. lia.
    + destruct (IH _ He). simpl. lia.
Qed.

Lemma DictReader_length lines :
  (length (items (DictReader lines)) ≤ pred (length (items (reader lines))))%nat.
Proof.
  unfold DictReader. destruct (items (reader lines)) as [|h rows]; simpl; [lia|].
  rewrite length_fmap. apply length_filter.
Qed.

Lemma embedded_newline_line_count text :
  embedded_newline text = true →
  (length (csv_records text) + 2 ≤ csv_lines text)%nat.
Proof.
  intros H. unfold csv_lines, csv_records. rewrite readlines_length.
  pose proof (DictReader_length (readlines_untranslated text)).
  destruct (embedded_newline_from_length _ _ H). unfold reader in *. lia.
Qed.

(** Without the header, there are never more records than lines. *)
Lemma csv_records_le_lines text :
  (length (csv_records text) ≤ csv_lines text - 1)%nat.
Proof.
  unfold csv_lines, csv_records. rewrite readlines_length.
  pose proof (DictReader_length (readlines_untranslated text)).
  destruct (readlines_untranslated text) as [|l ls] eqn:E.
  - simpl in *. lia.
  - pose proof (reader_from_length parse_reset (l :: ls) ltac:(done)).
    unfold reader in *. lia.
Qed.
End Lines.

(** C10.  [validate_data_load] compares the table with the number of
    physical lines minus one, not with the number of parsed records.  So
    when a record of the CSV runs over a line break inside a quoted field,
    there are fewer records than lines minus one, and a load that has put
    exactly the records into the table is followed, in [run], by an
    [AssertionError] that leaves the loaded rows committed. *)
Theorem embedded_newline_fails_validation ef self db0 db :
  embedded_newline (DataLoader.csv_text self) = true →
  DataLoader.load_data ef self db0 = (Return tt, db) →
  row_count db = length (csv_records (DataLoader.csv_text self)) →
  (length (csv_records (DataLoader.csv_text self)) <
     csv_lines (DataLoader.csv_text self) - 1)%nat ∧
  DataLoader.run ef self db0 =
    (Raise (AssertionError (Z.of_nat (csv_lines (DataLoader.csv_text self)) - 1)
                           (Z.of_nat (row_count db))),
     db).
Proof.
  intros He Hl Hc. pose proof (embedded_newline_line_count _ He) as Hlines.
  split; [lia|].
  rewrite (run_after_load ef _ _ _ Hl), validate_data_load_eq.
  case_decide; [lia|done].
Qed.

Lemma multiline_record_fails_validation :
  (length (csv_records multiline_csv) < csv_lines multiline_csv - 1)%nat ∧
  DataLoader.run no_fault (DataLoader.mkLoader multiline_csv 5000) empty_db =
    (Raise (AssertionError (Z.of_nat (csv_lines multiline_csv) - 1)
                           (Z.of_nat (row_count multiline_db))),
     multiline_db).
Proof.
  apply (embedded_newline_fails_validation no_fault
           (DataLoader.mkLoader multiline_csv 5000) empty_db multiline_db).
  - vm_compute. reflexivity.
  - vm_compute. reflexivity.
  - vm_compute. reflexivity.
Defined.

Example multiline_record_counts :
  length (csv_records multiline_csv) = 1%nat ∧ csv_lines multiline_csv = 3%nat ∧
  City <$> visible multiline_db !! 0%nat =
    Some (Some (lit "Port" ++ [TextFile.LF] ++ lit "Angeles")).
Proof. vm_compute. done. Qed.

(** A quoted field left open at the end of the file keeps its line break,
    but no line follows it: the record stays on one line and the validation
    passes. *)
Example open_quote_passes_validation :
  embedded_newline open_quote_csv = false ∧
  length (csv_records open_quote_csv) = 1%nat ∧ csv_lines open_quote_csv = 2%nat ∧
  (DataLoader.run no_fault (DataLoader.mkLoader open_quote_csv 5000) empty_db).1 =
    Return tt.
Proof. vm_compute. done. Qed.

(** A blank line is a physical line and no record: the load is complete and
    the validation raises. *)
Example blank_line_fails_validation :
  (DataLoader.run no_fault
     (DataLoader.mkLoader (lit "VIN (1-10),City
A,Kent

B,Yelm
") 5000) empty_db).1 = Raise (AssertionError 3 2).
Proof. vm_compute. reflexivity. Qed.

(** ** Grouping, ordering and ranking *)

Section SqlFacts.
Import Sql.
Context {A K : Type} `{EqDecision K}.
Implicit Types (key : A → K) (rows : list A).

Lemma group_count_keys key rows :
  (group_count key rows).*1 = remove_dups (key <$> rows).
Proof.
  unfold group_count. rewrite <- list_fmap_compose.
  rewrite <- (list_fmap_id (remove_dups _)) at 2. by apply list_fmap_ext.
Qed.

Lemma elem_of_group_count key rows k n :
  (k, n) ∈ group_count key rows ↔ k ∈ key <$> rows ∧ n = count_by key k rows.
Proof.
  unfold group_count. rewrite list_elem_of_fmap. split.
  - intros (k' & [= -> ->] & Hk). by rewrite elem_of_remove_dups in Hk.
  - intros [Hk ->]. exists k. by rewrite elem_of_remove_dups.
Qed.

Lemma count_by_pos key rows k :
  (0 < count_by key k rows)%nat ↔ k ∈ key <$> rows.
Proof.
  unfold count_by. rewrite list_elem_of_fmap. split.
  - destruct (filter _ rows) as [|r l] eqn:E; simpl; [lia|]. intros _.
    assert (r ∈ filter (λ r, key r = k) rows) as Hr by (rewrite E; left).
    apply list_elem_of_filter in Hr as [Hk Hr]. eauto.
  - intros (r & -> & Hr).
    assert (r ∈ filter (λ r', key r' = key r) rows) as Hin
      by by apply list_elem_of_filter.
    destruct (filter _ rows); [by apply elem_of_nil in Hin|simpl; lia].
Qed.
End SqlFacts.

Section OrderFacts.
Import Sql.
Context {A : Type} (f : A → nat).

#[local] Instance desc_total : Total (desc f).
Proof. intros a b. unfold desc. lia. Qed.

#[local] Instance desc_trans : Transitive (desc f).
Proof. intros a b c. unfold desc. lia. Qed.

Lemma order_by_desc_perm rows : order_by_desc f rows ≡ₚ rows.
Proof. apply merge_sort_Permutation. Qed.

Lemma order_by_desc_sorted rows : StronglySorted (desc f) (order_by_desc f rows).
Proof. apply StronglySorted_merge_sort; apply _. Qed.

Lemma order_by_desc_elem_of rows a : a ∈ order_by_desc f rows ↔ a ∈ rows.
Proof. by rewrite order_by_desc_perm. Qed.

(** The first row of a sorted result holds the greatest value. *)
Lemma order_by_desc_head rows a0 a :
  head (order_by_desc f rows) = Some a0 → a ∈ rows → (f a ≤ f a0)%nat.
Proof.
  intros Hh Ha. apply order_by_desc_elem_of in Ha.
  pose proof (order_by_desc_sorted rows) as Hs.
  destruct (order_by_desc f rows) as [|x l]; [done|]. injection Hh as ->.
  apply StronglySorted_cons in Hs as [Hall _].
  apply elem_of_cons in Ha as [->|Ha]; [done|].
  rewrite Forall_forall in Hall. by apply Hall.
Qed.
End OrderFacts.

Section QualifyFacts.
Import Sql.
Context {A P : Type} `{EqDecision P} (partition : A → P) (f : A → nat).

Lemma filter_imap_none (g : nat → A → A * nat) (l : list A) :
  (∀ i a, (g i a).2 ≠ 1%nat) → filter (λ x, x.2 = 1%nat) (imap g l) = [].
Proof.
  revert g. induction l as [|a l IH]; intros g Hg; [done|].
  rewrite imap_cons, filter_cons_False by apply Hg.
  apply IH. intros i b. apply Hg.
Qed.

Lemma filter_row_number_1 (l : list A) :
  fst <$> filter (λ x, x.2 = 1%nat) (imap (λ i a, (a, S i)) l) = take 1 l.
Proof.
  destruct l as [|a l]; [done|].
  rewrite imap_cons, filter_cons_True by done.
  rewrite filter_imap_none by (intros i b; simpl; lia). done.
Qed.

(** Keeping rank 1 of every partition is taking the first row of each
    partition, sorted. *)
Lemma qualify_row_number_1_eq (rows : list A) :
  qualify_row_number_1 partition f rows =
  p ← remove_dups (partition <$> rows);
  take 1 (order_by_desc f (filter (λ a, partition a = p) rows)).
Proof.
  unfold qualify_row_number_1, row_number_over.
  induction (remove_dups (partition <$> rows)) as [|p ps IH]; [done|].
  rewrite !bind_cons, filter_app, fmap_app, IH.
  by rewrite filter_row_number_1.
Qed.

Lemma top_of_partition (rows : list A) p :
  p ∈ partition <$> rows →
  ∃ a, take 1 (order_by_desc f (filter (λ a, partition a = p) rows)) = [a] ∧
       a ∈ rows ∧ partition a = p ∧
       ∀ b, b ∈ rows → partition b = p → (f b ≤ f a)%nat.
Proof.
  intros (a0 & -> & Ha0)%list_elem_of_fmap.
  set (part := filter (λ a, partition a = partition a0) rows).
  assert (a0 ∈ part) as Hin by by apply list_elem_of_filter.
  destruct (order_by_desc f part) as [|a l] eqn:E.
  { apply (order_by_desc_elem_of f) in Hin. rewrite E in Hin.
    by apply elem_of_nil in Hin. }
  exists a. split; [done|].
  assert (a ∈ part) as Ha.
  { apply (order_by_desc_elem_of f). rewrite E. left. }
  apply list_elem_of_filter in Ha as [Hp Ha]. do 2 (split; [done|]).
  intros b Hb Hpb. apply (order_by_desc_head f part); [by rewrite E|].
  by apply list_elem_of_filter.
Qed.

Lemma qualify_partitions (rows : list A) :
  partition <$> qualify_row_number_1 partition f rows =
  remove_dups (partition <$> rows).
Proof.
  rewrite qualify_row_number_1_eq.
  assert (∀ p, p ∈ remove_dups (partition <$> rows) → p ∈ partition <$> rows)
    as Hsub by (intros p; by rewrite elem_of_remove_dups).
  induction (remove_dups (partition <$> rows)) as [|p ps IH]; [done|].
  rewrite bind_cons, fmap_app.
  destruct (top_of_partition rows p) as (a & -> & _ & Hp & _); [apply Hsub; left|].
  simpl. rewrite Hp. f_equal. apply IH. intros q Hq. apply Hsub. by right.
Qed.

Lemma elem_of_qualify (rows : list A) a :
  a ∈ qualify_row_number_1 partition f rows →
  a ∈ rows ∧ ∀ b, b ∈ rows → partition b = partition a → (f b ≤ f a)%nat.
Proof.
  rewrite qualify_row_number_1_eq. intros (p & Ha & Hp)%list_elem_of_bind.
  rewrite elem_of_remove_dups in Hp.
  destruct (top_of_partition rows p Hp) as (a' & E & Hin & Hpa & Hmax).
  rewrite E in Ha. apply list_elem_of_singleton in Ha as ->.
  split; [done|]. intros b Hb Hpb. apply Hmax; [done|congruence].
Qed.
End QualifyFacts.

(** ** The reporter: queries *)

Section QueryClaims.
Import Sql Analytics.

(** C7.  [count_cars_per_city] returns one row per distinct [City] of the
    table ([NULL] included, as one city), pairing it with the number of
    rows having that city; the rows are in descending order of that
    number, so the first row holds the highest count. *)
Theorem count_cars_per_city_spec db :
  let result := count_cars_per_city db in
  NoDup result.*1 ∧
  (∀ city, city ∈ result.*1 ↔ city ∈ City <$> visible db) ∧
  (∀ city n, (city, n) ∈ result → n = count_by City city (visible db)) ∧
  StronglySorted (λ row1 row2, (row2.2 ≤ row1.2)%nat) result ∧
  (∀ first row, head result = Some first → row ∈ result → (row.2 ≤ first.2)%nat).
Proof.
  cbv zeta. unfold count_cars_per_city.
  pose proof (order_by_desc_perm snd (group_count City (visible db))) as Hp.
  assert ((order_by_desc snd (group_count City (visible db))).*1 ≡ₚ
          remove_dups (City <$> visible db)) as Hk.
  { rewrite Hp. by rewrite group_count_keys. }
  split; [rewrite Hk; apply NoDup_remove_dups|].
  split; [intros city; rewrite Hk; apply elem_of_remove_dups|].
  split; [intros city n Hin; rewrite Hp in Hin;
          by apply elem_of_group_count in Hin as [_ ->]|].
  split; [apply (order_by_desc_sorted snd)|].
  intros first row Hh Hin. eapply (order_by_desc_head snd); [done|].
  by apply (order_by_desc_elem_of snd).
Qed.

(** C6.  [most_popular_vehicle_by_postal_code] returns exactly one row
    per distinct [Postal_Code] of the table; the row gives a (make,
    model) pair of that postal code with its number of occurrences
    there, and no pair occurs more often in that postal code. *)
Theorem most_popular_vehicle_by_postal_code_spec db :
  let result := most_popular_vehicle_by_postal_code db in
  let count postal make model :=
    count_by (λ r, (Postal_Code r, Make r, Model r)) (postal, make, model)
             (visible db) in
  NoDup ((λ row, row.1.1.1) <$> result) ∧
  (∀ postal, postal ∈ (λ row, row.1.1.1) <$> result ↔
             postal ∈ Postal_Code <$> visible db) ∧
  (∀ postal make model n, (postal, make, model, n) ∈ result →
      n = count postal make model ∧ (0 < n)%nat ∧
      ∀ make' model', (count postal make' model' ≤ n)%nat).
Proof.
  cbv zeta. unfold most_popular_vehicle_by_postal_code.
  set (key := λ r, (Postal_Code r, Make r, Model r)).
  set (grouped := group_count key (visible db)).
  assert ((λ row : option str * option str * option str * nat, row.1.1.1)
            <$> grouped = (λ k, k.1.1) <$> remove_dups (key <$> visible db)) as Hg.
  { unfold grouped. rewrite <- group_count_keys, <- list_fmap_compose. done. }
  split; [rewrite qualify_partitions; apply NoDup_remove_dups|].
  split.
  - intros postal. rewrite qualify_partitions, elem_of_remove_dups, Hg.
    rewrite !list_elem_of_fmap. split.
    + intros (k & -> & (r & -> & Hr)%elem_of_remove_dups%list_elem_of_fmap). eauto.
    + intros (r & -> & Hr). exists (key r). split; [done|].
      apply elem_of_remove_dups, list_elem_of_fmap. eauto.
  - intros postal make model n [Hin Hmax]%elem_of_qualify.
    apply elem_of_group_count in Hin as [Hk ->].
    split; [done|]. split; [by apply count_by_pos|].
    intros make' model'.
    destruct (decide ((postal, make', model') ∈ key <$> visible db)) as [Hk'|Hk'].
    + apply (Hmax (postal, make', model',
                   count_by key (postal, make', model') (visible db))); [|done].
      by apply elem_of_group_count.
    + rewrite <- count_by_pos in Hk'. lia.
Qed.

Lemma elem_of_count_cars_by_model_year db year n :
  (year, n) ∈ count_cars_by_model_year db ↔
  year ∈ Model_Year <$> visible db ∧ n = count_by Model_Year year (visible db).
Proof.
  unfold count_cars_by_model_year.
  rewrite (order_by_desc_elem_of snd). apply elem_of_group_count.
Qed.

Lemma count_cars_by_model_year_NoDup db : NoDup (count_cars_by_model_year db).*1.
Proof.
  unfold count_cars_by_model_year. rewrite (order_by_desc_perm snd), group_count_keys.
  apply NoDup_remove_dups.
Qed.
End QueryClaims.

(** The test table of the reporter: three cities with 150, 120 and 90
    registrations come out in that order. *)
Example count_cars_per_city_three_cities :
  let city c := stored_row {[ lit "City" := Some (lit c) ]} in
  Analytics.count_cars_per_city
    (mkConnection (replicate 90 (city "Bellevue") ++ replicate 150 (city "Seattle")
                     ++ replicate 120 (city "Tacoma")) None) =
  [(Some (lit "Seattle"), 150%nat); (Some (lit "Tacoma"), 120%nat); (Some (lit "Bellevue"), 90%nat)].
Proof. vm_compute. reflexivity. Qed.

(** ** The output tree *)

Section Paths.
Implicit Types (parent path : list string) (name : string).

Lemma is_child_app parent name : is_child parent (parent ++ [name]).
Proof.
  split; [rewrite length_app; simpl; lia|]. apply take_app_length.
Qed.

Lemma is_child_prefix parent path n :
  (n < length path)%nat → is_child parent (take (S n) path) → n = length parent.
Proof. intros Hn [Hl _]. rewrite length_take_le in Hl by lia. lia. Qed.

Lemma mkdir_dirs path fs d :
  d ∈ dirs (mkdir path fs) ↔
  d ∈ dirs fs ∨ ∃ n, (n < length path)%nat ∧ d = take (S n) path.
Proof.
  unfold mkdir. cbn [dirs].
  rewrite elem_of_union, elem_of_list_to_set, list_elem_of_fmap.
  apply or_iff_compat_l. split.
  - intros (n & -> & Hn%elem_of_seq). exists n. split; [lia|done].
  - intros (n & Hn & ->). exists n. split; [done|]. apply elem_of_seq. lia.
Qed.
End Paths.

Section Partition.
Import Analytics.
Context (self : ElectricVehicleAnalytics).
Implicit Types (fs : filesystem) (groups : list (Z * list (option Z * nat))).

(** Different years get different directories. *)
Lemma year_dir_inj year1 year2 :
  year_dir self year1 = year_dir self year2 → year1 = year2.
Proof.
  unfold year_dir. intros H%app_inv_head. injection H as H.
  cbv [String.append] in H. by apply (inj pretty) in H.
Qed.

Lemma year_file_inj year1 year2 :
  year_file self year1 = year_file self year2 → year1 = year2.
Proof.
  unfold year_file. intros H.
  apply (f_equal (take (length (year_dir self year1)))) in H.
  rewrite take_app_length in H.
  rewrite take_app_length' in H; [by apply year_dir_inj|].
  unfold year_dir. rewrite !length_app. done.
Qed.

Lemma write_year_dirs groups fs d :
  d ∈ dirs (foldl (write_year self) fs groups) ↔
  d ∈ dirs fs ∨
  ∃ g n, g ∈ groups ∧ (n < length (year_dir self g.1))%nat ∧
         d = take (S n) (year_dir self g.1).
Proof.
  revert fs. induction groups as [|[y ydf] groups IH]; intros fs; simpl.
  - split; [by left|]. intros [?|(g & n & Hg & _)]; [done|].
    by apply elem_of_nil in Hg.
  - rewrite IH. cbn [dirs to_parquet]. rewrite mkdir_dirs. split.
    + intros [[?|(n & Hn & ->)]|(g & n & Hg & Hn & ->)]; [by left|right..].
      * exists (y, ydf), n. split; [left|done].
      * exists g, n. split; [by right|done].
    + intros [?|(g & n & [->|Hg]%elem_of_cons & Hn & ->)]; [by do 2 left| |].
      * left. right. eauto.
      * right. eauto.
Qed.

Lemma write_year_lookup_ne groups fs p :
  (∀ g, g ∈ groups → p ≠ year_file self g.1) →
  files (foldl (write_year self) fs groups) !! p = files fs !! p.
Proof.
  revert fs. induction groups as [|[y ydf] groups IH]; intros fs Hp; simpl; [done|].
  rewrite IH by (intros g Hg; apply Hp; by right).
  cbn [files to_parquet mkdir]. apply lookup_insert_ne.
  intros Heq. by apply (Hp (y, ydf)); [left|].
Qed.

(** A year written once keeps its file. *)
Lemma write_year_lookup groups fs year year_df :
  NoDup groups.*1 → (year, year_df) ∈ groups →
  files (foldl (write_year self) fs groups) !! year_file self year =
  Some (df_model_year year_df).
Proof.
  revert fs. induction groups as [|[y ydf] groups IH]; intros fs Hnd Hin; simpl.
  { by apply elem_of_nil in Hin. }
  rewrite fmap_cons in Hnd. apply NoDup_cons in Hnd as [Hy Hnd].
  apply elem_of_cons in Hin as [[= <- <-]|Hin].
  - rewrite write_year_lookup_ne.
    + cbn [files to_parquet mkdir]. apply lookup_insert_eq.
    + intros [y' ydf'] Hg Heq%year_file_inj. simpl in Heq. subst y'.
      apply Hy, list_elem_of_fmap. by exists (year, ydf').
  - by apply IH.
Qed.

Lemma write_year_dom groups fs p :
  p ∈ dom (files (foldl (write_year self) fs groups)) ↔
  p ∈ dom (files fs) ∨ ∃ g, g ∈ groups ∧ p = year_file self g.1.
Proof.
  revert fs. induction groups as [|[y ydf] groups IH]; intros fs; simpl.
  - split; [by left|]. intros [?|(g & Hg & _)]; [done|]. by apply elem_of_nil in Hg.
  - rewrite IH. cbn [files to_parquet mkdir].
    rewrite dom_insert_L, elem_of_union, elem_of_singleton. split.
    + intros [[->|?]|(g & Hg & ->)]; [right|by left|right].
      * exists (y, ydf). split; [left|done].
      * exists g. split; [by right|done].
    + intros [?|(g & [->|Hg]%elem_of_cons & ->)]; [by left; right|by do 2 left|].
      right. eauto.
Qed.
End Partition.

Lemma filter_key_singleton {K V} `{EqDecision K} (l : list (K * V)) k v :
  NoDup l.*1 → (k, v) ∈ l → filter (λ row, row.1 = k) l = [(k, v)].
Proof.
  induction l as [|[k' v'] l IH]; intros Hnd Hin; [by apply elem_of_nil in Hin|].
  rewrite fmap_cons in Hnd. apply NoDup_cons in Hnd as [Hk Hnd].
  apply elem_of_cons in Hin as [[= <- <-]|Hin].
  - rewrite filter_cons_True by done. f_equal.
    destruct (filter _ l) as [|x l'] eqn:E; [done|].
    assert (x ∈ filter (λ row, row.1 = k) l) as [Hx Hxl]%list_elem_of_filter
      by (rewrite E; left).
    destruct Hk. apply list_elem_of_fmap. eauto.
  - rewrite filter_cons_False; [by apply IH|].
    simpl. intros ->. apply Hk, list_elem_of_fmap. by exists (k, v).
Qed.

Section Groups.
Implicit Types (df : list (option Z * nat)).

#[local] Instance Zle_total : Total Z.le.
Proof. intros x y. lia. Qed.

Lemma groupby_keys df :
  (groupby_Model_Year df).*1 ≡ₚ remove_dups (omap fst df).
Proof.
  unfold groupby_Model_Year. rewrite <- list_fmap_compose.
  erewrite (list_fmap_ext _ id); [|done]. rewrite list_fmap_id.
  apply merge_sort_Permutation.
Qed.

Lemma groupby_NoDup df : NoDup (groupby_Model_Year df).*1.
Proof. rewrite groupby_keys. apply NoDup_remove_dups. Qed.

(** The groups are the years that occur, each with the rows of that
    year; a missing year makes no group. *)
Lemma elem_of_groupby df year year_df :
  (year, year_df) ∈ groupby_Model_Year df ↔
  (∃ n, (Some year, n) ∈ df) ∧ year_df = filter (λ row, row.1 = Some year) df.
Proof.
  unfold groupby_Model_Year. rewrite list_elem_of_fmap.
  setoid_rewrite merge_sort_Permutation. setoid_rewrite elem_of_remove_dups.
  setoid_rewrite list_elem_of_omap. split.
  - intros (y & [= -> ->] & [[y' n] [Hin Hy]]). simpl in Hy. subst y'. eauto.
  - intros [[n Hin] ->]. exists year. split; [done|]. by exists (Some year, n).
Qed.
End Groups.

(** ** The reporter: files *)

Section Report.
Import Sql Analytics.
Context (fs0 : filesystem) (out : list string) (db : connection).

Lemma elem_of_model_years year :
  year ∈ model_years db ↔ Some year ∈ Model_Year <$> visible db.
Proof.
  unfold model_years.
  rewrite elem_of_list_to_set, list_elem_of_omap, list_elem_of_fmap.
  split; intros (r & ? & ?); eauto.
Qed.

Lemma model_years_groups year :
  year ∈ model_years db ↔
  (year, [(Some year, count_by Model_Year (Some year) (visible db))])
    ∈ groupby_Model_Year (count_cars_by_model_year db).
Proof.
  rewrite elem_of_model_years, elem_of_groupby. split.
  - intros Hy.
    assert ((Some year, count_by Model_Year (Some year) (visible db))
              ∈ count_cars_by_model_year db) as Hin
      by by apply elem_of_count_cars_by_model_year.
    split; [eauto|]. symmetry. apply filter_key_singleton; [|done].
    apply count_cars_by_model_year_NoDup.
  - intros [[n Hin%elem_of_count_cars_by_model_year] _]. tauto.
Qed.

Lemma groups_model_years g :
  g ∈ groupby_Model_Year (count_cars_by_model_year db) → g.1 ∈ model_years db.
Proof.
  destruct g as [y ydf].
  intros [[n Hin%elem_of_count_cars_by_model_year] _]%elem_of_groupby.
  apply elem_of_model_years. tauto.
Qed.

Lemma report_on_dirs d :
  d ∈ dirs (report_on fs0 out db) ↔
  d ∈ dirs fs0 ∨
  (∃ n, (n < length out)%nat ∧ d = take (S n) out) ∨
  ∃ year n, year ∈ model_years db ∧
            (n < length (year_dir (mkAnalytics out) year))%nat ∧
            d = take (S n) (year_dir (mkAnalytics out) year).
Proof.
  unfold report_on, init, run. rewrite write_year_dirs. cbn [dirs to_parquet].
  rewrite mkdir_dirs. split.
  - intros [[?|?]|(g & n & Hg%groups_model_years & Hn & ->)]; [by left|by right; left|].
    right. right. eauto.
  - intros [?|[?|(y & n & Hy%model_years_groups & Hn & ->)]];
      [by do 2 left|by left; right|right].
    eexists (_, _), n. split; [done|]. done.
Qed.

(** The subdirectories the run adds under the output directory are those
    of the years of the table. *)
Lemma report_on_subdirectories :
  subdirectories out (report_on fs0 out db) =
  subdirectories out fs0 ∪ set_map (year_dir (mkAnalytics out)) (model_years db).
Proof.
  apply set_eq. intros d. unfold subdirectories.
  rewrite elem_of_union, !elem_of_filter, report_on_dirs, elem_of_map. split.
  - intros [Hc [?|[(n & Hn & ->)|(y & n & Hy & Hn & ->)]]]; [by left| |right].
    + apply is_child_prefix in Hc; [lia|done].
    + exists y. split; [|done]. apply is_child_prefix in Hc; [|done].
      apply take_ge. unfold year_dir in *.
      rewrite length_app in *. simpl in *. lia.
  - intros [[Hc ?]|(y & -> & Hy)]; [by split; [|left]|].
    split; [apply is_child_app|]. right. right.
    exists y, (length out). split; [done|].
    unfold year_dir. cbn [output_dir]. rewrite length_app. simpl.
    split; [lia|]. symmetry. apply take_ge. rewrite length_app. simpl. lia.
Qed.

Lemma report_on_files p :
  p ∈ dom (files (report_on fs0 out db)) ↔
  p ∈ dom (files fs0) ∨
  p = out ++ ["electric_cars_per_city.parquet"] ∨
  p = out ++ ["top_3_most_popular_vehicles.parquet"] ∨
  p = out ++ ["popular_vehicle_by_postal_code.parquet"] ∨
  ∃ year, year ∈ model_years db ∧ p = year_file (mkAnalytics out) year.
Proof.
  unfold report_on, init, run. rewrite write_year_dom.
  cbn [files to_parquet mkdir output_dir].
  rewrite !dom_insert_L, !elem_of_union, !elem_of_singleton.
  split.
  - intros [[?|[?|[?|?]]]|(g & Hg%groups_model_years & ->)]; eauto 7.
  - intros [?|[?|[?|[?|(y & Hy%model_years_groups & ->)]]]]; eauto 7.
Qed.

(** The only file the run adds to the directory of a year is the file of
    that year. *)
Lemma report_on_files_in year :
  year ∈ model_years db →
  files_in (year_dir (mkAnalytics out) year) (report_on fs0 out db) =
  files_in (year_dir (mkAnalytics out) year) fs0 ∪ {[ year_file (mkAnalytics out) year ]}.
Proof.
  intros Hy. apply set_eq. intros p. unfold files_in.
  rewrite elem_of_union, !elem_of_filter, report_on_files, elem_of_singleton. split.
  - intros [Hc [?|[->|[->|[->|(y & _ & ->)]]]]]; [by left| | | |right].
    1-3: destruct Hc as [Hl _]; unfold year_dir in Hl;
      rewrite !length_app in Hl; simpl in Hl; lia.
    f_equal. destruct Hc as [_ Hc]. unfold year_file in Hc.
    rewrite take_app_length' in Hc by (unfold year_dir; by rewrite !length_app).
    by apply year_dir_inj in Hc.
  - intros [[Hc ?]| ->]; [by split; [|left]|].
    split; [apply is_child_app|]. eauto 7.
Qed.

Lemma report_on_year_file year :
  year ∈ model_years db →
  files (report_on fs0 out db) !! year_file (mkAnalytics out) year =
  Some (mkDataFrame ["Model_Year"; "num_cars"]
          [[VInt year; of_count (count_by Model_Year (Some year) (visible db))]]).
Proof.
  intros Hy%model_years_groups. unfold report_on, init, run.
  by rewrite (write_year_lookup _ _ _ _ _ (groupby_NoDup _) Hy).
Qed.
End Report.

Section FreshReport.
Import Sql Analytics.
Context (out : list string) (db : connection).

Lemma report_subdirectories :
  subdirectories out (report out db) =
  set_map (year_dir (mkAnalytics out)) (model_years db).
Proof.
  unfold report. rewrite report_on_subdirectories.
  apply set_eq. intros d. unfold subdirectories.
  rewrite elem_of_union, elem_of_filter. cbn [dirs]. rewrite elem_of_empty. tauto.
Qed.

Lemma elem_of_report_subdirectories d :
  d ∈ subdirectories out (report out db) ↔
  ∃ year, year ∈ model_years db ∧ d = year_dir (mkAnalytics out) year.
Proof.
  rewrite report_subdirectories, elem_of_map. split; intros (y & ? & ?); eauto.
Qed.

Lemma report_files_in year :
  year ∈ model_years db →
  files_in (year_dir (mkAnalytics out) year) (report out db) =
  {[ year_file (mkAnalytics out) year ]}.
Proof.
  intros Hy. unfold report. rewrite report_on_files_in by done.
  apply set_eq. intros p. unfold files_in.
  rewrite elem_of_union, elem_of_filter. cbn [files].
  rewrite dom_empty_L, elem_of_empty. tauto.
Qed.
End FreshReport.

(** C8.  Run over an empty output tree, the reporter leaves under the
    output directory exactly one subdirectory [model_year=<year>] per
    distinct model year of the table ([NULL] is not a year), and in
    each of them exactly one file, [electric_cars_<year>.parquet], whose
    only row is the one of that year with its count.  A table whose years
    are 2020 and 2021 yields exactly two subdirectories. *)
Theorem report_partitioned_by_model_year out db :
  let self := Analytics.mkAnalytics out in
  let fs := report out db in
  subdirectories out fs = set_map (Analytics.year_dir self) (model_years db) ∧
  size (subdirectories out fs) = size (model_years db) ∧
  (∀ year, year ∈ model_years db →
     files_in (Analytics.year_dir self year) fs = {[ Analytics.year_file self year ]} ∧
     files fs !! Analytics.year_file self year =
       Some (mkDataFrame ["Model_Year"; "num_cars"]
               [[VInt year;
                 of_count (Sql.count_by Model_Year (Some year) (visible db))]])) ∧
  (model_years db = {[ 2020; 2021 ]} →
     subdirectories out fs =
       {[ Analytics.year_dir self 2020; Analytics.year_dir self 2021 ]} ∧
     size (subdirectories out fs) = 2%nat).
Proof.
  cbv zeta. pose proof (report_subdirectories out db) as Hs.
  assert (size (subdirectories out (report out db)) = size (model_years db)) as Hsize.
  { rewrite Hs. unfold set_map. rewrite size_list_to_set.
    - by rewrite length_fmap.
    - apply NoDup_fmap_2_strong; [|apply NoDup_elements].
      intros y1 y2 _ _. apply year_dir_inj. }
  split; [done|]. split; [done|]. split.
  - intros year Hy. split; [by apply report_files_in|by apply report_on_year_file].
  - intros Hy. split.
    + rewrite Hs, Hy. by rewrite set_map_union_L, !set_map_singleton_L.
    + rewrite Hsize, Hy. rewrite size_union by set_solver. by rewrite !size_singleton.
Qed.

(** C9.  When some row has no model year, the result of
    [count_cars_by_model_year] has a row for the [NULL] group, with the
    number of such rows; but every subdirectory that [run] makes is the one
    of an integer year of the table, and no row of any file in them has a
    [NULL] year: the registrations without a year are in no partition
    file. *)
Theorem null_model_year_not_partitioned out db :
  None ∈ Model_Year <$> visible db →
  let self := Analytics.mkAnalytics out in
  let fs := report out db in
  let nulls := Sql.count_by Model_Year None (visible db) in
  (0 < nulls)%nat ∧
  (None, nulls) ∈ Analytics.count_cars_by_model_year db ∧
  [VNone; of_count nulls]
    ∈ data (Analytics.df_model_year (Analytics.count_cars_by_model_year db)) ∧
  (∀ d, d ∈ subdirectories out fs →
        ∃ year, Some year ∈ Model_Year <$> visible db ∧
                d = Analytics.year_dir self year) ∧
  (∀ d p df row, d ∈ subdirectories out fs → p ∈ files_in d fs →
                 files fs !! p = Some df → row ∈ data df →
                 row !! 0%nat ≠ Some VNone).
Proof.
  intros Hnull. cbv zeta.
  assert ((None, Sql.count_by Model_Year None (visible db))
            ∈ Analytics.count_cars_by_model_year db) as Hin
    by by apply elem_of_count_cars_by_model_year.
  split; [by apply count_by_pos|]. split; [done|]. split.
  { unfold Analytics.df_model_year. cbn [data]. apply list_elem_of_fmap.
    by eexists (None, _). }
  split.
  - intros d (y & Hy%elem_of_model_years & ->)%elem_of_report_subdirectories. eauto.
  - intros d p df row (y & Hy & ->)%elem_of_report_subdirectories Hp Hdf Hrow.
    rewrite report_files_in in Hp by done. apply elem_of_singleton in Hp as ->.
    unfold report in Hdf. rewrite report_on_year_file in Hdf by done.
    injection Hdf as <-.
    cbn [data] in Hrow. apply list_elem_of_singleton in Hrow as ->. done.
Qed.

Lemma null_year_db_not_partitioned :
  let self := Analytics.mkAnalytics ["analytics_output"] in
  let fs := report ["analytics_output"] null_year_db in
  let nulls := Sql.count_by Model_Year None (visible null_year_db) in
  (0 < nulls)%nat ∧
  (None, nulls) ∈ Analytics.count_cars_by_model_year null_year_db ∧
  [VNone; of_count nulls]
    ∈ data (Analytics.df_model_year (Analytics.count_cars_by_model_year null_year_db)) ∧
  (∀ d, d ∈ subdirectories ["analytics_output"] fs →
        ∃ year, Some year ∈ Model_Year <$> visible null_year_db ∧
                d = Analytics.year_dir self year) ∧
  (∀ d p df row, d ∈ subdirectories ["analytics_output"] fs → p ∈ files_in d fs →
                 files fs !! p = Some df → row ∈ data df →
                 row !! 0%nat ≠ Some VNone).
Proof.
  apply (null_model_year_not_partitioned ["analytics_output"] null_year_db).
  apply (bool_decide_unpack _). vm_compute. exact I.
Defined.

(** The output tree for that table: two year directories of one file each,
    and nothing for the row without a year. *)
Example null_year_db_report :
  Analytics.count_cars_by_model_year null_year_db =
    [(Some 2021, 1%nat); (Some 2020, 1%nat); (None, 1%nat)] ∧
  elements (subdirectories ["analytics_output"] (report ["analytics_output"] null_year_db)) ≡ₚ
    [["analytics_output"; "model_year=2020"]; ["analytics_output"; "model_year=2021"]] ∧
  files (report ["analytics_output"] null_year_db)
    !! ["analytics_output"; "model_year=2020"; "electric_cars_2020.parquet"] =
    Some (mkDataFrame ["Model_Year"; "num_cars"] [[VInt 2020; VInt 1]]).
Proof.
  split; [vm_compute; reflexivity|]. split; [|vm_compute; reflexivity].
  vm_compute. first [reflexivity | apply perm_swap].
Qed.

(** * Further properties of the loader *)

(** ** Binding a converted record *)

Ltac bind_int_column_or_fail :=
  rewrite bind_columns_cons; unfold set_column;
  cbn [String.eqb Ascii.eqb Bool.eqb];
  unfold cast_integer, cast_bigint; rewrite cast_int_of_int;
  match goal with
  | |- context [mbind _ (if in_range ?b ?y then _ else _)] =>
      destruct (in_range b y); [|reflexivity]
  end;
  cbn [mbind outcome_bind VIN County City State Postal_Code Model_Year Make
       Model Electric_Vehicle_Type CAFV_Eligibility Electric_Range Base_MSRP
       Legislative_District DOL_Vehicle_ID Vehicle_Location Electric_Utility
       Census_Tract null_row].

(** The insert of a converted record binds the expected row, or fails on
    the first number that does not fit its column. *)
Lemma bind_convert_row_fits d :
  bind_row DataLoader.db_columns (DataLoader.convert_row d) =
  if fits d then Return (stored_row d) else Raise ConversionException.
Proof.
  rewrite convert_row_eq. unfold fits.
  unfold bind_row, DataLoader.db_columns, DataLoader.CSV_TO_DB_COLUMNS.
  cbn [fmap list_fmap snd].
  do 5 bind_text_column. bind_int_column_or_fail. do 4 bind_text_column.
  do 2 bind_int_column_or_fail. bind_text_column. bind_int_column_or_fail.
  do 3 bind_text_column. reflexivity.
Qed.

Lemma forallb_Forall_true {A} (f : A → bool) (l : list A) :
  forallb f l = true ↔ Forall (λ x, f x = true) l.
Proof.
  induction l as [|x l IH]; simpl; [by split|].
  rewrite andb_true_iff, Forall_cons, IH. done.
Qed.

Lemma row_count_loaded text db :
  transaction db = None →
  row_count (loaded text db) = (row_count db + length (csv_records text))%nat.
Proof.
  intros Ht. unfold row_count, loaded, visible. simpl. rewrite Ht. simpl.
  by rewrite !app_nil_r, length_app, length_fmap.
Qed.

(** ** [load_data] and [run], whatever the engine does *)

Section LoaderMore.
Import DataLoader.
Context (ef : list vehicle → vehicle → option exn).

Lemma load_data_cases self db :
  (∃ rows, transaction db = None ∧
     load_data ef self db = (Return tt, mkConnection (committed db ++ rows) None)) ∨
  (∃ e, load_data ef self db = (Raise e, db)).
Proof.
  destruct (execute BEGIN_TRANSACTION db) as [o0 db0] eqn:E0.
  destruct (decide (o0 = Return tt)) as [->|Hne].
  - destruct (begin_ok _ _ E0) as [Hnone ->].
    destruct (insert_batches ef self (mkConnection (committed db) (Some [])))
      as [o1 db1] eqn:E1.
    destruct (insert_batches_pending ef _ (mkConnection (committed db) (Some [])) []
                _ _ eq_refl E1) as [Hc [p Hp]].
    destruct o1 as [[]|e|].
    + left. exists p. split; [done|]. unfold load_data.
      rewrite bind_unfold, E0. unfold try_except. rewrite bind_unfold, E1.
      simpl. rewrite Hp. by rewrite Hc.
    + right. exists e. by eapply load_data_except.
    + exfalso. unfold insert_batches in E1.
      eapply (load_batches_terminates ef _ self _ (mkConnection (committed db) (Some [])));
        [| |by rewrite E1]; [lia|done].
  - destruct (begin_fail _ _ _ E0 Hne) as [-> ->]. right.
    exists TransactionException. unfold load_data. by rewrite bind_unfold, E0.
Qed.

Lemma load_data_open_transaction self db pending :
  transaction db = Some pending →
  load_data ef self db = (Raise TransactionException, db).
Proof.
  intros Ht. unfold load_data. rewrite bind_unfold. simpl. by rewrite Ht.
Qed.

Lemma run_load_raises self db e db' :
  load_data ef self db = (Raise e, db') → run ef self db = (Raise e, db').
Proof.
  intros Hl. unfold run, create_table. rewrite bind_unfold.
  change (execute CREATE_TABLE_SQL db) with (Return tt, db).
  cbv iota beta. rewrite bind_unfold. by rewrite Hl.
Qed.

Lemma load_data_batch_zero self db :
  batch_size self = 0 → transaction db = None →
  load_data ef self db = (Return tt, db).
Proof.
  intros Hb Ht. unfold load_data. rewrite bind_unfold. simpl. rewrite Ht.
  unfold try_except. rewrite bind_unfold. unfold insert_batches.
  cbn [load_batches]. rewrite bind_unfold. unfold lift.
  rewrite islice_in_range by (rewrite Hb; unfold maxsize; lia). rewrite Hb.
  simpl. by rewrite app_nil_r, connection_eta.
Qed.

Lemma load_data_batch_negative self db :
  batch_size self < 0 → transaction db = None →
  load_data ef self db = (Raise ValueError, db).
Proof.
  intros Hb Ht. unfold load_data. rewrite bind_unfold. simpl. rewrite Ht.
  unfold try_except. rewrite bind_unfold. unfold insert_batches.
  cbn [load_batches]. rewrite bind_unfold. unfold lift.
  rewrite islice_out_of_range by lia.
  rewrite bind_unfold. simpl. unfold raise. by rewrite connection_eta.
Qed.

(** A batch size above [sys.maxsize]: [islice] raises [ValueError] inside
    the [try]. *)
Lemma load_data_batch_too_large self db :
  maxsize < batch_size self → transaction db = None →
  load_data ef self db = (Raise ValueError, db).
Proof.
  intros Hb Ht. unfold load_data. rewrite bind_unfold. simpl. rewrite Ht.
  unfold try_except. rewrite bind_unfold. unfold insert_batches.
  cbn [load_batches]. rewrite bind_unfold. unfold lift.
  rewrite islice_out_of_range by lia.
  rewrite bind_unfold. simpl. unfold raise. by rewrite connection_eta.
Qed.

Lemma load_data_returns_bound self db :
  (load_data ef self db).1 = Return tt → batch_size self ≤ maxsize.
Proof.
  intros Hr. destruct (decide (batch_size self ≤ maxsize)) as [|Hm]; [done|].
  destruct (load_data_too_large ef self db); [lia|done].
Qed.

Lemma run_returns_load_returns self db :
  (run ef self db).1 = Return tt → (load_data ef self db).1 = Return tt.
Proof.
  intros Hr. destruct (load_data_cases self db) as [(rows & _ & Hl)|[e Hl]].
  - by rewrite Hl.
  - by rewrite (run_load_raises _ _ _ _ Hl) in Hr.
Qed.

(** A record with a number too large for its column is never loaded. *)
Lemma load_data_unfit self db d :
  1 ≤ batch_size self → d ∈ csv_records (csv_text self) → fits d = false →
  ∃ e, load_data ef self db = (Raise e, db).
Proof.
  intros Hb Hd Hfit.
  destruct (load_data_cases self db) as [(rows & Ht & Hl)|?]; [|done].
  destruct (load_data_success ef _ _ _ Hb Hl) as (vs & _ & _ & Hvs).
  apply list_elem_of_lookup in Hd as [i Hi].
  destruct (Forall2_lookup_l _ _ _ _ _ Hvs Hi) as (v & _ & Hv).
  rewrite bind_convert_row_fits, Hfit in Hv. done.
Qed.

End LoaderMore.

(** ** [load_data] and [run] on an engine that does not fail *)

Section NoFault.
Import DataLoader.

Lemma insert_row_no_fault d db :
  insert_row no_fault db_columns (convert_row d) db =
  if fits d then (Return tt, add_row (stored_row d) db)
  else (Raise ConversionException, db).
Proof.
  unfold insert_row. rewrite bind_convert_row_fits. by destruct (fits d).
Qed.

Lemma for_each_insert_no_fault ds db pending :
  transaction db = Some pending →
  ∃ pending',
    for_each (insert_row no_fault db_columns) (convert_row <$> ds) db =
    if forallb fits ds
    then (Return tt, mkConnection (committed db) (Some (pending ++ (stored_row <$> ds))))
    else (Raise ConversionException, mkConnection (committed db) (Some pending')).
Proof.
  revert db pending. induction ds as [|d ds IH]; intros db pending Ht.
  - exists []. simpl. rewrite app_nil_r. destruct db; simpl in *. by subst.
  - rewrite fmap_cons. cbn [for_each forallb].
    destruct (fits d) eqn:Ef.
    + destruct (IH (add_row (stored_row d) db) (pending ++ [stored_row d]))
        as [p' Hp']. { unfold add_row. by rewrite Ht. }
      exists p'. rewrite bind_unfold, insert_row_no_fault, Ef. rewrite Hp'.
      unfold add_row. rewrite Ht. cbn [committed andb]. by rewrite <- app_assoc.
    + exists pending. rewrite bind_unfold, insert_row_no_fault, Ef. simpl.
      destruct db; simpl in *. by subst.
Qed.

Lemma load_data_no_fault self db :
  1 ≤ batch_size self ≤ maxsize →
  transaction db = None → csv_error (csv_text self) = None →
  load_data no_fault self db =
  if forallb fits (csv_records (csv_text self))
  then (Return tt, loaded (csv_text self) db)
  else (Raise ConversionException, db).
Proof.
  intros Hb Ht Hf. rewrite load_data_all_rows by done.
  rewrite bind_unfold. simpl. rewrite Ht. unfold try_except. rewrite bind_unfold.
  destruct (for_each_insert_no_fault (csv_records (csv_text self))
              (mkConnection (committed db) (Some [])) [] eq_refl) as [p' ->].
  destruct (forallb fits _).
  - simpl. done.
  - rewrite bind_unfold. simpl. unfold raise. by rewrite connection_eta.
Qed.

Lemma load_data_no_fault_returns self db :
  1 ≤ batch_size self ≤ maxsize →
  (load_data no_fault self db).1 = Return tt ↔
  transaction db = None ∧ csv_error (csv_text self) = None ∧
  Forall (λ d, fits d = true) (csv_records (csv_text self)).
Proof.
  intros Hb. split.
  - intros Hr.
    destruct (transaction db) as [p|] eqn:Ht.
    { by rewrite (load_data_open_transaction _ _ _ p) in Hr. }
    destruct (csv_error (csv_text self)) as [e|] eqn:Hf.
    { destruct (load_data_reader_fails no_fault self db e Hb Hf) as [e' He'].
      by rewrite He' in Hr. }
    rewrite load_data_no_fault in Hr by done.
    destruct (forallb fits _) eqn:Efit; [|done].
    split; [done|]. split; [done|]. by apply forallb_Forall_true.
  - intros (Ht & Hf & Hfit). rewrite load_data_no_fault by done.
    apply forallb_Forall_true in Hfit. by rewrite Hfit.
Qed.

Lemma load_data_no_fault_loaded self db :
  1 ≤ batch_size self →
  (load_data no_fault self db).1 = Return tt →
  load_data no_fault self db = (Return tt, loaded (csv_text self) db).
Proof.
  intros Hb Hr. pose proof (load_data_returns_bound no_fault self db Hr) as Hm.
  pose proof Hr as (Ht & Hf & Hfit)%load_data_no_fault_returns; [|done].
  rewrite load_data_no_fault by done.
  apply forallb_Forall_true in Hfit. by rewrite Hfit.
Qed.

(** [run] is the load, then the validation of the table it leaves. *)
Lemma run_no_fault_cases self db :
  1 ≤ batch_size self →
  ((load_data no_fault self db).1 = Return tt ∧
   run no_fault self db = validate_data_load self (loaded (csv_text self) db)) ∨
  ((load_data no_fault self db).1 ≠ Return tt ∧
   ∃ e, run no_fault self db = (Raise e, db)).
Proof.
  intros Hb.
  destruct (decide ((load_data no_fault self db).1 = Return tt)) as [Hr|Hr].
  - left. split; [done|]. apply run_after_load. by apply load_data_no_fault_loaded.
  - right. split; [done|].
    destruct (load_data_cases no_fault self db) as [(rows & _ & Hl)|[e Hl]].
    + by rewrite Hl in Hr.
    + exists e. by apply run_load_raises.
Qed.

Lemma run_no_fault_returns self db :
  1 ≤ batch_size self ≤ maxsize →
  (run no_fault self db).1 = Return tt ↔
  (transaction db = None ∧ csv_error (csv_text self) = None ∧
   Forall (λ d, fits d = true) (csv_records (csv_text self))) ∧
  Z.of_nat (row_count db) + Z.of_nat (length (csv_records (csv_text self))) =
    Z.of_nat (csv_lines (csv_text self)) - 1.
Proof.
  intros Hb. rewrite <- load_data_no_fault_returns by done.
  destruct (run_no_fault_cases self db (proj1 Hb)) as [[Hr ->]|[Hr [e ->]]].
  - pose proof Hr as (Ht & _)%load_data_no_fault_returns; [|done].
    rewrite validate_data_load_eq, row_count_loaded by done.
    case_decide; simpl; split; try done; intros; try lia. split; [done|lia].
  - simpl. split; [done|]. by intros [? _].
Qed.

Lemma run_no_fault_outcomes self db :
  1 ≤ batch_size self ≤ maxsize →
  let text := csv_text self in
  let load_ok := transaction db = None ∧ csv_error text = None ∧
                 Forall (λ d, fits d = true) (csv_records text) in
  let rows_after := Z.of_nat (row_count db) + Z.of_nat (length (csv_records text)) in
  let csv_row_count := Z.of_nat (csv_lines text) - 1 in
  ((run no_fault self db).1 = Return tt ↔ load_ok ∧ rows_after = csv_row_count) ∧
  (load_ok → rows_after = csv_row_count →
   run no_fault self db = (Return tt, loaded text db)) ∧
  (load_ok → rows_after ≠ csv_row_count →
   run no_fault self db =
     (Raise (AssertionError csv_row_count rows_after), loaded text db)) ∧
  (¬ load_ok → ∃ e, run no_fault self db = (Raise e, db)).
Proof.
  intros Hb. cbv zeta. split; [by apply run_no_fault_returns|].
  rewrite <- load_data_no_fault_returns by done.
  destruct (run_no_fault_cases self db (proj1 Hb)) as [[Hr ->]|[Hr [e ->]]].
  - pose proof Hr as (Ht & _)%load_data_no_fault_returns; [|done].
    rewrite validate_data_load_eq, row_count_loaded by done.
    rewrite Nat2Z.inj_add.
    split; [intros _ Heq; by rewrite decide_True|].
    split; [intros _ Hne; by rewrite decide_False|done].
  - split; [done|]. split; [done|]. eauto.
Qed.

End NoFault.

(** ** The loader: further properties *)

Section LoaderExtras.
Import DataLoader.
Context (ef : list vehicle → vehicle → option exn).

(** X1.  [load_data] is all or nothing, for every engine, file, batch
    size and connection: either it returns, and then no transaction was
    or is open and the committed table is the one before the call with
    rows appended at its end; or it raises, and then the connection is
    exactly as it was before the call.  The loop never runs on for ever,
    and no row that was in the table is removed or changed. *)
Theorem load_data_all_or_nothing self db :
  (∃ rows, transaction db = None ∧
     load_data ef self db = (Return tt, mkConnection (committed db ++ rows) None)) ∨
  (∃ e, load_data ef self db = (Raise e, db)).
Proof. apply load_data_cases. Qed.

(** X2.  Called while a transaction is open, [load_data] raises the
    engine's [TransactionException] at its [BEGIN TRANSACTION], which stands
    before the [try]: no [ROLLBACK] is issued, so the caller's transaction
    stays open with its pending rows, nothing is read or inserted, and
    [run] ends with the same exception. *)
Theorem load_data_inside_transaction self db pending :
  transaction db = Some pending →
  load_data ef self db = (Raise TransactionException, db) ∧
  run ef self db = (Raise TransactionException, db).
Proof.
  intros Ht. pose proof (load_data_open_transaction ef self db pending Ht).
  split; [done|]. by apply run_load_raises.
Qed.

(** X3.  A number that [int()] parses but that does not fit its column
    (32 bits for [Model_Year], [Electric_Range] and [Base_MSRP], 64 bits
    for [DOL_Vehicle_ID]) is not stored as [NULL]: with a batch size of at
    least 1, one such record anywhere in the file makes [load_data] raise
    and leave the connection as it was, so that no record of the file is
    loaded.  On an engine without other faults, with a batch size that
    [islice] accepts (at most [sys.maxsize]), a file that parses and a
    connection without open transaction, the exception is the engine's
    [ConversionException]. *)
Theorem out_of_range_aborts_load self db d :
  1 ≤ batch_size self → d ∈ csv_records (csv_text self) → fits d = false →
  (∃ e, load_data ef self db = (Raise e, db)) ∧
  (batch_size self ≤ maxsize →
   transaction db = None → csv_error (csv_text self) = None →
   load_data no_fault self db = (Raise ConversionException, db)).
Proof.
  intros Hb Hd Hfit. split; [by eapply load_data_unfit|].
  intros Hm Ht Hf. rewrite load_data_no_fault by done.
  destruct (forallb fits _) eqn:E; [|done].
  apply forallb_Forall_true in E. rewrite Forall_forall in E.
  specialize (E d Hd). congruence.
Qed.

(** X4.  The batch size is not checked.  With a batch size of 0 the
    first batch is empty and the loop stops at once: [load_data] commits an
    empty transaction and returns, whatever the file holds, and [run] goes
    on to validate the unchanged table.  With a negative batch size
    [islice] raises [ValueError] inside the [try]: the transaction is
    rolled back and the exception is raised again. *)
Theorem load_data_degenerate_batch_size self db :
  transaction db = None →
  (batch_size self = 0 →
     load_data ef self db = (Return tt, db) ∧
     run ef self db = validate_data_load self db) ∧
  (batch_size self < 0 →
     load_data ef self db = (Raise ValueError, db) ∧
     run ef self db = (Raise ValueError, db)).
Proof.
  intros Ht. split; intros Hb.
  - pose proof (load_data_batch_zero ef self db Hb Ht) as Hl.
    split; [done|]. by apply run_after_load.
  - pose proof (load_data_batch_negative ef self db Hb Ht) as Hl.
    split; [done|]. by apply run_load_raises.
Qed.

(** X5.  An empty CSV file never passes: for a batch size that [islice]
    accepts (from 0 to [sys.maxsize]) and a connection without open
    transaction, [load_data] inserts nothing and commits, and the
    validation then compares the table with a line count of minus one, so
    [run] raises [AssertionError] whatever the table holds, an empty table
    included. *)
Theorem empty_file_fails_validation self db :
  csv_text self = [] → 0 ≤ batch_size self ≤ maxsize → transaction db = None →
  load_data ef self db = (Return tt, db) ∧
  run ef self db = (Raise (AssertionError (-1) (Z.of_nat (row_count db))), db).
Proof.
  intros Htext Hb Ht.
  assert (load_data ef self db = (Return tt, db)) as Hl.
  { unfold load_data. rewrite bind_unfold. simpl. rewrite Ht.
    unfold try_except. rewrite bind_unfold. unfold insert_batches. rewrite Htext.
    cbn [load_batches]. rewrite bind_unfold. unfold lift.
    rewrite islice_in_range by done.
    simpl. destruct (Z.to_nat (batch_size self)); simpl;
      by rewrite app_nil_r, connection_eta. }
  split; [done|].
  rewrite (run_after_load ef _ _ _ Hl), validate_data_load_eq.
  unfold csv_lines. rewrite Htext. simpl. case_decide; [lia|done].
Qed.

End LoaderExtras.

Section NoFaultExtras.
Import DataLoader.

(** X6.  On an engine without faults of its own and with a batch
    size from 1 to [sys.maxsize], [load_data] returns exactly when no transaction is
    open, the CSV text parses to its end, and every number of every record
    fits its column; it then leaves the table with one row per record
    appended.  In every other case it raises and leaves the connection as
    it was. *)
Theorem load_data_succeeds_iff self db :
  1 ≤ batch_size self ≤ maxsize →
  ((load_data no_fault self db).1 = Return tt ↔
   transaction db = None ∧ csv_error (csv_text self) = None ∧
   Forall (λ d, fits d = true) (csv_records (csv_text self))) ∧
  ((load_data no_fault self db).1 = Return tt →
   load_data no_fault self db = (Return tt, loaded (csv_text self) db)) ∧
  ((load_data no_fault self db).1 ≠ Return tt →
   ∃ e, load_data no_fault self db = (Raise e, db)).
Proof.
  intros Hb. split; [by apply load_data_no_fault_returns|].
  split; [apply load_data_no_fault_loaded, Hb|].
  intros Hr. destruct (load_data_cases no_fault self db) as [(rows & _ & Hl)|?]; [|done].
  by rewrite Hl in Hr.
Qed.

(** X7.  On an engine without faults of its own and with a batch size
    from 1 to [sys.maxsize], [run] returns exactly when the load succeeds (no open
    transaction, a CSV text that parses, numbers that fit) and the rows
    the table had before plus the records of the file add up to the
    number of lines of the file minus one; the table then holds the
    records appended.  When the load succeeds and the counts differ, [run]
    raises [AssertionError] with the records committed; when the load
    fails, [run] raises and the connection is as before. *)
Theorem run_succeeds_iff self db :
  1 ≤ batch_size self ≤ maxsize →
  let text := csv_text self in
  let load_ok := transaction db = None ∧ csv_error text = None ∧
                 Forall (λ d, fits d = true) (csv_records text) in
  let rows_after := Z.of_nat (row_count db) + Z.of_nat (length (csv_records text)) in
  let csv_row_count := Z.of_nat (csv_lines text) - 1 in
  ((run no_fault self db).1 = Return tt ↔ load_ok ∧ rows_after = csv_row_count) ∧
  (load_ok → rows_after = csv_row_count →
   run no_fault self db = (Return tt, loaded text db)) ∧
  (load_ok → rows_after ≠ csv_row_count →
   run no_fault self db =
     (Raise (AssertionError csv_row_count rows_after), loaded text db)) ∧
  (¬ load_ok → ∃ e, run no_fault self db = (Raise e, db)).
Proof. apply run_no_fault_outcomes. Qed.

(** X8.  [run] is not repeatable.  On an engine without faults of its
    own, after a [run] that returned for a file with at least one record,
    a second [run] on the same file loads every record a second time,
    commits, and then raises [AssertionError]: the table is left with the
    records of the file twice. *)
Theorem run_twice_fails_validation self db db1 :
  1 ≤ batch_size self → csv_records (csv_text self) ≠ [] →
  run no_fault self db = (Return tt, db1) →
  db1 = loaded (csv_text self) db ∧
  run no_fault self db1 =
    (Raise (AssertionError
              (Z.of_nat (csv_lines (csv_text self)) - 1)
              (Z.of_nat (row_count db1) + Z.of_nat (length (csv_records (csv_text self))))),
     loaded (csv_text self) db1) ∧
  row_count (loaded (csv_text self) db1) =
    (row_count db + 2 * length (csv_records (csv_text self)))%nat.
Proof.
  intros Hb Hne Hrun.
  assert ((run no_fault self db).1 = Return tt) as Hr by by rewrite Hrun.
  assert (1 ≤ batch_size self ≤ maxsize) as Hbm.
  { split; [done|]. eapply load_data_returns_bound, run_returns_load_returns, Hr. }
  apply run_no_fault_returns in Hr as [(Ht & Hf & Hfit) Hcount]; [|done].
  destruct (run_no_fault_cases self db Hb) as [[_ Hv]|[Hl _]];
    [|destruct Hl; by apply load_data_no_fault_returns].
  rewrite Hv, validate_data_load_eq in Hrun.
  case_decide; [|done]. injection Hrun as <-. split; [done|].
  assert (transaction (loaded (csv_text self) db) = None) as Ht1 by done.
  destruct (run_no_fault_cases self (loaded (csv_text self) db) Hb)
    as [[_ ->]|[Hl _]]; [|destruct Hl; by apply load_data_no_fault_returns].
  rewrite validate_data_load_eq, !row_count_loaded by done.
  assert (0 < length (csv_records (csv_text self)))%nat
    by (destruct (csv_records (csv_text self)); [done|simpl; lia]).
  split; [|lia]. rewrite decide_False by lia.
  do 3 f_equal. lia.
Qed.

End NoFaultExtras.

(** ** Header names and columns *)

Section Header.
Import DataLoader.
Implicit Types (fieldnames row : list str) (key : str).

Lemma foldl_insert_lookup_ne {V} (g : str * str → V)
    (kvs : list (str * str)) (d0 : gmap str V) key :
  key ∉ kvs.*1 →
  foldl (λ d kv, <[kv.1 := g kv]> d) d0 kvs !! key = d0 !! key.
Proof.
  revert d0. induction kvs as [|[k v] kvs IH]; intros d0 Hk; [done|].
  rewrite fmap_cons, not_elem_of_cons in Hk. destruct Hk as [Hne Hk].
  simpl. rewrite IH by done. by apply lookup_insert_ne.
Qed.

Lemma foldl_insert_None_lookup (keys : list str)
    (d0 : gmap str (option str)) key :
  foldl (λ d k, <[k := None]> d) d0 keys !! key =
  if decide (key ∈ keys) then Some None else d0 !! key.
Proof.
  revert d0. induction keys as [|k keys IH]; intros d0; cbn [foldl].
  - rewrite decide_False; [done|]. apply not_elem_of_nil.
  - rewrite IH. destruct (decide (key ∈ keys)) as [Hin|Hin].
    + rewrite decide_True; [done|]. by right.
    + destruct (decide (key = k)) as [->|Hne].
      * rewrite decide_True by left. by rewrite lookup_insert_eq.
      * rewrite decide_False by (rewrite elem_of_cons; tauto).
        by apply lookup_insert_ne.
Qed.

Lemma elem_of_drop_elem_of {A} (l : list A) n x : x ∈ drop n l → x ∈ l.
Proof.
  intros [i Hi]%list_elem_of_lookup. rewrite lookup_drop in Hi.
  by eapply list_elem_of_lookup_2.
Qed.

Lemma zip_keys_subseteq fieldnames row key :
  key ∈ (zip fieldnames row).*1 → key ∈ fieldnames.
Proof.
  revert row. induction fieldnames as [|f fs IH]; intros [|v row]; simpl;
    try (by intros ?%elem_of_nil).
  rewrite !elem_of_cons. intros [->|?]; [by left|right]. by eapply IH.
Qed.

Lemma foldl_zip_lookup fieldnames row (d0 : gmap str (option str)) j key :
  NoDup fieldnames → fieldnames !! j = Some key →
  foldl (λ d kv, <[kv.1 := Some kv.2]> d) d0 (zip fieldnames row) !! key =
  match row !! j with
  | Some v => Some (Some v)
  | None => d0 !! key
  end.
Proof.
  revert row d0 j. induction fieldnames as [|f fs IH]; intros row d0 j Hnd Hj; [done|].
  apply NoDup_cons in Hnd as [Hf Hnd].
  destruct row as [|v row]; [done|]. simpl.
  destruct j as [|j]; simpl in *.
  - injection Hj as ->.
    rewrite (foldl_insert_lookup_ne (λ kv, Some kv.2)).
    + by rewrite lookup_insert_eq.
    + intros Hin%zip_keys_subseteq. done.
  - rewrite (IH _ _ j) by done. destruct (row !! j); [done|].
    apply lookup_insert_ne. intros ->. apply Hf. by eapply list_elem_of_lookup_2.
Qed.

(** A name the header lacks is a key the rows lack. *)
Lemma make_dict_lookup_None fieldnames row key :
  key ∉ fieldnames → Csv.make_dict fieldnames row !! key = None.
Proof.
  intros Hk. unfold Csv.make_dict. rewrite foldl_insert_None_lookup.
  rewrite decide_False by (intros ?%elem_of_drop_elem_of; done).
  rewrite (foldl_insert_lookup_ne (λ kv, Some kv.2)); [done|].
  intros ?%zip_keys_subseteq. done.
Qed.

(** With distinct names in the header, the value under a name is the
    field at the place of that name, if the row is long enough. *)
Lemma get_make_dict fieldnames row j key :
  NoDup fieldnames → fieldnames !! j = Some key →
  Csv.get (Csv.make_dict fieldnames row) key = row !! j.
Proof.
  intros Hnd Hj. unfold Csv.get, Csv.make_dict.
  rewrite foldl_insert_None_lookup, (foldl_zip_lookup _ _ _ j) by done.
  destruct (decide (key ∈ drop (length row) fieldnames)) as [Hin|Hin].
  - apply list_elem_of_lookup in Hin as [k Hk]. rewrite lookup_drop in Hk.
    pose proof (NoDup_lookup _ _ _ _ Hnd Hj Hk) as ->.
    rewrite lookup_ge_None_2 by lia. done.
  - destruct (row !! j) as [v|] eqn:Hv; [done|].
    apply lookup_ge_None in Hv. destruct Hin.
    apply list_elem_of_lookup. exists (j - length row)%nat.
    rewrite lookup_drop. by replace (length row + (j - length row))%nat with j by lia.
Qed.

Lemma csv_records_make_dict text header rows :
  items (Csv.reader (TextFile.readlines_untranslated text)) = header :: rows →
  csv_records text = Csv.make_dict header <$> filter (λ row, row ≠ []) rows.
Proof. intros Hi. unfold csv_records, Csv.DictReader. by rewrite Hi. Qed.

Lemma convert_row_lookup d i csv_col db_col :
  CSV_TO_DB_COLUMNS !! i = Some (csv_col, db_col) →
  convert_row d !! i = Some (_convert_value db_col (Csv.get d (lit csv_col))).
Proof. intros Hi. unfold convert_row. by rewrite list_lookup_fmap, Hi. Qed.

(** X9.  The loader finds the columns of the file by the names in
    its header line.  When the header has no field named as one of the
    seventeen names the loader expects, [row.get] finds nothing for that
    column in any record, and the parameter bound to the column is [None]
    for every row: the column is loaded as [NULL] throughout, without any
    error. *)
Theorem missing_column_is_null text header rows i csv_col db_col d :
  items (Csv.reader (TextFile.readlines_untranslated text)) = header :: rows →
  CSV_TO_DB_COLUMNS !! i = Some (csv_col, db_col) →
  lit csv_col ∉ header →
  d ∈ csv_records text →
  Csv.get d (lit csv_col) = None ∧ convert_row d !! i = Some VNone.
Proof.
  intros Hi Hc Hk Hd. rewrite (csv_records_make_dict _ _ _ Hi) in Hd.
  apply list_elem_of_fmap in Hd as (row & -> & _).
  assert (Csv.get (Csv.make_dict header row) (lit csv_col) = None) as Hget
    by (unfold Csv.get; by rewrite make_dict_lookup_None).
  split; [done|]. by rewrite (convert_row_lookup _ _ _ _ Hc), Hget.
Qed.

(** X10.  When the names in the header are distinct, the place of a
    column in the file does not matter: for the column whose name stands
    at place [j] of the header, the parameter of every inserted row is the
    conversion of field [j] of the record it comes from (of nothing, when
    the record has fewer fields), blank lines being skipped. *)
Theorem columns_read_by_name text header rows i j csv_col db_col :
  items (Csv.reader (TextFile.readlines_untranslated text)) = header :: rows →
  CSV_TO_DB_COLUMNS !! i = Some (csv_col, db_col) →
  NoDup header → header !! j = Some (lit csv_col) →
  (λ params, params !! i) <$> (convert_row <$> csv_records text) =
  (λ row, Some (_convert_value db_col (row !! j))) <$> filter (λ row, row ≠ []) rows.
Proof.
  intros Hi Hc Hnd Hj. rewrite (csv_records_make_dict _ _ _ Hi).
  rewrite <- !list_fmap_compose. apply list_fmap_ext. intros _ row _. simpl.
  by rewrite (convert_row_lookup _ _ _ _ Hc), (get_make_dict _ _ j).
Qed.

End Header.

(** ** [int()] on decimal numerals *)

Section IntRoundTrip.
Import Py.

Lemma lit_cons c s : lit (String c s) = ord c :: lit s.
Proof. reflexivity. Qed.

Lemma digit_cases d :
  (d < 10)%N →
  (d = 0 ∨ d = 1 ∨ d = 2 ∨ d = 3 ∨ d = 4 ∨ d = 5 ∨ d = 6 ∨ d = 7 ∨ d = 8 ∨ d = 9)%N.
Proof. lia. Qed.

(** A digit that [pretty] writes is an ASCII digit, which the
    transformation to ASCII keeps. *)
Lemma digit_value_pretty_N_char d :
  (d < 10)%N →
  to_ascii (ord (pretty_N_char d)) = ord (pretty_N_char d) ∧
  digit_value (ord (pretty_N_char d)) = Some (Z.of_N d) ∧
  (ord (pretty_N_char d) =? ord "+")%N = false ∧
  (ord (pretty_N_char d) =? ord "-")%N = false ∧
  (ord (pretty_N_char d) =? ord "_")%N = false ∧
  isspace (ord (pretty_N_char d)) = false.
Proof.
  intros Hd.
  pose proof (digit_cases d Hd) as Hcases.
  repeat (destruct Hcases as [->|Hcases]; [by vm_compute|]). subst. by vm_compute.
Qed.

(** Reading the digits that [pretty] wrote, most significant first: [k]
    is the number of digits of [x]. *)
Lemma scan_digits_pretty_N_go x :
  ∃ k : N,
    (x = 0 → k = 0)%N ∧
    (0 < x → 0 < k ∧ 10 ^ (k - 1) ≤ x)%N ∧
    ∀ s acc n,
      scan_digits false acc n (to_ascii <$> lit (pretty_N_go x s)) =
      scan_digits false (acc * 10 ^ Z.of_N k + Z.of_N x) (n + k)%N
        (to_ascii <$> lit s).
Proof.
  induction (N.lt_wf_0 x) as [x _ IH].
  destruct (decide (x = 0)%N) as [->|Hx].
  - exists 0%N. split; [done|]. split; [lia|]. intros s acc n.
    rewrite pretty_N_go_0. f_equal; [simpl; lia|lia].
  - assert (0 < x)%N as Hpos by lia.
    destruct (IH (x `div` 10)%N) as (k & Hk0 & Hk & Heq); [by apply N.div_lt|].
    pose proof (N.div_mod x 10 ltac:(lia)) as Hdm.
    pose proof (N.mod_lt x 10 ltac:(lia)) as Hmod.
    exists (N.succ k). split; [lia|]. split.
    + intros _. split; [lia|]. replace (N.succ k - 1)%N with k by lia.
      destruct (decide (x `div` 10 = 0)%N) as [Hz|Hnz].
      * rewrite (Hk0 Hz). simpl. lia.
      * destruct Hk as [Hk1 Hk2]; [lia|].
        replace k with (N.succ (k - 1)) at 1 by lia. rewrite N.pow_succ_r by lia.
        revert Hk2 Hdm. generalize (10 ^ (k - 1))%N (x `div` 10)%N (x `mod` 10)%N.
        clear. lia.
    + intros s acc n. rewrite pretty_N_go_step by done. rewrite Heq.
      rewrite lit_cons, fmap_cons.
      destruct (digit_value_pretty_N_char (x `mod` 10)%N) as (-> & Hdv & _); [done|].
      cbn [scan_digits]. rewrite Hdv.
      f_equal; [|lia].
      rewrite N2Z.inj_succ, Z.pow_succ_r by lia.
      apply (f_equal Z.of_N) in Hdm.
      rewrite N2Z.inj_add, N2Z.inj_mul in Hdm. simpl Z.of_N in Hdm. lia.
Qed.

(** A numeral starts with a digit. *)
Lemma pretty_N_go_head x s :
  (0 < x)%N → ∃ d s', (d < 10)%N ∧ pretty_N_go x s = String (pretty_N_char d) s'.
Proof.
  revert s. induction (N.lt_wf_0 x) as [x _ IH]; intros s Hpos.
  rewrite pretty_N_go_step by done.
  destruct (decide (x `div` 10 = 0)%N) as [Hz|Hnz].
  - rewrite Hz, pretty_N_go_0. eexists _, _. split; [|done]. apply N.mod_lt. lia.
  - apply IH; [apply N.div_lt; lia|by apply N.neq_0_lt_0].
Qed.

Lemma digits_bound k x :
  (0 < k)%N → (10 ^ (k - 1) ≤ x)%N → (x < 10 ^ 4300)%N → (k ≤ 4300)%N.
Proof.
  intros Hk Hle Hlt. destruct (N.le_gt_cases k 4300) as [|Hgt]; [done|].
  assert (10 ^ 4300 ≤ 10 ^ (k - 1))%N as Hpow
    by (apply N.pow_le_mono_r; [done|clear -Hgt; lia]).
  exfalso. eapply N.lt_irrefl, N.lt_le_trans; [exact Hlt|]. by etrans.
Qed.

Lemma int_unsigned_digit_head c t :
  (c =? ord "_")%N = false →
  int_unsigned (c :: t) =
  match scan_digits false 0 0 (c :: t) with
  | Some (v, n, rest) =>
      if (n =? 0)%N then None
      else if (max_str_digits <? n)%N then None
      else if all_space rest then Some v else None
  | None => None
  end.
Proof.
  intros Hc. unfold int_unsigned. rewrite bool_decide_eq_false_2; [done|].
  cbn [head]. intros [= ->]. by rewrite N.eqb_refl in Hc.
Qed.

Lemma int_unsigned_pretty_N_go x :
  (0 < x)%N → (x < 10 ^ 4300)%N →
  int_unsigned (to_ascii <$> lit (pretty_N_go x EmptyString)) = Some (Z.of_N x).
Proof.
  intros Hpos Hlt.
  destruct (scan_digits_pretty_N_go x) as (k & _ & Hk & Heq).
  destruct (Hk Hpos) as [Hk1 Hk2].
  pose proof (digits_bound k x Hk1 Hk2 Hlt) as Hle. clear Hlt.
  destruct (pretty_N_go_head x EmptyString Hpos) as (d & s' & Hd & Hs).
  destruct (digit_value_pretty_N_char d Hd) as (Ha & _ & _ & _ & Hu & _).
  assert (int_unsigned (to_ascii <$> lit (pretty_N_go x EmptyString)) =
          match scan_digits false 0 0 (to_ascii <$> lit (pretty_N_go x EmptyString)) with
          | Some (v, n, rest) =>
              if (n =? 0)%N then None
              else if (max_str_digits <? n)%N then None
              else if all_space rest then Some v else None
          | None => None
          end) as ->.
  { rewrite Hs, lit_cons, fmap_cons, Ha. by apply int_unsigned_digit_head. }
  rewrite Heq. change (to_ascii <$> lit EmptyString) with (@nil N).
  cbn [scan_digits all_space].
  destruct (N.eqb_spec (0 + k) 0); [lia|].
  unfold max_str_digits. destruct (N.ltb_spec 4300 (0 + k)); [lia|].
  f_equal; lia.
Qed.

Lemma int_pretty_N_go x :
  (0 < x)%N → (x < 10 ^ 4300)%N →
  int (lit (pretty_N_go x EmptyString)) = Some (Z.of_N x).
Proof.
  intros Hpos Hlt. rewrite <- int_unsigned_pretty_N_go by done.
  destruct (pretty_N_go_head x EmptyString Hpos) as (d & s' & Hd & ->).
  destruct (digit_value_pretty_N_char d Hd) as (Ha & _ & Hp & Hm & _ & Hsp).
  unfold int, int_ascii. rewrite lit_cons, fmap_cons, Ha.
  cbn [lstrip]. by rewrite Hsp, Hp, Hm.
Qed.

(** [int(str(z)) == z], as long as [z] has at most 4300 digits. *)
Lemma int_pretty (z : Z) : Z.abs z < 10 ^ 4300 → int (lit (pretty z)) = Some z.
Proof.
  intros Hz. destruct z as [|p|p].
  - reflexivity.
  - change (pretty (Z.pos p)) with (pretty_N_go (N.pos p) EmptyString).
    rewrite int_pretty_N_go; [done..|].
    apply N2Z.inj_lt. rewrite N2Z.inj_pow. exact Hz.
  - change (pretty (Z.neg p))
      with (String "-" (pretty_N_go (N.pos p) EmptyString)).
    change (int (lit (String "-" ?s)))
      with (Z.opp <$> int_unsigned (to_ascii <$> lit s)).
    rewrite int_unsigned_pretty_N_go; [done..|].
    apply N2Z.inj_lt. rewrite N2Z.inj_pow. exact Hz.
Qed.

Lemma pretty_Z_nonempty (z : Z) : lit (pretty z) ≠ [].
Proof.
  destruct z as [|p|p]; [done| |done].
  change (pretty (Z.pos p)) with (pretty_N_go (N.pos p) EmptyString).
  destruct (pretty_N_go_head (N.pos p) EmptyString) as (d & s' & _ & ->); [lia|done].
Qed.

End IntRoundTrip.

(** X11.  [_convert_value] reads back what Python prints for an
    integer: on each of the four numeric columns the decimal numeral of
    an integer of at most 4300 digits (the limit of [int()]) converts to
    that integer, zero and negative numbers included (the numeral of zero
    is a string that is not empty, so it is not taken for a missing
    value); on every other column the same text is kept as the string it
    is. *)
Theorem convert_value_int_round_trip col (z : Z) :
  Z.abs z < 10 ^ 4300 →
  DataLoader._convert_value col (Some (lit (pretty z))) =
  if bool_decide (col ∈ numeric_columns) then VInt z else VStr (lit (pretty z)).
Proof.
  intros Hz. unfold DataLoader._convert_value.
  pose proof (pretty_Z_nonempty z) as Hne.
  destruct (lit (pretty z)) as [|c s] eqn:E; [done|].
  rewrite converters_lookup. case_bool_decide; [|done].
  by rewrite <- E, int_pretty.
Qed.

(** ** [int()] and surrounding blanks *)

Section IntBlanks.
Import Py.

Lemma isspace_cases c :
  isspace c = true →
  (c = 9 ∨ c = 10 ∨ c = 11 ∨ c = 12 ∨ c = 13 ∨ c = 32)%N.
Proof.
  unfold isspace. rewrite orb_true_iff, andb_true_iff, !N.leb_le, N.eqb_eq. lia.
Qed.

Lemma isspace_not_digit c :
  isspace c = true →
  to_ascii c = c ∧ digit_value c = None ∧ (c =? ord "_")%N = false ∧
  (c =? ord "+")%N = false ∧ (c =? ord "-")%N = false.
Proof.
  intros Hcases%isspace_cases.
  repeat (destruct Hcases as [->|Hcases]; [by vm_compute|]). subst. by vm_compute.
Qed.

(** The blanks of [int()] are ASCII: the transformation keeps them. *)
Lemma all_space_to_ascii ws : all_space ws = true → to_ascii <$> ws = ws.
Proof.
  induction ws as [|c ws IH]; [done|]. cbn [all_space].
  intros [Hc Hws]%andb_true_iff. rewrite fmap_cons, IH by done.
  by destruct (isspace_not_digit c Hc) as (-> & _).
Qed.

Lemma lstrip_app_space ws s : all_space ws = true → lstrip (ws ++ s) = lstrip s.
Proof.
  induction ws as [|c ws IH]; [done|]. simpl.
  intros [Hc Hws]%andb_true_iff. rewrite Hc. by apply IH.
Qed.

Lemma all_space_app s ws :
  all_space ws = true → all_space (s ++ ws) = all_space s.
Proof.
  intros Hws. induction s as [|c s IH]; [done|]. simpl. by rewrite IH.
Qed.

Lemma scan_digits_app_space s ws prev acc n :
  all_space ws = true →
  scan_digits prev acc n (s ++ ws) =
  (λ '(v, k, rest), (v, k, rest ++ ws)) <$> scan_digits prev acc n s.
Proof.
  intros Hws. revert prev acc n. induction s as [|c s IH]; intros prev acc n.
  - simpl. destruct ws as [|c ws]; [by destruct prev|].
    simpl in Hws. apply andb_true_iff in Hws as [Hc _].
    destruct (isspace_not_digit c Hc) as (_ & Hd & Hu & _).
    cbn [scan_digits]. rewrite Hd, Hu. by destruct prev.
  - cbn [scan_digits app]. destruct (digit_value c); [apply IH|].
    destruct (c =? ord "_")%N; destruct prev; first [done|apply IH].
Qed.

Lemma int_unsigned_app_space s ws :
  all_space ws = true → int_unsigned (s ++ ws) = int_unsigned s.
Proof.
  intros Hws. unfold int_unsigned. destruct s as [|c s].
  - rewrite app_nil_l. destruct ws as [|c ws]; [done|]. simpl in Hws.
    apply andb_true_iff in Hws as [Hc _].
    destruct (isspace_not_digit c Hc) as (_ & Hd & Hu & _).
    rewrite bool_decide_eq_false_2
      by (cbn [head]; intros [= ->]; by rewrite N.eqb_refl in Hu).
    cbn [scan_digits]. by rewrite Hd, Hu.
  - rewrite scan_digits_app_space by done.
    change (head ((c :: s) ++ ws)) with (head (c :: s)).
    case_bool_decide; [done|].
    destruct (scan_digits false 0 0 (c :: s)) as [[[v k] rest]|]; [|done].
    simpl. by rewrite all_space_app.
Qed.

Lemma lstrip_all_space s : all_space s = true → lstrip s = [].
Proof.
  induction s as [|c s IH]; [done|]. simpl.
  intros [-> ?]%andb_true_iff. auto.
Qed.

Lemma lstrip_app_r s ws :
  all_space ws = true →
  lstrip (s ++ ws) = if all_space s then [] else lstrip s ++ ws.
Proof.
  intros Hws. induction s as [|c s IH]; simpl.
  - by apply lstrip_all_space.
  - destruct (isspace c); [apply IH|done].
Qed.

Lemma int_ascii_strip ws1 s ws2 :
  all_space ws1 = true → all_space ws2 = true →
  int_ascii (ws1 ++ s ++ ws2) = int_ascii s.
Proof.
  intros H1 H2. unfold int_ascii. rewrite lstrip_app_space, lstrip_app_r by done.
  destruct (all_space s) eqn:Es.
  - by rewrite lstrip_all_space.
  - destruct (lstrip s) as [|c t] eqn:El.
    + exfalso. clear -Es El. induction s as [|c s IH]; [done|]. simpl in *.
      destruct (isspace c); [auto|done].
    + rewrite <- app_comm_cons. cbv beta iota.
      rewrite (int_unsigned_app_space t) by done.
      rewrite app_comm_cons. by rewrite (int_unsigned_app_space (c :: t)).
Qed.

(** Blanks before and after a number do not change what [int()]
    reads. *)
Lemma int_strip ws1 s ws2 :
  all_space ws1 = true → all_space ws2 = true →
  int (ws1 ++ s ++ ws2) = int s.
Proof.
  intros H1 H2. unfold int.
  rewrite !fmap_app, (all_space_to_ascii ws1), (all_space_to_ascii ws2) by done.
  by apply int_ascii_strip.
Qed.

End IntBlanks.

(** X12.  On the four numeric columns [_convert_value] ignores
    blanks (spaces, tabs, line breaks) around the number, since [int()]
    does: the value with blanks before and after converts to what the
    value alone converts to.  On every other column a value that is not
    empty is kept with its blanks. *)
Theorem convert_value_ignores_blanks col ws1 s ws2 :
  Py.all_space ws1 = true → Py.all_space ws2 = true →
  DataLoader._convert_value col (Some (ws1 ++ s ++ ws2)) =
  if bool_decide (col ∈ numeric_columns)
  then DataLoader._convert_value col (Some s)
  else if decide (ws1 ++ s ++ ws2 = []) then VNone
       else VStr (ws1 ++ s ++ ws2).
Proof.
  intros H1 H2. case_bool_decide as Hcol.
  - rewrite !convert_value_number
      by (rewrite converters_lookup; by rewrite bool_decide_eq_true_2).
    simpl. by rewrite int_strip.
  - rewrite convert_value_text
      by (rewrite converters_lookup; by rewrite bool_decide_eq_false_2).
    cbv beta iota. by repeat case_decide.
Qed.

(** ** Lines, records and the validation *)

Section LineAccount.
Import TextFile Csv.

Lemma parse_add_char_total r c : parse_add_char r c ≠ Diverge.
Proof. unfold parse_add_char. by case_match. Qed.

Lemma parse_process_char_total r c : parse_process_char r c ≠ Diverge.
Proof.
  unfold parse_process_char, start_field.
  pose proof (parse_add_char_total r) as Hadd.
  pose proof (parse_add_char_total (set_state START_FIELD r)) as Hadd'.
  destruct (state r), c as [ch|]; try done;
    repeat case_match; try done;
    try (specialize (Hadd ch); destruct (parse_add_char r ch); done);
    try (specialize (Hadd' ch); destruct (parse_add_char _ ch); done).
Qed.

Lemma parse_chars_total r line : parse_chars r line ≠ Diverge.
Proof.
  revert r. induction line as [|c line IH]; intros r; [done|].
  cbn [parse_chars]. pose proof (parse_process_char_total r (Some c)).
  destruct (parse_process_char r (Some c)); try done. apply IH.
Qed.

Lemma parse_line_total r line : parse_line r line ≠ Diverge.
Proof.
  unfold parse_line. pose proof (parse_chars_total r line).
  destruct (parse_chars r line) as [r'| |]; try done.
  apply parse_process_char_total.
Qed.

(** At the end of a line the automaton is between two records or inside a
    quoted field. *)
Lemma parse_line_state r line r' :
  parse_line r line = Return r' →
  state r' = START_RECORD ∨ state r' = IN_QUOTED_FIELD.
Proof.
  unfold parse_line. destruct (parse_chars r line) as [r0| |]; try done.
  simpl. unfold parse_process_char, start_field.
  destruct (state r0) eqn:E; intros [= <-]; simpl; auto.
Qed.

Lemma reader_from_account r lines :
  lines ≠ [] → failure (reader_from r lines) = None →
  (length (items (reader_from r lines)) + continued_lines_from r lines =
   length lines)%nat.
Proof.
  revert r. induction lines as [|line lines IH]; intros r Hne; [done|].
  cbn [reader_from continued_lines_from].
  pose proof (parse_line_total r line) as Htot.
  destruct (parse_line r line) as [r'|e|] eqn:Ep; [|done..].
  destruct (decide (lines = [])) as [->|Hl].
  - case_decide as Hst; cbn.
    + rewrite bool_decide_eq_false_2; [done|]. simpl. intros [?|?]; done.
    + destruct (parse_line_state _ _ _ Ep) as [?|Hq]; [done|].
      rewrite bool_decide_eq_true_2 by (by right). done.
  - case_decide as Hst; cbn [items failure]; intros Hf.
    + specialize (IH parse_reset Hl Hf). simpl. lia.
    + specialize (IH r' Hl Hf). rewrite bool_decide_eq_true_2 by done.
      simpl. lia.
Qed.

Lemma continued_lines_from_lt r lines :
  lines ≠ [] → (continued_lines_from r lines < length lines)%nat.
Proof.
  revert r. induction lines as [|line lines IH]; intros r Hne; [done|].
  cbn [continued_lines_from]. destruct (parse_line r line) as [r'|e|]; simpl; try lia.
  destruct (decide (lines = [])) as [->|Hl].
  - case_decide; simpl; lia.
  - case_decide.
    + specialize (IH parse_reset Hl). lia.
    + specialize (IH r' Hl). rewrite bool_decide_eq_true_2 by done. lia.
Qed.

Lemma length_blank_rows (rows : list (list str)) :
  (length (filter (λ row, row ≠ []) rows) + length (filter (λ row, row = []) rows) =
   length rows)%nat.
Proof.
  induction rows as [|row rows IH]; [done|].
  destruct (decide (row = [])).
  - rewrite filter_cons_False, filter_cons_True by tauto. simpl. lia.
  - rewrite filter_cons_True, filter_cons_False by tauto. simpl. lia.
Qed.

Lemma csv_error_reader text :
  csv_error text = failure (reader (readlines_untranslated text)).
Proof.
  unfold csv_error, DictReader. by destruct (items (reader _)).
Qed.

(** Every line after the header is a record, a blank line or the
    continuation of a record. *)
Lemma csv_lines_account text :
  (0 < csv_lines text)%nat → csv_error text = None →
  (length (csv_records text) + blank_lines text + continued_lines text =
   csv_lines text - 1)%nat.
Proof.
  intros Hl Hf. rewrite csv_error_reader in Hf.
  unfold csv_lines in *. rewrite readlines_length in *.
  unfold csv_records, blank_lines, continued_lines, DictReader.
  pose proof (reader_from_account parse_reset (readlines_untranslated text)) as Hacc.
  pose proof (continued_lines_from_lt parse_reset (readlines_untranslated text)) as Hlt.
  unfold reader in *.
  destruct (readlines_untranslated text) as [|l ls] eqn:El; [simpl in Hl; lia|].
  specialize (Hacc ltac:(done) Hf). specialize (Hlt ltac:(done)).
  destruct (items (reader_from parse_reset (l :: ls))) as [|h rows]; [simpl in *; lia|].
  cbn [tail items]. rewrite length_fmap.
  pose proof (length_blank_rows rows) as Hs.
  simpl in *. lia.
Qed.

End LineAccount.

(** X13.  In a CSV file that is not empty and that [csv] reads to its
    end, every line after the header line is a data record, a blank line
    (which [csv.DictReader] skips) or the continuation of a record whose
    quoted field runs over the line break: the number of records that
    [load_data] reads, the number of blank lines and the number of
    continued lines add up to the number of lines less one, which is what
    [validate_data_load] compares the table with. *)
Theorem lines_are_records_blank_or_continued text :
  (0 < csv_lines text)%nat → csv_error text = None →
  (length (csv_records text) + blank_lines text + continued_lines text =
   csv_lines text - 1)%nat.
Proof. apply csv_lines_account. Qed.

(** X14.  On an engine without faults of its own and with a batch size
    from 1 to [sys.maxsize], [run] returns exactly when the load succeeds on a file
    that is not empty and the table held, before the call, as many rows
    as the file has blank and continued lines.  For a table that was
    empty: exactly when the load succeeds and the file has a header line,
    no blank line after it and no record that runs over a line break. *)
Theorem run_succeeds_iff_one_record_per_line self db :
  1 ≤ DataLoader.batch_size self ≤ maxsize →
  let text := DataLoader.csv_text self in
  let load_ok := transaction db = None ∧ csv_error text = None ∧
                 Forall (λ d, fits d = true) (csv_records text) in
  ((DataLoader.run no_fault self db).1 = Return tt ↔
   load_ok ∧ (0 < csv_lines text)%nat ∧
   row_count db = (blank_lines text + continued_lines text)%nat) ∧
  (row_count db = 0%nat →
   ((DataLoader.run no_fault self db).1 = Return tt ↔
    load_ok ∧ (0 < csv_lines text)%nat ∧
    blank_lines text = 0%nat ∧ continued_lines text = 0%nat)).
Proof.
  intros Hb. cbv zeta.
  assert ((DataLoader.run no_fault self db).1 = Return tt ↔
          (transaction db = None ∧ csv_error (DataLoader.csv_text self) = None ∧
           Forall (λ d, fits d = true) (csv_records (DataLoader.csv_text self))) ∧
          (0 < csv_lines (DataLoader.csv_text self))%nat ∧
          row_count db = (blank_lines (DataLoader.csv_text self) +
                          continued_lines (DataLoader.csv_text self))%nat) as Hiff.
  { rewrite run_no_fault_returns by done. split.
    - intros [(Ht & Hf & Hfit) Hc].
      assert (0 < csv_lines (DataLoader.csv_text self))%nat as Hl by lia.
      pose proof (csv_lines_account _ Hl Hf). split; [done|]. split; [done|]. lia.
    - intros ((Ht & Hf & Hfit) & Hl & Hc).
      pose proof (csv_lines_account _ Hl Hf). split; [done|]. lia. }
  split; [done|]. intros H0. rewrite Hiff, H0.
  split; intros (? & ? & ?); (split; [done|]); (split; [done|]); lia.
Qed.

(** * Further properties of the reporter *)

(** ** Counts add up *)

Section CountFacts.
Import Sql.
Context {A K : Type} `{EqDecision K}.
Implicit Types (key : A → K) (rows : list A).

Lemma count_by_cons key k r rows :
  count_by key k (r :: rows) =
  ((if decide (key r = k) then 1 else 0) + count_by key k rows)%nat.
Proof.
  unfold count_by. destruct (decide (key r = k)).
  - by rewrite filter_cons_True.
  - by rewrite filter_cons_False.
Qed.

Lemma sum_count_by_cons key (ks : list K) r rows :
  NoDup ks →
  sum_list ((λ k, count_by key k (r :: rows)) <$> ks) =
  ((if decide (key r ∈ ks) then 1 else 0)
   + sum_list ((λ k, count_by key k rows) <$> ks))%nat.
Proof.
  induction 1 as [|k ks Hk Hnd IH].
  - rewrite decide_False; [done|]. apply not_elem_of_nil.
  - rewrite !fmap_cons. cbn [sum_list_with]. rewrite IH, count_by_cons. unfold id.
    destruct (decide (key r = k)) as [Heq|Hne].
    + destruct (decide (key r ∈ ks)) as [Hin|Hin]; [by rewrite Heq in Hin|].
      destruct (decide (key r ∈ k :: ks)) as [Hin2|Hin2]; [lia|].
      destruct Hin2. rewrite Heq. left.
    + destruct (decide (key r ∈ ks)) as [Hin|Hin].
      * destruct (decide (key r ∈ k :: ks)) as [Hin2|Hin2]; [lia|].
        destruct Hin2. by right.
      * destruct (decide (key r ∈ k :: ks)) as [Hin2|Hin2]; [|lia].
        apply elem_of_cons in Hin2 as [?|?]; done.
Qed.

Lemma sum_count_by key (ks : list K) rows :
  NoDup ks → (∀ r, r ∈ rows → key r ∈ ks) →
  sum_list ((λ k, count_by key k rows) <$> ks) = length rows.
Proof.
  intros Hnd. induction rows as [|r rows IH]; intros Hks.
  - clear. induction ks as [|k ks IH]; [done|].
    rewrite fmap_cons. cbn [sum_list_with]. by rewrite IH.
  - rewrite sum_count_by_cons by done.
    rewrite decide_True by (apply Hks; left).
    rewrite IH by (intros r' ?; apply Hks; by right). done.
Qed.

(** Every row is counted in exactly one group. *)
Lemma sum_group_count key rows :
  sum_list (group_count key rows).*2 = length rows.
Proof.
  unfold group_count. rewrite <- list_fmap_compose.
  apply (sum_count_by key (remove_dups (key <$> rows)) rows); [apply NoDup_remove_dups|].
  intros r Hr. apply elem_of_remove_dups, list_elem_of_fmap. eauto.
Qed.

Lemma sum_list_take (l : list nat) n : (sum_list (take n l) ≤ sum_list l)%nat.
Proof.
  rewrite <- (take_drop n l) at 2. rewrite sum_list_with_app. lia.
Qed.

End CountFacts.

(** ** The reporter: the other two queries *)

Section QueryExtras.
Import Sql Analytics.

(** X15.  [count_cars_by_model_year] returns one row per distinct
    [Model_Year] of the table, the missing year ([NULL]) being one of them
    when some row has none; each row pairs the year with the number of
    rows of that year, which is at least 1; the rows are in descending
    order of that number; and the numbers add up to the size of the
    table. *)
Theorem count_cars_by_model_year_spec db :
  let result := count_cars_by_model_year db in
  NoDup result.*1 ∧
  (∀ year, year ∈ result.*1 ↔ year ∈ Model_Year <$> visible db) ∧
  (∀ year n, (year, n) ∈ result →
     n = count_by Model_Year year (visible db) ∧ (0 < n)%nat) ∧
  StronglySorted (λ row1 row2, (row2.2 ≤ row1.2)%nat) result ∧
  sum_list result.*2 = row_count db.
Proof.
  cbv zeta. unfold count_cars_by_model_year.
  pose proof (order_by_desc_perm snd (group_count Model_Year (visible db))) as Hp.
  assert ((order_by_desc snd (group_count Model_Year (visible db))).*1 ≡ₚ
          remove_dups (Model_Year <$> visible db)) as Hk.
  { rewrite Hp. by rewrite group_count_keys. }
  split; [rewrite Hk; apply NoDup_remove_dups|].
  split; [intros year; rewrite Hk; apply elem_of_remove_dups|].
  split.
  { intros year n Hin. rewrite Hp in Hin.
    apply elem_of_group_count in Hin as [Hy ->]. split; [done|].
    by apply count_by_pos. }
  split; [apply (order_by_desc_sorted snd)|].
  rewrite Hp. apply sum_group_count.
Qed.

(** X16.  In the result of [count_cars_per_city] every count is at
    least 1 and the counts add up to the size of the table: every
    registration is counted once, under its city or under the missing
    city. *)
Theorem count_cars_per_city_adds_up db :
  (∀ city n, (city, n) ∈ count_cars_per_city db → (0 < n)%nat) ∧
  sum_list (count_cars_per_city db).*2 = row_count db.
Proof.
  unfold count_cars_per_city.
  pose proof (order_by_desc_perm snd (group_count City (visible db))) as Hp.
  split.
  - intros city n Hin. rewrite Hp in Hin.
    apply elem_of_group_count in Hin as [Hy ->]. by apply count_by_pos.
  - rewrite Hp. apply sum_group_count.
Qed.

(** X17.  [top_3_most_popular_vehicles] returns three rows, or one row
    per distinct (make, model) pair when the table has fewer than three
    pairs; the rows are for different pairs, each with the number of rows
    of the table that have that pair, in descending order of that number;
    and no pair that is left out occurs more often than a pair that is
    kept. *)
Theorem top_3_most_popular_vehicles_spec db :
  let result := top_3_most_popular_vehicles db in
  let make_model r := (Make r, Model r) in
  let count make model := count_by make_model (make, model) (visible db) in
  length result = (3 `min` length (remove_dups (make_model <$> visible db)))%nat ∧
  NoDup result.*1 ∧
  (∀ make model n, (make, model, n) ∈ result →
     n = count make model ∧ (0 < n)%nat) ∧
  StronglySorted (λ row1 row2, (row2.2 ≤ row1.2)%nat) result ∧
  (∀ make model n make' model',
     (make, model, n) ∈ result → (make', model') ∉ result.*1 →
     (count make' model' ≤ n)%nat) ∧
  (sum_list result.*2 ≤ row_count db)%nat.
Proof.
  cbv zeta. unfold top_3_most_popular_vehicles.
  set (key := λ r, (Make r, Model r)).
  set (sorted := order_by_desc snd (group_count key (visible db))).
  pose proof (order_by_desc_perm snd (group_count key (visible db))) as Hp.
  fold sorted in Hp.
  pose proof (order_by_desc_sorted snd (group_count key (visible db))) as Hs.
  fold sorted in Hs.
  assert (sorted.*1 ≡ₚ remove_dups (key <$> visible db)) as Hk
    by (rewrite Hp; by rewrite group_count_keys).
  assert (NoDup sorted.*1) as Hnd by (rewrite Hk; apply NoDup_remove_dups).
  pose proof (take_drop 3 sorted) as Htd.
  split.
  { rewrite length_take. f_equal. rewrite <- Hk. by rewrite length_fmap. }
  split.
  { rewrite <- Htd, fmap_app in Hnd. by apply NoDup_app in Hnd as [? _]. }
  split.
  { intros make model n Hin. apply (subseteq_take 3) in Hin. rewrite Hp in Hin.
    apply elem_of_group_count in Hin as [Hy ->]. split; [done|].
    by apply count_by_pos. }
  split.
  { rewrite <- Htd in Hs. by apply StronglySorted_app_1_l in Hs. }
  split.
  - intros make model n make' model' Hin Hout.
    destruct (decide ((make', model') ∈ key <$> visible db)) as [Hk'|Hk'];
      [|rewrite <- count_by_pos in Hk'; lia].
    assert ((make', model', count_by key (make', model') (visible db)) ∈ sorted)
      as Hin' by (rewrite Hp; by apply elem_of_group_count).
    rewrite <- Htd in Hin'. apply elem_of_app in Hin' as [Hin'|Hin'].
    { destruct Hout. apply list_elem_of_fmap. by eexists (_, _, _). }
    rewrite <- Htd in Hs.
    apply (StronglySorted_app_1_elem_of _ _ _ _ _ Hs Hin Hin').
  - etrans; [|apply Nat.eq_le_incl, (sum_group_count key)].
    rewrite <- Hp. rewrite fmap_take. apply sum_list_take.
Qed.

End QueryExtras.

(** ** The reporter: the report files *)

Section ReportFiles.
Import Sql Analytics.
Context (out : list string) (db : connection).
Implicit Types (fs : filesystem) (p : list string).


Lemma year_file_not_report name year : out ++ [name] ≠ year_file (mkAnalytics out) year.
Proof.
  intros Heq. apply (f_equal length) in Heq. revert Heq.
  unfold year_file, year_dir. rewrite !length_app. simpl. lia.
Qed.

Lemma report_on_lookup_report fs name :
  files (report_on fs out db) !! (out ++ [name]) =
  files
    (to_parquet (df_postal (most_popular_vehicle_by_postal_code db))
       (out ++ ["popular_vehicle_by_postal_code.parquet"])
       (to_parquet (df_vehicles (top_3_most_popular_vehicles db))
          (out ++ ["top_3_most_popular_vehicles.parquet"])
          (to_parquet (df_city (count_cars_per_city db))
             (out ++ ["electric_cars_per_city.parquet"])
             (mkdir out fs)))) !! (out ++ [name]).
Proof.
  unfold report_on, init, run. rewrite write_year_lookup_ne; [done|].
  intros g _. apply year_file_not_report.
Qed.

Lemma report_on_lookup_other fs p :
  p ≠ out ++ ["electric_cars_per_city.parquet"] →
  p ≠ out ++ ["top_3_most_popular_vehicles.parquet"] →
  p ≠ out ++ ["popular_vehicle_by_postal_code.parquet"] →
  (∀ year, year ∈ model_years db → p ≠ year_file (mkAnalytics out) year) →
  files (report_on fs out db) !! p = files fs !! p.
Proof.
  intros Hc Ht Hp Hy. unfold report_on, init, run.
  rewrite write_year_lookup_ne
    by (intros g Hg; apply Hy; by apply groups_model_years).
  cbn [files to_parquet mkdir output_dir].
  by rewrite !lookup_insert_ne.
Qed.

Lemma report_on_city fs :
  files (report_on fs out db) !! (out ++ ["electric_cars_per_city.parquet"]) =
  Some (df_city (count_cars_per_city db)).
Proof.
  rewrite report_on_lookup_report. cbn [files to_parquet].
  rewrite !lookup_insert_ne by (intros [=]%app_inv_head).
  apply lookup_insert_eq.
Qed.

Lemma report_on_top fs :
  files (report_on fs out db) !! (out ++ ["top_3_most_popular_vehicles.parquet"]) =
  Some (df_vehicles (top_3_most_popular_vehicles db)).
Proof.
  rewrite report_on_lookup_report. cbn [files to_parquet].
  rewrite !lookup_insert_ne by (intros [=]%app_inv_head).
  apply lookup_insert_eq.
Qed.

Lemma report_on_postal fs :
  files (report_on fs out db) !! (out ++ ["popular_vehicle_by_postal_code.parquet"]) =
  Some (df_postal (most_popular_vehicle_by_postal_code db)).
Proof.
  rewrite report_on_lookup_report. cbn [files to_parquet].
  apply lookup_insert_eq.
Qed.

Lemma report_on_dirs_subseteq fs : dirs fs ⊆ dirs (report_on fs out db).
Proof. intros d Hd. apply report_on_dirs. by left. Qed.

Lemma report_on_files_subseteq fs : dom (files fs) ⊆ dom (files (report_on fs out db)).
Proof. intros p Hp. apply report_on_files. by left. Qed.

(** X18.  Whatever the output tree held before, after [run] the
    three files [electric_cars_per_city.parquet],
    [top_3_most_popular_vehicles.parquet] and
    [popular_vehicle_by_postal_code.parquet] of the output directory hold
    the results of the three queries on the table, row for row; files
    that were there under these names are overwritten.  Over an empty
    tree these three are the only files directly in the output
    directory. *)
Theorem run_writes_reports fs :
  files (report_on fs out db) !! (out ++ ["electric_cars_per_city.parquet"]) =
    Some (df_city (count_cars_per_city db)) ∧
  files (report_on fs out db) !! (out ++ ["top_3_most_popular_vehicles.parquet"]) =
    Some (df_vehicles (top_3_most_popular_vehicles db)) ∧
  files (report_on fs out db) !! (out ++ ["popular_vehicle_by_postal_code.parquet"]) =
    Some (df_postal (most_popular_vehicle_by_postal_code db)) ∧
  files_in out (report out db) =
    {[ out ++ ["electric_cars_per_city.parquet"];
       out ++ ["top_3_most_popular_vehicles.parquet"];
       out ++ ["popular_vehicle_by_postal_code.parquet"] ]}.
Proof.
  split; [apply report_on_city|]. split; [apply report_on_top|].
  split; [apply report_on_postal|].
  apply set_eq. intros p. unfold files_in, report.
  rewrite elem_of_filter, report_on_files. cbn [files].
  rewrite dom_empty_L, elem_of_empty, !elem_of_union, !elem_of_singleton. split.
  - intros [Hc [[]|[->|[->|[->|(y & _ & ->)]]]]]; [tauto..|].
    destruct Hc as [Hl _]. unfold year_file, year_dir in Hl.
    rewrite !length_app in Hl. simpl in Hl. lia.
  - intros [[->| ->]| ->]; (split; [apply is_child_app|tauto]).
Qed.

(** X19.  [run] only adds to the output tree.  Every directory and
    every file that was there is still there; a file keeps its content
    unless it is one of the three reports or the partition file of a
    model year of the table.  In particular the partition file that an
    earlier run wrote for a year no longer in the table is left as it
    was. *)
Theorem run_keeps_other_files fs :
  dirs fs ⊆ dirs (report_on fs out db) ∧
  dom (files fs) ⊆ dom (files (report_on fs out db)) ∧
  (∀ p, p ≠ out ++ ["electric_cars_per_city.parquet"] →
        p ≠ out ++ ["top_3_most_popular_vehicles.parquet"] →
        p ≠ out ++ ["popular_vehicle_by_postal_code.parquet"] →
        (∀ year, year ∈ model_years db → p ≠ year_file (mkAnalytics out) year) →
        files (report_on fs out db) !! p = files fs !! p) ∧
  (∀ year, year ∉ model_years db →
           files (report_on fs out db) !! year_file (mkAnalytics out) year =
           files fs !! year_file (mkAnalytics out) year).
Proof.
  split; [apply report_on_dirs_subseteq|]. split; [apply report_on_files_subseteq|].
  split; [apply report_on_lookup_other|].
  intros year Hy. apply report_on_lookup_other.
  - intros Heq. symmetry in Heq. by apply year_file_not_report in Heq.
  - intros Heq. symmetry in Heq. by apply year_file_not_report in Heq.
  - intros Heq. symmetry in Heq. by apply year_file_not_report in Heq.
  - intros year' Hy' Heq%year_file_inj. by subst.
Qed.

(** X20.  A second [run] on the same table adds nothing to the output
    tree: it makes no directory and no file that the first run did not
    leave, and apart from the three report files, whose rows the engine
    may give in another order, every file has the content it had after
    the first run (a partition file is written again with the one row of
    its year). *)
Theorem run_twice_adds_nothing fs :
  dirs (report_on (report_on fs out db) out db) = dirs (report_on fs out db) ∧
  dom (files (report_on (report_on fs out db) out db)) =
    dom (files (report_on fs out db)) ∧
  (∀ p, p ≠ out ++ ["electric_cars_per_city.parquet"] →
        p ≠ out ++ ["top_3_most_popular_vehicles.parquet"] →
        p ≠ out ++ ["popular_vehicle_by_postal_code.parquet"] →
        files (report_on (report_on fs out db) out db) !! p =
        files (report_on fs out db) !! p).
Proof.
  split; [|split].
  - apply set_eq. intros d. rewrite (report_on_dirs (report_on fs out db)).
    split; [|by left]. intros [?|Hd]; [done|]. apply report_on_dirs. by right.
  - apply set_eq. intros p. rewrite (report_on_files (report_on fs out db)).
    split; [|by left]. intros [?|Hp]; [done|]. apply report_on_files. by right.
  - intros p Hc Ht Hp.
    destruct (decide (p ∈ (set_map (year_file (mkAnalytics out)) (model_years db)
                            : gset (list string)))) as [Hy|Hy].
    + apply elem_of_map in Hy as (year & -> & Hy).
      by rewrite !report_on_year_file.
    + apply report_on_lookup_other; try done.
      intros year Hyear ->. apply Hy, elem_of_map. eauto.
Qed.

(** X21.  On a table without rows [run] still writes the three
    report files, each with its column names and no row, and makes no
    [model_year=...] directory and no partition file. *)
Theorem run_on_empty_table fs :
  visible db = [] →
  files (report_on fs out db) !! (out ++ ["electric_cars_per_city.parquet"]) =
    Some (mkDataFrame ["City"; "num_electric_cars"] []) ∧
  files (report_on fs out db) !! (out ++ ["top_3_most_popular_vehicles.parquet"]) =
    Some (mkDataFrame ["Make"; "Model"; "popularity"] []) ∧
  files (report_on fs out db) !! (out ++ ["popular_vehicle_by_postal_code.parquet"]) =
    Some (mkDataFrame ["Postal_Code"; "Make"; "Model"; "popularity"] []) ∧
  subdirectories out (report out db) = ∅ ∧
  dirs (report_on fs out db) = dirs (mkdir out fs) ∧
  dom (files (report_on fs out db)) =
    dom (files fs) ∪ {[ out ++ ["electric_cars_per_city.parquet"];
                        out ++ ["top_3_most_popular_vehicles.parquet"];
                        out ++ ["popular_vehicle_by_postal_code.parquet"] ]}.
Proof.
  intros Hv.
  assert (model_years db = ∅) as Hy by (unfold model_years; by rewrite Hv).
  rewrite report_on_city, report_on_top, report_on_postal.
  unfold count_cars_per_city, top_3_most_popular_vehicles,
    most_popular_vehicle_by_postal_code. rewrite Hv.
  do 3 (split; [reflexivity|]).
  split; [by rewrite report_subdirectories, Hy|]. split.
  - apply set_eq. intros d. rewrite report_on_dirs, mkdir_dirs, Hy.
    split; [|tauto]. intros [?|[?|(y & n & []%elem_of_empty & _)]]; tauto.
  - apply set_eq. intros p.
    rewrite report_on_files, Hy, !elem_of_union, !elem_of_singleton.
    split; [|tauto]. intros [?|[?|[?|[?|(y & []%elem_of_empty & _)]]]]; tauto.
Qed.

End ReportFiles.

(** * The driver *)

Section MainFacts.
Import Main.
Context (script_dir : list string).
Implicit Types (w : world).

Lemma init_found files path batch text :
  files !! path = Some text →
  DataLoader.init files path batch = Return (DataLoader.mkLoader text batch).
Proof.
  intros Hf. unfold DataLoader.init, DataLoader._validate_csv_path. by rewrite Hf.
Qed.

Lemma init_missing files path batch :
  files !! path = None → DataLoader.init files path batch = Raise FileNotFoundError.
Proof.
  intros Hf. unfold DataLoader.init, DataLoader._validate_csv_path. by rewrite Hf.
Qed.

Lemma mkdir_files path fs : files (mkdir path fs) = files fs.
Proof. done. Qed.

Lemma run_terminates ef self db : (DataLoader.run ef self db).1 ≠ Diverge.
Proof.
  destruct (load_data_cases ef self db) as [(rows & _ & Hl)|[e Hl]].
  - rewrite (run_after_load ef _ _ _ Hl), validate_data_load_eq. by case_decide.
  - by rewrite (run_load_raises ef _ _ _ _ Hl).
Qed.

Lemma run_committed ef self db :
  transaction db = None →
  ∃ rows, committed (DataLoader.run ef self db).2 = committed db ++ rows ∧
          transaction (DataLoader.run ef self db).2 = None.
Proof.
  intros Ht. destruct (load_data_cases ef self db) as [(rows & _ & Hl)|[e Hl]].
  - rewrite (run_after_load ef _ _ _ Hl), validate_data_load_eq. simpl. eauto.
  - rewrite (run_load_raises ef _ _ _ _ Hl). simpl. exists []. by rewrite app_nil_r.
Qed.

Lemma main_found ef rf w text :
  inputs w !! csv_path = Some text →
  main ef rf script_dir w =
  let tree1 := mkdir (script_dir ++ ["db"]) (tree w) in
  match DataLoader.run ef (DataLoader.mkLoader text 5000)
          (mkConnection (database w) None) with
  | (Return _, db) =>
      match rf db tree1 with
      | Some (e, tree') => (Raise e, mkWorld (inputs w) (committed db) tree')
      | None =>
          (Return tt,
           mkWorld (inputs w) (committed db) (report_on tree1 ["analytics_output"] db))
      end
  | (Raise e, db) => (Raise e, mkWorld (inputs w) (committed db) tree1)
  | (Diverge, db) => (Diverge, mkWorld (inputs w) (committed db) tree1)
  end.
Proof. intros Hf. unfold main. by rewrite (init_found _ _ _ _ Hf). Qed.

(** A [run] that returns has committed the records of the file. *)
Lemma run_returns_loaded ef self db db' :
  1 ≤ DataLoader.batch_size self →
  DataLoader.run ef self db = (Return tt, db') →
  transaction db = None ∧
  db' = mkConnection
          (committed db ++ (stored_row <$> csv_records (DataLoader.csv_text self)))
          None.
Proof.
  intros Hb Hrun.
  destruct (load_data_cases ef self db) as [(rows & Ht & Hl)|[e Hl]].
  - rewrite (run_after_load ef _ _ _ Hl), validate_data_load_eq in Hrun.
    case_decide; [|done]. injection Hrun as <-.
    destruct (load_data_stored ef _ _ _ Hb Hl) as [_ Heq]. by rewrite Heq.
  - by rewrite (run_load_raises ef _ _ _ _ Hl) in Hrun.
Qed.

(** X22.  Whatever the engine and the reporter do, [main] returns or
    raises, and the rows that were committed in the database stay, in
    their order; rows are only added after them.  When the CSV file is
    missing, [main] raises [FileNotFoundError] with the database
    unchanged, and when the loader's [run] raises, [main] raises the same
    exception: in both cases the reporter is not even built, no report is
    written, and the only change to the directories is the [db] directory
    next to [main.py].  When the loader returns and the reporter fails,
    [main] raises the reporter's exception and the load is not undone: the
    records of the file stay committed. *)
Theorem main_failure_writes_no_report ef rf w :
  let tree1 := mkdir (script_dir ++ ["db"]) (tree w) in
  let db0 := mkConnection (database w) None in
  (main ef rf script_dir w).1 ≠ Diverge ∧
  inputs (main ef rf script_dir w).2 = inputs w ∧
  (∃ rows, database (main ef rf script_dir w).2 = database w ++ rows) ∧
  (inputs w !! csv_path = None →
   main ef rf script_dir w =
     (Raise FileNotFoundError, mkWorld (inputs w) (database w) tree1)) ∧
  (∀ text e db,
     inputs w !! csv_path = Some text →
     DataLoader.run ef (DataLoader.mkLoader text 5000) db0 = (Raise e, db) →
     main ef rf script_dir w = (Raise e, mkWorld (inputs w) (committed db) tree1)) ∧
  (∀ text db e tree',
     inputs w !! csv_path = Some text →
     DataLoader.run ef (DataLoader.mkLoader text 5000) db0 = (Return tt, db) →
     rf db tree1 = Some (e, tree') →
     main ef rf script_dir w =
       (Raise e,
        mkWorld (inputs w) (database w ++ (stored_row <$> csv_records text)) tree')).
Proof.
  cbv zeta. split; [|split; [|split; [|split; [|split]]]].
  - destruct (inputs w !! csv_path) as [text|] eqn:Hf.
    + rewrite (main_found _ _ _ _ Hf). cbv zeta.
      pose proof (run_terminates ef (DataLoader.mkLoader text 5000)
                    (mkConnection (database w) None)) as Hterm.
      destruct (DataLoader.run ef _ _) as [[[]|e|] db']; [|done..].
      by destruct (rf db' _) as [[e tree']|].
    + unfold main. by rewrite (init_missing _ _ _ Hf).
  - destruct (inputs w !! csv_path) as [text|] eqn:Hf.
    + rewrite (main_found _ _ _ _ Hf). cbv zeta.
      destruct (DataLoader.run ef _ _) as [[[]|e|] db']; [|done..].
      by destruct (rf db' _) as [[e tree']|].
    + unfold main. by rewrite (init_missing _ _ _ Hf).
  - destruct (inputs w !! csv_path) as [text|] eqn:Hf.
    + rewrite (main_found _ _ _ _ Hf). cbv zeta.
      destruct (run_committed ef (DataLoader.mkLoader text 5000)
                  (mkConnection (database w) None) eq_refl) as (rows & Hc & _).
      exists rows.
      destruct (DataLoader.run ef _ _) as [[[]|e|] db']; simpl in *; [|done..].
      by destruct (rf db' _) as [[e tree']|].
    + unfold main. rewrite (init_missing _ _ _ Hf). simpl.
      exists []. by rewrite app_nil_r.
  - intros Hf. unfold main. by rewrite (init_missing _ _ _ Hf).
  - intros text e db Hf Hrun. rewrite (main_found _ _ _ _ Hf). cbv zeta.
    by rewrite Hrun.
  - intros text db e tree' Hf Hrun Hrf. rewrite (main_found _ _ _ _ Hf). cbv zeta.
    rewrite Hrun, Hrf.
    destruct (run_returns_loaded ef (DataLoader.mkLoader text 5000) _ _
                ltac:(simpl; lia) Hrun) as [_ ->]. done.
Qed.

Lemma mkdir_again path fs :
  (∀ n, (n < length path)%nat → take (S n) path ∈ dirs fs) → mkdir path fs = fs.
Proof.
  intros Hin. destruct fs as [d f]. unfold mkdir. simpl in *. f_equal.
  apply set_eq. intros p. rewrite elem_of_union. split; [|by left].
  intros [?|(n & -> & Hn%elem_of_seq)%elem_of_list_to_set%list_elem_of_fmap]; [done|].
  apply Hin. lia.
Qed.

Lemma main_no_fault_outcomes rf w text :
  inputs w !! csv_path = Some text →
  let load_ok := csv_error text = None ∧
                 Forall (λ d, fits d = true) (csv_records text) in
  let rows_after := Z.of_nat (length (database w))
                    + Z.of_nat (length (csv_records text)) in
  let csv_row_count := Z.of_nat (csv_lines text) - 1 in
  let rows := database w ++ (stored_row <$> csv_records text) in
  let tree1 := mkdir (script_dir ++ ["db"]) (tree w) in
  ((main no_fault rf script_dir w).1 = Return tt ↔
   load_ok ∧ rows_after = csv_row_count ∧ rf (mkConnection rows None) tree1 = None) ∧
  (load_ok → rows_after = csv_row_count →
   rf (mkConnection rows None) tree1 = None →
   main no_fault rf script_dir w =
     (Return tt,
      mkWorld (inputs w) rows
        (report_on tree1 ["analytics_output"] (mkConnection rows None)))) ∧
  (load_ok → rows_after = csv_row_count →
   ∀ e tree', rf (mkConnection rows None) tree1 = Some (e, tree') →
   main no_fault rf script_dir w = (Raise e, mkWorld (inputs w) rows tree')) ∧
  (load_ok → rows_after ≠ csv_row_count →
   main no_fault rf script_dir w =
     (Raise (AssertionError csv_row_count rows_after),
      mkWorld (inputs w) rows tree1)) ∧
  (¬ load_ok →
   ∃ e, main no_fault rf script_dir w =
          (Raise e, mkWorld (inputs w) (database w) tree1)).
Proof.
  intros Hf. cbv zeta. rewrite (main_found _ _ _ _ Hf). cbv zeta.
  destruct (run_no_fault_outcomes (DataLoader.mkLoader text 5000)
              (mkConnection (database w) None) ltac:(simpl; unfold maxsize; lia))
    as (Hiff & Hok & Hcount & Hload).
  cbn [DataLoader.csv_text] in *.
  assert (row_count (mkConnection (database w) None) = length (database w)) as Hrc
    by (unfold row_count, visible; simpl; by rewrite app_nil_r).
  rewrite Hrc in *.
  assert ((transaction (mkConnection (database w) None) = None ∧
           csv_error text = None ∧
           Forall (λ d, fits d = true) (csv_records text)) ↔
          (csv_error text = None ∧
           Forall (λ d, fits d = true) (csv_records text))) as Hlo
    by (simpl; tauto).
  split; [|split; [|split; [|split]]].
  - split.
    + intros Hr.
      assert ((DataLoader.run no_fault (DataLoader.mkLoader text 5000)
                 (mkConnection (database w) None)).1 = Return tt) as Hrun.
      { destruct (DataLoader.run no_fault _ _) as [[[]|e|] db']; done. }
      pose proof Hrun as [Hl%Hlo Hc]%Hiff. split; [done|]. split; [done|].
      rewrite (Hok (proj2 Hlo Hl) Hc) in Hr. unfold loaded in Hr. simpl in Hr.
      by destruct (rf _ _) as [[e tree']|].
    + intros (Hl%Hlo & Hc & Hrf). rewrite (Hok Hl Hc). unfold loaded. simpl.
      by rewrite Hrf.
  - intros Hl%Hlo Hc Hrf. rewrite (Hok Hl Hc). unfold loaded. simpl.
    by rewrite Hrf.
  - intros Hl%Hlo Hc e tree' Hrf. rewrite (Hok Hl Hc). unfold loaded. simpl.
    by rewrite Hrf.
  - intros Hl%Hlo Hc. rewrite (Hcount Hl Hc). done.
  - intros Hl. destruct Hload as [e ->]; [by rewrite Hlo|]. eauto.
Qed.

(** X23.  With the CSV file in place and an engine without faults of
    its own, [main] returns exactly when the file parses, its numbers fit
    their columns, the rows already in the database plus the records of
    the file add up to the lines of the file less one, and the reporter
    does not fail.  Then the database holds the old rows followed by one
    row per record, and the tree holds the reports computed on all of
    these rows.  When the reporter fails, [main] raises its exception with
    the new rows committed.  When only the counts differ, [main] raises
    [AssertionError]: the new rows are committed but no report is
    written.  In every other case [main] raises, with database and
    reports as they were. *)
Theorem main_outcomes rf w text :
  inputs w !! csv_path = Some text →
  let load_ok := csv_error text = None ∧
                 Forall (λ d, fits d = true) (csv_records text) in
  let rows_after := Z.of_nat (length (database w))
                    + Z.of_nat (length (csv_records text)) in
  let csv_row_count := Z.of_nat (csv_lines text) - 1 in
  let rows := database w ++ (stored_row <$> csv_records text) in
  let tree1 := mkdir (script_dir ++ ["db"]) (tree w) in
  ((main no_fault rf script_dir w).1 = Return tt ↔
   load_ok ∧ rows_after = csv_row_count ∧ rf (mkConnection rows None) tree1 = None) ∧
  (load_ok → rows_after = csv_row_count →
   rf (mkConnection rows None) tree1 = None →
   main no_fault rf script_dir w =
     (Return tt,
      mkWorld (inputs w) rows
        (report_on tree1 ["analytics_output"] (mkConnection rows None)))) ∧
  (load_ok → rows_after = csv_row_count →
   ∀ e tree', rf (mkConnection rows None) tree1 = Some (e, tree') →
   main no_fault rf script_dir w = (Raise e, mkWorld (inputs w) rows tree')) ∧
  (load_ok → rows_after ≠ csv_row_count →
   main no_fault rf script_dir w =
     (Raise (AssertionError csv_row_count rows_after),
      mkWorld (inputs w) rows tree1)) ∧
  (¬ load_ok →
   ∃ e, main no_fault rf script_dir w =
          (Raise e, mkWorld (inputs w) (database w) tree1)).
Proof. apply main_no_fault_outcomes. Qed.

(** X24.  [main] is not repeatable.  On an engine without faults
    of its own, after a [main] that returned on a file with at least one
    record, a second [main] on what the first one left loads every record
    once more and raises [AssertionError]: the database then holds the
    records of the file twice, while the reports stay those of the first
    run and do not show the duplicates. *)
Theorem main_twice_duplicates_rows rf w w1 text :
  inputs w !! csv_path = Some text → csv_records text ≠ [] →
  main no_fault rf script_dir w = (Return tt, w1) →
  database w1 = database w ++ (stored_row <$> csv_records text) ∧
  tree w1 = report_on (mkdir (script_dir ++ ["db"]) (tree w)) ["analytics_output"]
              (mkConnection (database w1) None) ∧
  main no_fault rf script_dir w1 =
    (Raise (AssertionError
              (Z.of_nat (csv_lines text) - 1)
              (Z.of_nat (length (database w1)) + Z.of_nat (length (csv_records text)))),
     mkWorld (inputs w) (database w1 ++ (stored_row <$> csv_records text)) (tree w1)).
Proof.
  intros Hf Hne Hmain.
  destruct (main_no_fault_outcomes rf w text Hf) as (Hiff & Hok & _).
  assert ((main no_fault rf script_dir w).1 = Return tt) as Hr by by rewrite Hmain.
  apply Hiff in Hr as (Hl & Hc & Hrf). rewrite (Hok Hl Hc Hrf) in Hmain.
  injection Hmain as <-. cbn [inputs database tree].
  split; [done|]. split; [done|].
  set (rows := database w ++ (stored_row <$> csv_records text)).
  set (tree1 := report_on _ _ _).
  destruct (main_no_fault_outcomes rf (mkWorld (inputs w) rows tree1) text Hf)
    as (_ & _ & _ & Hcount & _).
  cbn [inputs database tree] in Hcount.
  assert (0 < length (csv_records text))%nat
    by (destruct (csv_records text); [done|simpl; lia]).
  rewrite Hcount; [|done|].
  - do 2 f_equal. apply mkdir_again. intros n Hn.
    apply report_on_dirs. left. apply mkdir_dirs. right. eauto.
  - unfold rows. rewrite length_app, length_fmap. lia.
Qed.

End MainFacts.

(** * The further properties on the sample inputs *)

Lemma nonempty_by_length {A} (l : list A) : (0 <? length l)%nat = true → l ≠ [].
Proof. by destruct l. Qed.

Lemma pair_eta_fst {A B} (p : A * B) (a : A) : p.1 = a → p = (a, p.2).
Proof. destruct p. simpl. by intros ->. Qed.

Lemma load_data_inside_transaction_sample :
  DataLoader.load_data no_fault sample_loader busy_db =
    (Raise TransactionException, busy_db) ∧
  DataLoader.run no_fault sample_loader busy_db =
    (Raise TransactionException, busy_db).
Proof.
  apply (load_data_inside_transaction no_fault sample_loader busy_db []).
  reflexivity.
Defined.

Lemma out_of_range_aborts_load_sample :
  (∃ e, DataLoader.load_data fault_on_second_row
          (DataLoader.mkLoader overflow_csv 2) empty_db = (Raise e, empty_db)) ∧
  (2 ≤ maxsize → transaction empty_db = None → csv_error overflow_csv = None →
   DataLoader.load_data no_fault (DataLoader.mkLoader overflow_csv 2) empty_db =
     (Raise ConversionException, empty_db)).
Proof.
  apply (out_of_range_aborts_load fault_on_second_row
           (DataLoader.mkLoader overflow_csv 2) empty_db
           {[ lit "VIN (1-10)" := Some (lit "B");
              lit "Model Year" := Some (lit "99999999999") ]}).
  - simpl. lia.
  - apply (list_elem_of_lookup_2 _ 1%nat). vm_compute. reflexivity.
  - vm_compute. reflexivity.
Defined.

Lemma load_data_degenerate_batch_size_sample :
  (DataLoader.load_data no_fault (DataLoader.mkLoader sample_csv 0) empty_db =
     (Return tt, empty_db) ∧
   DataLoader.run no_fault (DataLoader.mkLoader sample_csv 0) empty_db =
     DataLoader.validate_data_load (DataLoader.mkLoader sample_csv 0) empty_db) ∧
  (DataLoader.load_data no_fault (DataLoader.mkLoader sample_csv (-1)) empty_db =
     (Raise ValueError, empty_db) ∧
   DataLoader.run no_fault (DataLoader.mkLoader sample_csv (-1)) empty_db =
     (Raise ValueError, empty_db)).
Proof.
  split.
  - apply (load_data_degenerate_batch_size no_fault
             (DataLoader.mkLoader sample_csv 0) empty_db); reflexivity.
  - apply (load_data_degenerate_batch_size no_fault
             (DataLoader.mkLoader sample_csv (-1)) empty_db); [reflexivity|simpl; lia].
Defined.

Lemma empty_file_fails_validation_sample :
  DataLoader.load_data no_fault (DataLoader.mkLoader [] 5000) empty_db =
    (Return tt, empty_db) ∧
  DataLoader.run no_fault (DataLoader.mkLoader [] 5000) empty_db =
    (Raise (AssertionError (-1) (Z.of_nat (row_count empty_db))), empty_db).
Proof.
  apply (empty_file_fails_validation no_fault
           (DataLoader.mkLoader [] 5000) empty_db).
  - reflexivity.
  - simpl. unfold maxsize. lia.
  - reflexivity.
Defined.

Lemma load_data_succeeds_iff_sample :
  ((DataLoader.load_data no_fault sample_loader empty_db).1 = Return tt ↔
   transaction empty_db = None ∧ csv_error sample_csv = None ∧
   Forall (λ d, fits d = true) (csv_records sample_csv)) ∧
  ((DataLoader.load_data no_fault sample_loader empty_db).1 = Return tt →
   DataLoader.load_data no_fault sample_loader empty_db =
     (Return tt, loaded sample_csv empty_db)) ∧
  ((DataLoader.load_data no_fault sample_loader empty_db).1 ≠ Return tt →
   ∃ e, DataLoader.load_data no_fault sample_loader empty_db = (Raise e, empty_db)).
Proof.
  apply (load_data_succeeds_iff sample_loader empty_db).
  simpl. unfold maxsize. lia.
Defined.

Lemma run_succeeds_iff_reload :
  DataLoader.run no_fault sample_loader loaded_db =
    (Raise (AssertionError (Z.of_nat (csv_lines sample_csv) - 1)
              (Z.of_nat (row_count loaded_db)
               + Z.of_nat (length (csv_records sample_csv)))),
     loaded sample_csv loaded_db).
Proof.
  destruct (run_succeeds_iff sample_loader loaded_db
              ltac:(simpl; unfold maxsize; lia))
    as (_ & _ & Hcount & _).
  apply Hcount.
  - split; [reflexivity|]. split; [vm_compute; reflexivity|].
    apply forallb_Forall_true. vm_compute. reflexivity.
  - vm_compute. discriminate.
Defined.

Lemma run_twice_fails_validation_sample :
  loaded_db = loaded sample_csv empty_db ∧
  DataLoader.run no_fault sample_loader loaded_db =
    (Raise (AssertionError
              (Z.of_nat (csv_lines sample_csv) - 1)
              (Z.of_nat (row_count loaded_db)
               + Z.of_nat (length (csv_records sample_csv)))),
     loaded sample_csv loaded_db) ∧
  row_count (loaded sample_csv loaded_db) =
    (row_count empty_db + 2 * length (csv_records sample_csv))%nat.
Proof.
  apply (run_twice_fails_validation sample_loader empty_db loaded_db).
  - simpl. lia.
  - apply nonempty_by_length. vm_compute. reflexivity.
  - vm_compute. reflexivity.
Defined.

Lemma missing_column_is_null_sample :
  Csv.get {[ lit "City" := Some (lit "Yelm"); lit "VIN (1-10)" := Some (lit "B") ]}
    (lit "Model Year") = None ∧
  DataLoader.convert_row
    {[ lit "City" := Some (lit "Yelm"); lit "VIN (1-10)" := Some (lit "B") ]} !! 5%nat =
    Some VNone.
Proof.
  apply (missing_column_is_null swapped_csv [lit "City"; lit "VIN (1-10)"]
           [[lit "Kent"; lit "A"]; []; [lit "Yelm"; lit "B"]]
           5 "Model Year" "Model_Year").
  - vm_compute. reflexivity.
  - reflexivity.
  - apply (bool_decide_unpack _). vm_compute. exact I.
  - apply (list_elem_of_lookup_2 _ 1%nat). vm_compute. reflexivity.
Defined.

Lemma columns_read_by_name_sample :
  (λ params, params !! 0%nat) <$> (DataLoader.convert_row <$> csv_records swapped_csv) =
  (λ row, Some (DataLoader._convert_value "VIN" (row !! 1%nat)))
    <$> filter (λ row, row ≠ [])
          [[lit "Kent"; lit "A"]; []; [lit "Yelm"; lit "B"]].
Proof.
  apply (columns_read_by_name swapped_csv [lit "City"; lit "VIN (1-10)"]
           [[lit "Kent"; lit "A"]; []; [lit "Yelm"; lit "B"]]
           0 1 "VIN (1-10)" "VIN").
  - vm_compute. reflexivity.
  - reflexivity.
  - apply (bool_decide_unpack _). vm_compute. exact I.
  - reflexivity.
Defined.

Lemma convert_value_int_round_trip_sample :
  DataLoader._convert_value "Base_MSRP" (Some (lit "0")) = VInt 0 ∧
  DataLoader._convert_value "Model_Year" (Some (lit "-2020")) = VInt (-2020) ∧
  DataLoader._convert_value "Legislative_District" (Some (lit "14")) = VStr (lit "14").
Proof.
  split; [|split].
  - apply (convert_value_int_round_trip "Base_MSRP" 0). vm_compute. reflexivity.
  - apply (convert_value_int_round_trip "Model_Year" (-2020)). vm_compute. reflexivity.
  - apply (convert_value_int_round_trip "Legislative_District" 14). vm_compute. reflexivity.
Defined.

Lemma convert_value_ignores_blanks_sample :
  DataLoader._convert_value "Model_Year" (Some (lit " " ++ lit "2020" ++ lit " ")) =
  DataLoader._convert_value "Model_Year" (Some (lit "2020")).
Proof.
  apply (convert_value_ignores_blanks "Model_Year" (lit " ") (lit "2020") (lit " "));
    reflexivity.
Defined.

Lemma lines_are_records_blank_or_continued_sample :
  (length (csv_records swapped_csv) + blank_lines swapped_csv
   + continued_lines swapped_csv = csv_lines swapped_csv - 1)%nat ∧
  (length (csv_records multiline_csv) + blank_lines multiline_csv
   + continued_lines multiline_csv = csv_lines multiline_csv - 1)%nat.
Proof.
  split.
  - apply (lines_are_records_blank_or_continued swapped_csv).
    + vm_compute. lia.
    + vm_compute. reflexivity.
  - apply (lines_are_records_blank_or_continued multiline_csv).
    + vm_compute. lia.
    + vm_compute. reflexivity.
Defined.

Lemma run_succeeds_iff_one_record_per_line_sample :
  (DataLoader.run no_fault sample_loader empty_db).1 = Return tt ↔
  (transaction empty_db = None ∧ csv_error sample_csv = None ∧
   Forall (λ d, fits d = true) (csv_records sample_csv)) ∧
  (0 < csv_lines sample_csv)%nat ∧
  blank_lines sample_csv = 0%nat ∧ continued_lines sample_csv = 0%nat.
Proof.
  destruct (run_succeeds_iff_one_record_per_line sample_loader empty_db
              ltac:(simpl; unfold maxsize; lia)) as [_ Hempty].
  apply Hempty. reflexivity.
Defined.

Lemma main_outcomes_sample :
  Main.main no_fault no_report_fault ["app"] sample_world =
    (Return tt,
     Main.mkWorld (Main.inputs sample_world)
       (Main.database sample_world ++ (stored_row <$> csv_records sample_csv))
       (report_on (mkdir (["app"] ++ ["db"]) (Main.tree sample_world))
          ["analytics_output"]
          (mkConnection
             (Main.database sample_world ++ (stored_row <$> csv_records sample_csv))
             None))).
Proof.
  destruct (main_outcomes ["app"] no_report_fault sample_world sample_csv
              ltac:(vm_compute; reflexivity))
    as (_ & Hok & _).
  apply Hok.
  - split; [vm_compute; reflexivity|].
    apply forallb_Forall_true. vm_compute. reflexivity.
  - vm_compute. reflexivity.
  - reflexivity.
Defined.

(** The reporter fails at its start, after the loader has returned on the
    fixture: [main] raises, and the three rows of the fixture stay in the
    database. *)
Lemma main_reporter_failure_sample :
  Main.main no_fault report_fault_at_start ["app"] sample_world =
    (Raise OSError,
     Main.mkWorld (Main.inputs sample_world)
       (Main.database sample_world ++ (stored_row <$> csv_records sample_csv))
       (mkdir ["analytics_output"]
          (mkdir (["app"] ++ ["db"]) (Main.tree sample_world)))).
Proof.
  pose proof (main_failure_writes_no_report ["app"] no_fault report_fault_at_start
                sample_world) as H.
  cbv zeta in H. destruct H as (_ & _ & _ & _ & _ & Hreporter).
  apply (Hreporter sample_csv loaded_db OSError).
  - vm_compute. reflexivity.
  - vm_compute. reflexivity.
  - reflexivity.
Defined.

Lemma main_twice_duplicates_rows_sample :
  Main.database sample_world_1 =
    Main.database sample_world ++ (stored_row <$> csv_records sample_csv) ∧
  Main.tree sample_world_1 =
    report_on (mkdir (["app"] ++ ["db"]) (Main.tree sample_world)) ["analytics_output"]
      (mkConnection (Main.database sample_world_1) None) ∧
  Main.main no_fault no_report_fault ["app"] sample_world_1 =
    (Raise (AssertionError
              (Z.of_nat (csv_lines sample_csv) - 1)
              (Z.of_nat (length (Main.database sample_world_1))
               + Z.of_nat (length (csv_records sample_csv)))),
     Main.mkWorld (Main.inputs sample_world)
       (Main.database sample_world_1 ++ (stored_row <$> csv_records sample_csv))
       (Main.tree sample_world_1)).
Proof.
  apply (main_twice_duplicates_rows ["app"] no_report_fault
           sample_world sample_world_1 sample_csv).
  - vm_compute. reflexivity.
  - apply nonempty_by_length. vm_compute. reflexivity.
  - apply (pair_eta_fst (Main.main no_fault no_report_fault ["app"] sample_world)
             (Return tt)).
    vm_compute. reflexivity.
Defined.

Lemma run_on_empty_table_sample :
  let out := ["analytics_output"] in
  let fs := mkFilesystem ∅ ∅ in
  files (report_on fs out empty_db) !! (out ++ ["electric_cars_per_city.parquet"]) =
    Some (mkDataFrame ["City"; "num_electric_cars"] []) ∧
  files (report_on fs out empty_db) !! (out ++ ["top_3_most_popular_vehicles.parquet"]) =
    Some (mkDataFrame ["Make"; "Model"; "popularity"] []) ∧
  files (report_on fs out empty_db) !! (out ++ ["popular_vehicle_by_postal_code.parquet"]) =
    Some (mkDataFrame ["Postal_Code"; "Make"; "Model"; "popularity"] []) ∧
  subdirectories out (report out empty_db) = ∅ ∧
  dirs (report_on fs out empty_db) = dirs (mkdir out fs) ∧
  dom (files (report_on fs out empty_db)) =
    dom (files fs) ∪ {[ out ++ ["electric_cars_per_city.parquet"];
                        out ++ ["top_3_most_popular_vehicles.parquet"];
                        out ++ ["popular_vehicle_by_postal_code.parquet"] ]}.
Proof.
  apply (run_on_empty_table ["analytics_output"] empty_db (mkFilesystem ∅ ∅)).
  reflexivity.
Defined.
